(** * report_extractor.py: extraction of inspection records from reports

    A shallow embedding of [ReportProcessor] (src/report_extractor.py):
    the date field extractor, the table pipeline of [extract_table_data]
    (header detection, row walk with carry-forward, grouping by location,
    bucketing by rounded value, averaging and re-rendering), and the
    orchestration of [process_document] and [process_all_documents].

    Python values are modelled as follows.
    - [str] is a list of Unicode code points ([pystr]).
    - [float] is IEEE 754 binary64, through the Standard Library's
      [SpecFloat] with [prec = 53] and [emax = 1024].
    - [dict] is an association list in insertion order.
    - exceptions are the left injection of the [result] type.
    - [re] patterns are given as syntax trees and run by a backtracking
      matcher with the priorities of Python's [re] module. *)

From Stdlib Require Import List Bool Arith ZArith NArith Lia.
From Stdlib Require Import Ascii String.
From Stdlib Require Import SpecFloat.
From Stdlib Require DecimalN DecimalPos.
Import ListNotations.
Open Scope list_scope.

(* ================================================================= *)
(** ** Strings *)

Module PyStr.

(** A Python [str]: a sequence of code points. *)
Definition pychar := N.
Definition pystr := list pychar.

(** Decoding of a UTF-8 byte sequence, used only to write literals. *)
Fixpoint utf8_decode (bs : list N) : pystr :=
  match bs with
  | [] => []
  | b :: r =>
      if (b <? 128)%N then b :: utf8_decode r
      else if (b <? 224)%N then
        match r with
        | b1 :: r' => ((b - 192) * 64 + (b1 - 128))%N :: utf8_decode r'
        | _ => []
        end
      else if (b <? 240)%N then
        match r with
        | b1 :: b2 :: r' =>
            ((b - 224) * 4096 + (b1 - 128) * 64 + (b2 - 128))%N
              :: utf8_decode r'
        | _ => []
        end
      else
        match r with
        | b1 :: b2 :: b3 :: r' =>
            ((b - 240) * 262144 + (b1 - 128) * 4096
             + (b2 - 128) * 64 + (b3 - 128))%N :: utf8_decode r'
        | _ => []
        end
  end.

(** [u "..."] is the Python literal ["..."]. *)
Definition u (s : string) : pystr :=
  utf8_decode (map N_of_ascii (list_ascii_of_string s)).

(** [uc "c"] is the single character of the literal ["c"]. *)
Definition uc (s : string) : pychar := hd 0%N (u s).

Definition str_eqb (a b : pystr) : bool :=
  if list_eq_dec N.eq_dec a b then true else false.

(** [x in xs] for a list of strings. *)
Definition str_in (x : pystr) (xs : list pystr) : bool :=
  existsb (str_eqb x) xs.

(** [Py_UNICODE_ISSPACE]: the characters removed by [str.strip()] and
    matched by [\s] in a [str] pattern. *)
Definition isspace (c : pychar) : bool :=
  ((9 <=? c) && (c <=? 13) || (28 <=? c) && (c <=? 32)
   || (c =? 133) || (c =? 160) || (c =? 5760)
   || (8192 <=? c) && (c <=? 8202)
   || (c =? 8232) || (c =? 8233) || (c =? 8239) || (c =? 8287)
   || (c =? 12288))%N.

(** The code points of the digit zero of every decimal-digit run of the
    Unicode database (category Nd; Unicode 14.0, the database of
    CPython 3.11).  Each run holds the ten digits in order. *)
Definition decimal_zeros : list N :=
  [ 0x30; 0x660; 0x6f0; 0x7c0; 0x966; 0x9e6; 0xa66; 0xae6; 0xb66; 0xbe6;
    0xc66; 0xce6; 0xd66; 0xde6; 0xe50; 0xed0; 0xf20; 0x1040; 0x1090;
    0x17e0; 0x1810; 0x1946; 0x19d0; 0x1a80; 0x1a90; 0x1b50; 0x1bb0;
    0x1c40; 0x1c50; 0xa620; 0xa8d0; 0xa900; 0xa9d0; 0xa9f0; 0xaa50;
    0xabf0; 0xff10; 0x104a0; 0x10d30; 0x11066; 0x110f0; 0x11136;
    0x111d0; 0x112f0; 0x11450; 0x114d0; 0x11650; 0x116c0; 0x11730;
    0x118e0; 0x11950; 0x11c50; 0x11d50; 0x11da0; 0x16a60; 0x16ac0;
    0x16b50; 0x1d7ce; 0x1d7d8; 0x1d7e2; 0x1d7ec; 0x1d7f6; 0x1e140;
    0x1e2f0; 0x1e950; 0x1fbf0 ]%N.

(** [Py_UNICODE_TODECIMAL]: the value of a decimal digit, if it is one. *)
Definition todecimal (c : pychar) : option N :=
  match find (fun z => (z <=? c) && (c <? z + 10))%N decimal_zeros with
  | Some z => Some (c - z)%N
  | None => None
  end.

(** [Py_UNICODE_ISDECIMAL]: what [\d] matches in a [str] pattern. *)
Definition isdecimal (c : pychar) : bool :=
  match todecimal c with Some _ => true | None => false end.

Fixpoint lstrip (s : pystr) : pystr :=
  match s with
  | c :: r => if isspace c then lstrip r else s
  | [] => []
  end.

Definition rstrip (s : pystr) : pystr := rev (lstrip (rev s)).

(** [s.strip()] *)
Definition strip (s : pystr) : pystr := rstrip (lstrip s).

(** [s.startswith(p)] *)
Fixpoint startswith (p s : pystr) : bool :=
  match p, s with
  | [], _ => true
  | a :: p', b :: s' => (a =? b)%N && startswith p' s'
  | _ :: _, [] => false
  end.

(** [p in s] for strings: [p] occurs as a substring of [s]. *)
Fixpoint contains (p s : pystr) : bool :=
  startswith p s || match s with [] => false | _ :: s' => contains p s' end.

(** [sep.join(xs)] *)
Fixpoint join (sep : pystr) (xs : list pystr) : pystr :=
  match xs with
  | [] => []
  | [x] => x
  | x :: r => x ++ sep ++ join sep r
  end.

(** [s.split(sep)] for a one-character separator. *)
Fixpoint split_on (sep : pychar) (s : pystr) : list pystr :=
  match s with
  | [] => [[]]
  | c :: r =>
      if (c =? sep)%N then [] :: split_on sep r
      else match split_on sep r with
           | w :: ws => (c :: w) :: ws
           | [] => [[c]]
           end
  end.

Fixpoint repeat_chr (c : pychar) (n : nat) : pystr :=
  match n with O => [] | S n' => c :: repeat_chr c n' end.

(** [s.zfill(w)] for a string without a sign. *)
Definition zfill (w : nat) (s : pystr) : pystr :=
  repeat_chr 48%N (w - List.length s) ++ s.

End PyStr.
Import PyStr.

(* ================================================================= *)
(** ** Regular expressions of the [re] module *)

Module Re.

(** An item of a character set [[...]]; [\d] and [\s] are sets of one
    item. *)
Inductive cls :=
| CChr (c : pychar)
| CRange (lo hi : pychar)
| CDigit
| CSpace.

Inductive regex :=
| Eps                                    (* the empty pattern *)
| Chr (c : pychar)                       (* a literal character *)
| Dot                                    (* [.] *)
| CSet (neg : bool) (items : list cls)   (* [[...]] and [[^...]] *)
| Cat (r1 r2 : regex)
| Alt (r1 r2 : regex)                    (* [r1|r2] *)
| Rep (r : regex) (lo : nat) (hi : option nat) (greedy : bool)
| Group (n : nat) (r : regex)            (* the n-th capturing group *)
| Eol.                                   (* [$] *)

Definition cls_has (c : pychar) (i : cls) : bool :=
  match i with
  | CChr d => (c =? d)%N
  | CRange lo hi => ((lo <=? c) && (c <=? hi))%N
  | CDigit => isdecimal c
  | CSpace => isspace c
  end.

Definition cset_has (neg : bool) (items : list cls) (c : pychar) : bool :=
  xorb neg (existsb (cls_has c) items).

(** The groups captured so far, most recent first. *)
Definition caps := list (nat * pystr).

Fixpoint group (n : nat) (c : caps) : option pystr :=
  match c with
  | [] => None
  | (m, s) :: c' => if Nat.eqb n m then Some s else group n c'
  end.

Section Matcher.
(** [re.DOTALL] *)
Variable dotall : bool.
Variable R : Type.

(** A continuation: what remains to be matched after a sub-pattern. *)
Definition cont := pystr -> caps -> option R.

Definition or_else (a b : option R) : option R :=
  match a with Some x => Some x | None => b end.

(** The iterations of a repeat whose body is matched by [body].  A
    greedy repeat tries one more iteration first, a lazy one tries to
    stop first; an iteration must consume input. *)
Fixpoint rep_loop (body : pystr -> caps -> cont -> option R)
         (lo : nat) (hi : option nat) (greedy : bool) (k : cont)
         (fuel cnt : nat) (s : pystr) (c : caps) {struct fuel} : option R :=
  match fuel with
  | O => None
  | S fuel' =>
      let more :=
        if match hi with Some h => Nat.ltb cnt h | None => true end
        then body s c (fun s1 c1 =>
               if Nat.ltb (List.length s1) (List.length s)
               then rep_loop body lo hi greedy k fuel' (S cnt) s1 c1
               else None)
        else None in
      let stop := if Nat.leb lo cnt then k s c else None in
      if greedy then or_else more stop else or_else stop more
  end.

(** [rmatch r s c k]: match [r] at the head of [s], then hand the rest
    of the input and the captures to [k]; alternatives are tried in
    the order of the backtracking matcher of [re]. *)
Fixpoint rmatch (r : regex) (s : pystr) (c : caps) (k : cont)
         {struct r} : option R :=
  match r with
  | Eps => k s c
  | Chr d =>
      match s with
      | a :: s' => if (a =? d)%N then k s' c else None
      | [] => None
      end
  | Dot =>
      match s with
      | a :: s' => if dotall || negb (a =? 10)%N then k s' c else None
      | [] => None
      end
  | CSet neg items =>
      match s with
      | a :: s' => if cset_has neg items a then k s' c else None
      | [] => None
      end
  | Cat r1 r2 => rmatch r1 s c (fun s1 c1 => rmatch r2 s1 c1 k)
  | Alt r1 r2 => or_else (rmatch r1 s c k) (rmatch r2 s c k)
  | Rep r1 lo hi greedy =>
      rep_loop (rmatch r1) lo hi greedy k (S (List.length s)) O s c
  | Group n r1 =>
      rmatch r1 s c (fun s1 c1 =>
        k s1 ((n, firstn (List.length s - List.length s1) s) :: c1))
  | Eol =>
      match s with
      | [] => k s c
      | [a] => if (a =? 10)%N then k s c else None
      | _ => None
      end
  end.
End Matcher.
Arguments or_else {R} a b.
Arguments rep_loop {R} body lo hi greedy k fuel cnt s c.
Arguments rmatch dotall {R} r s c k.

(** A match object: where the match starts, the matched text (group 0)
    and the captured groups. *)
Record rmatch_obj := { m_start : nat; m_text : pystr; m_caps : caps }.

(** [m.group(n)] for a group that took part in the match. *)
Definition mgroup (n : nat) (m : rmatch_obj) : pystr :=
  match group n (m_caps m) with Some s => s | None => [] end.

(** [re.match(r, s)]: a match at the start of [s]. *)
Definition re_match_at (dotall : bool) (r : regex) (pos : nat) (s : pystr)
  : option rmatch_obj :=
  rmatch dotall r s []
    (fun s1 c1 => Some {| m_start := pos;
                          m_text := firstn (List.length s - List.length s1) s;
                          m_caps := c1 |}).

Definition re_match (r : regex) (s : pystr) : option rmatch_obj :=
  re_match_at false r O s.

(** [re.search(r, s)]: the match at the leftmost position that has one. *)
Fixpoint re_search_from (dotall : bool) (r : regex) (pos : nat) (s : pystr)
  : option rmatch_obj :=
  match re_match_at dotall r pos s with
  | Some m => Some m
  | None =>
      match s with
      | [] => None
      | _ :: s' => re_search_from dotall r (S pos) s'
      end
  end.

Definition re_search (r : regex) (s : pystr) : option rmatch_obj :=
  re_search_from false r O s.

(** [re.findall(r, s)], as match objects: the search is resumed after
    each match (one character further after an empty match; the
    patterns of this program match no empty string). *)
Fixpoint findall_from (fuel : nat) (dotall : bool) (r : regex) (s : pystr)
  : list rmatch_obj :=
  match fuel with
  | O => []
  | S fuel' =>
      match re_search_from dotall r O s with
      | None => []
      | Some m =>
          m :: findall_from fuel' dotall r
                 (skipn (m_start m + Nat.max 1 (List.length (m_text m))) s)
      end
  end.

Definition re_findall (dotall : bool) (r : regex) (s : pystr)
  : list rmatch_obj :=
  findall_from (S (List.length s)) dotall r s.

(** The literal text [s] as a pattern, followed by [r]. *)
Fixpoint lit (s : pystr) (r : regex) : regex :=
  match s with
  | [] => r
  | c :: s' => Cat (Chr c) (lit s' r)
  end.

(** The literal text [s] as a pattern. *)
Definition str (s : string) : regex := lit (u s) Eps.

(** [\d], [\s], and the usual repeats. *)
Definition digit := CSet false [CDigit].
Definition space := CSet false [CSpace].
Definition star r := Rep r 0 None true.
Definition plus r := Rep r 1 None true.
Definition opt r := Rep r 0 (Some 1) true.
Definition times lo hi r := Rep r lo (Some hi) true.
(** [.*?] *)
Definition lazy_any := Rep Dot 0 None false.

End Re.
Import Re.

(* ================================================================= *)
(** ** Exceptions *)

Inductive exn :=
| KeyError (k : pystr)
| IndexError
| ValueError (msg : pystr)
| OverflowError
| OtherError (msg : pystr).

Inductive result (A : Type) :=
| Ok (a : A)
| Raise (e : exn).
Arguments Ok {A} a.
Arguments Raise {A} e.

Definition bind {A B} (m : result A) (f : A -> result B) : result B :=
  match m with
  | Ok a => f a
  | Raise e => Raise e
  end.

Notation "x <- m ;; k" := (bind m (fun x => k))
  (at level 61, m at next level, right associativity).
Notation "' p <- m ;; k" := (bind m (fun x => match x with p => k end))
  (at level 61, p pattern, m at next level, right associativity).

(** A loop [for x in xs: acc = body(acc, x)] whose body may raise. *)
Fixpoint foldM {A St} (body : St -> A -> result St) (xs : list A)
         (acc : St) : result St :=
  match xs with
  | [] => Ok acc
  | x :: r => acc' <- body acc x ;; foldM body r acc'
  end.

(** The same loop over [enumerate(xs)], counting from [i]. *)
Fixpoint foldM_enum {A St} (body : St -> nat -> A -> result St) (i : nat)
         (xs : list A) (acc : St) : result St :=
  match xs with
  | [] => Ok acc
  | x :: r => acc' <- body acc i x ;; foldM_enum body (S i) r acc'
  end.

(* ================================================================= *)
(** ** Numbers: [int], [float], [round], [sum], [format] *)

Module PyNum.

Definition prec : Z := 53.
Definition emax : Z := 1024.

(** A Python [float]: an IEEE 754 binary64 value. *)
Definition float := spec_float.

Definition fzero : float := S754_zero false.
Definition fadd : float -> float -> float := SFadd prec emax.
Definition fdiv : float -> float -> float := SFdiv prec emax.

(** The binary64 value nearest to [n / d] (ties to even). *)
Definition float_of_ratio (n d : positive) : float :=
  let '(mz, ez, lz) := SFdiv_core_binary prec emax (Zpos n) 0 (Zpos d) 0 in
  binary_round_aux prec emax false mz ez lz.

(** [float(n)] for an [int]. *)
Definition float_of_Z (n : Z) : float := binary_normalize prec emax n 0 false.

Fixpoint pow10 (n : nat) : positive :=
  match n with
  | O => 1
  | S n' => 10 * pow10 n'
  end.

(** The digits at the head of [s], as a number, their count, and the rest
    of [s]. *)
Fixpoint read_digits (s : pystr) (acc : N) (cnt : nat) : N * nat * pystr :=
  match s with
  | c :: r =>
      match todecimal c with
      | Some d => read_digits r (acc * 10 + d)%N (S cnt)
      | None => (acc, cnt, s)
      end
  | [] => (acc, cnt, s)
  end.

Definition float_error (s : pystr) : exn :=
  ValueError (u "could not convert string to float: '" ++ s ++ u "'").

(** [float(s)] on the strings that [\d+\.?\d*] captures: decimal digits,
    then possibly a point and more digits.  The conversion is correctly
    rounded.  Other spellings that [float()] accepts (signs, exponents,
    blanks, underscores, [inf], [nan]) are not modelled: the pattern
    cannot capture them, and they are reported as [ValueError] here. *)
Definition float_of_str (s : pystr) : result float :=
  let '(ip, ni, r) := read_digits s 0%N O in
  match ni with
  | O => Raise (float_error s)
  | S _ =>
      let '(m, nf, r') :=
        match r with
        | c :: r1 => if (c =? uc ".")%N then read_digits r1 ip O
                     else (ip, O, r)
        | [] => (ip, O, r)
        end in
      match r' with
      | _ :: _ => Raise (float_error s)
      | [] =>
          match m with
          | N0 => Ok fzero
          | Npos p => Ok (float_of_ratio p (pow10 nf))
          end
      end
  end.

(** The integer nearest to [n / d] for [0 < d], ties to the even one. *)
Definition round_half_even (n d : Z) : Z :=
  let q := (n / d)%Z in
  match (2 * (n mod d) ?= d)%Z with
  | Lt => q
  | Gt => (q + 1)%Z
  | Eq => if Z.even q then q else (q + 1)%Z
  end.

(** The exact value of a finite float as a fraction [n / d], [0 < d]. *)
Definition float_ratio (m : positive) (e : Z) : Z * Z :=
  match e with
  | Zneg k => (Zpos m, Z.pow 2 (Zpos k))
  | _ => (Z.mul (Zpos m) (Z.pow 2 e), 1%Z)
  end.

(** [round(x)] with one argument: an [int], ties to even. *)
Definition py_round (x : float) : result Z :=
  match x with
  | S754_zero _ => Ok 0%Z
  | S754_infinity _ => Raise OverflowError
  | S754_nan => Raise (ValueError (u "cannot convert float NaN to integer"))
  | S754_finite s m e =>
      let '(n, d) := float_ratio m e in
      Ok (cond_Zopp s (round_half_even n d))
  end.

(** [sum(xs)] for a list of floats: additions from the left, starting
    from the [int] 0 (the loop of CPython up to 3.11; from 3.12 on the
    additions are compensated, which gives the same result for lists of
    one or two values). *)
Definition py_sum (xs : list float) : float := fold_left fadd xs fzero.

(** [sum(xs) / len(xs)] *)
Definition py_mean (xs : list float) : float :=
  fdiv (py_sum xs) (float_of_Z (Z.of_nat (List.length xs))).

Fixpoint uint_str (d : Decimal.uint) : pystr :=
  match d with
  | Decimal.Nil => []
  | Decimal.D0 d' => 48%N :: uint_str d'
  | Decimal.D1 d' => 49%N :: uint_str d'
  | Decimal.D2 d' => 50%N :: uint_str d'
  | Decimal.D3 d' => 51%N :: uint_str d'
  | Decimal.D4 d' => 52%N :: uint_str d'
  | Decimal.D5 d' => 53%N :: uint_str d'
  | Decimal.D6 d' => 54%N :: uint_str d'
  | Decimal.D7 d' => 55%N :: uint_str d'
  | Decimal.D8 d' => 56%N :: uint_str d'
  | Decimal.D9 d' => 57%N :: uint_str d'
  end.

(** [str(n)] for an [int]. *)
Definition str_of_Z (n : Z) : pystr :=
  match n with
  | Zneg p => uc "-" :: uint_str (Pos.to_uint p)
  | _ => uint_str (N.to_uint (Z.to_N n))
  end.

Definition sign_str (s : bool) : pystr := if s then u "-" else [].

(** [f"{x:.1f}"]: the decimal with one digit after the point nearest to
    the exact value of [x] (ties to even). *)
Definition format_1f (x : float) : pystr :=
  match x with
  | S754_nan => u "nan"
  | S754_infinity s => sign_str s ++ u "inf"
  | S754_zero s => sign_str s ++ u "0.0"
  | S754_finite s m e =>
      let '(n, d) := float_ratio m e in
      let t := round_half_even (10 * n) d in
      sign_str s ++ str_of_Z (t / 10) ++ u "." ++ str_of_Z (t mod 10)
  end.

End PyNum.
Import PyNum.


(* ================================================================= *)
(** ** The document, as python-docx presents it *)

(** [cell.text] *)
Definition cell := pystr.
(** [row.cells] *)
Definition row := list cell.
(** [table.rows] *)
Definition table := list row.

(** [para.text] for [doc.paragraphs], and [doc.tables]. *)
Record document := { paragraphs : list pystr; tables : list table }.

(** The dictionary [item_data]: each of its three keys may be absent. *)
Record item_data := {
  test_item : option pystr;
  measured_value : option pystr;
  judgment : option pystr
}.

Definition empty_item : item_data :=
  {| test_item := None; measured_value := None; judgment := None |}.

(** [d.get(key, '')] *)
Definition get_or_empty (v : option pystr) : pystr :=
  match v with Some s => s | None => [] end.

(** [d[key]] *)
Definition getitem (key : string) (v : option pystr) : result pystr :=
  match v with Some s => Ok s | None => Raise (KeyError (u key)) end.

(** [xs[i]] for [0 <= i]; the cells of a row are a tuple. *)
Definition index {A} (xs : list A) (i : nat) : result A :=
  match nth_error xs i with Some x => Ok x | None => Raise IndexError end.

(* ================================================================= *)
(** ** [extract_test_date] *)

Module TestDate.

Definition colon := CSet false [CChr (uc "：") ; CChr (uc ":")].

(** [\d{4}年\d{1,2}月\d{1,2}日] *)
Definition ymd_text : regex :=
  Cat (times 4 4 digit) (Cat (Chr (uc "年"))
  (Cat (times 1 2 digit) (Cat (Chr (uc "月"))
  (Cat (times 1 2 digit) (Chr (uc "日")))))).

(** [\d{4}-\d{1,2}-\d{1,2}] *)
Definition ymd_dash : regex :=
  Cat (times 4 4 digit) (Cat (Chr (uc "-"))
  (Cat (times 1 2 digit) (Cat (Chr (uc "-")) (times 1 2 digit)))).

(** [label[：:]\s*(date)] *)
Definition labelled (label : string) (date : regex) : regex :=
  lit (u label) (Cat colon (Cat (star space) (Group 1 date))).

Definition patterns : list regex :=
  [ labelled "检测日期" ymd_text;
    labelled "检测日期" ymd_dash;
    labelled "日期" ymd_text;
    labelled "Date" ymd_dash;
    Group 1 ymd_text;
    Group 1 ymd_dash ].

(** [(\d{4})年(\d{1,2})月(\d{1,2})日] *)
Definition ymd_groups : regex :=
  Cat (Group 1 (times 4 4 digit)) (Cat (Chr (uc "年"))
  (Cat (Group 2 (times 1 2 digit)) (Cat (Chr (uc "月"))
  (Cat (Group 3 (times 1 2 digit)) (Chr (uc "日")))))).

(** The body of the loop for one pattern: [Some] is a [return]. *)
Definition try_pattern (doc_text : pystr) (pattern : regex) : option pystr :=
  match re_search pattern doc_text with
  | Some m =>
      let date_str := mgroup 1 m in
      if contains (u "年") date_str then
        match re_match ymd_groups date_str with
        | Some dm =>
            Some (mgroup 1 dm ++ u "-" ++ zfill 2 (mgroup 2 dm)
                    ++ u "-" ++ zfill 2 (mgroup 3 dm))
        | None => None
        end
      else
        match split_on (uc "-") date_str with
        | [p0; p1; p2] => Some (p0 ++ u "-" ++ zfill 2 p1 ++ u "-" ++ zfill 2 p2)
        | _ => None
        end
  | None => None
  end.

Fixpoint first_some {A B} (f : A -> option B) (xs : list A) : option B :=
  match xs with
  | [] => None
  | x :: r => match f x with Some y => Some y | None => first_some f r end
  end.

Definition extract_test_date (doc_text : pystr) : pystr :=
  match first_some (try_pattern doc_text) patterns with
  | Some d => d
  | None => u "未知"
  end.

End TestDate.
Import TestDate.

(* ================================================================= *)
(** ** [extract_table_data]: the header detector *)

(** The dictionary [header_mapping]: role to column index. *)
Record header_mapping := {
  hm_test_item : option nat;
  hm_measured_value : option nat;
  hm_judgment : option nat
}.

Definition empty_mapping : header_mapping :=
  {| hm_test_item := None; hm_measured_value := None; hm_judgment := None |}.

Definition item_keywords : list pystr :=
  map u ["检测项目"; "项目"; "检测内容"; "检测部位"; "部位"]%string.
Definition value_keywords : list pystr :=
  map u ["实测值"; "实测结果"; "数值"; "结果"; "强度"; "芯样抗压强度"; "代表值"]%string.
Definition judgment_keywords : list pystr :=
  map u ["单项判定"; "单项结论"; "判定"; "结论"; "结论"]%string.

(** [any(keyword in cell_text for keyword in keywords)] *)
Definition any_keyword_in (keywords : list pystr) (cell_text : pystr) : bool :=
  existsb (fun keyword => contains keyword cell_text) keywords.

(** The state of the header analysis: [header_mapping] and
    [has_test_data]. *)
Definition header_state := (header_mapping * bool)%type.

(** The body of the loop over the cells of a header row. *)
Definition header_cell (st : header_state) (i : nat) (c : cell)
  : header_state :=
  let '(hm, has_test_data) := st in
  let cell_text := strip c in
  if any_keyword_in item_keywords cell_text then
    ({| hm_test_item := Some i;
        hm_measured_value := hm_measured_value hm;
        hm_judgment := hm_judgment hm |}, true)
  else if any_keyword_in value_keywords cell_text then
    ({| hm_test_item := hm_test_item hm;
        hm_measured_value := Some i;
        hm_judgment := hm_judgment hm |}, true)
  else if any_keyword_in judgment_keywords cell_text then
    ({| hm_test_item := hm_test_item hm;
        hm_measured_value := hm_measured_value hm;
        hm_judgment := Some i |}, true)
  else st.

(** [for i, x in enumerate(xs)] for a body that does not raise. *)
Fixpoint fold_enum {A St} (body : St -> nat -> A -> St) (i : nat)
         (xs : list A) (acc : St) : St :=
  match xs with
  | [] => acc
  | x :: r => fold_enum body (S i) r (body acc i x)
  end.

Definition header_row (st : header_state) (r : row) : header_state :=
  fold_enum header_cell 0 r st.

(** The list [header_rows]: the first [min(3, len(table.rows))] rows of a
    table of more than one row, and no row otherwise. *)
Definition header_rows (t : table) : list row :=
  if Nat.ltb 1 (List.length t)
  then firstn (Nat.min 3 (List.length t)) t
  else [].

(** The analysis of the candidate header rows. *)
Definition detect_header (t : table) : header_state :=
  fold_left header_row (header_rows t) (empty_mapping, false).

Definition opt_count {A} (o : option A) : nat :=
  match o with Some _ => 1 | None => 0 end.

(** [len(header_mapping)] *)
Definition mapping_len (hm : header_mapping) : nat :=
  opt_count (hm_test_item hm) + opt_count (hm_measured_value hm)
  + opt_count (hm_judgment hm).

Definition opt_val (o : option nat) : nat :=
  match o with Some n => n | None => 0 end.

(** [max(header_mapping.values())], for a mapping that is not empty. *)
Definition mapping_max (hm : header_mapping) : nat :=
  Nat.max (opt_val (hm_test_item hm))
          (Nat.max (opt_val (hm_measured_value hm)) (opt_val (hm_judgment hm))).

(* ================================================================= *)
(** ** [extract_table_data]: the row extractor *)

(** [location_groups]: location to the records of that location, in
    the order in which the locations were first met. *)
Definition groups := list (pystr * list item_data).

(** [if k not in d: d[k] = []] followed by [d[k].append(x)]. *)
Fixpoint group_append (k : pystr) (x : item_data) (d : groups) : groups :=
  match d with
  | [] => [(k, [x])]
  | (k', xs) :: d' =>
      if str_eqb k k' then (k', xs ++ [x]) :: d'
      else (k', xs) :: group_append k x d'
  end.

Definition placeholder : pystr := u "以下空白".
Definition placeholder_prefix : pystr := u "以下".

(** Python truth of a string. *)
Definition truthy (s : pystr) : bool :=
  match s with [] => false | _ :: _ => true end.

(** The filter of invalid rows. *)
Definition valid_fields (ti mv jd : pystr) : bool :=
  truthy ti
  && negb (str_in ti [placeholder; u ""; u " "])
  && negb (startswith placeholder_prefix ti)
  && truthy mv
  && negb (str_in mv [u ""; u " "])
  && truthy jd
  && negb (str_in jd [u ""; u " "]).

Definition item_valid (it : item_data) : bool :=
  valid_fields (get_or_empty (test_item it))
               (get_or_empty (measured_value it))
               (get_or_empty (judgment it)).

(** [table_data[-1]['judgment'] if table_data else ""] *)
Definition last_judgment (table_data : list item_data) : result pystr :=
  match rev table_data with
  | [] => Ok []
  | it :: _ => getitem "judgment" (judgment it)
  end.

(** The three fields of one data row; the second component is the new
    value of [current_location]. *)
Definition build_item (hm : header_mapping) (table_data : list item_data)
           (current_location : pystr) (row_idx : nat) (r : row)
  : result (item_data * pystr) :=
  '(ti, current_location') <-
     match hm_test_item hm with
     | Some i =>
         c <- index r i ;;
         let test_item_text := strip c in
         if negb (truthy test_item_text) && Nat.ltb 0 row_idx
         then Ok (Some current_location, current_location)
         else Ok (Some test_item_text, test_item_text)
     | None => Ok (None, current_location)
     end ;;
  mv <-
     match hm_measured_value hm with
     | Some i => c <- index r i ;; Ok (Some (strip c))
     | None => Ok None
     end ;;
  jd <-
     match hm_judgment hm with
     | Some i =>
         c <- index r i ;;
         let judgment_text := strip c in
         if negb (truthy judgment_text) && Nat.ltb 0 row_idx
         then j <- last_judgment table_data ;; Ok (Some j)
         else Ok (Some judgment_text)
     | None => Ok None
     end ;;
  Ok ({| test_item := ti; measured_value := mv; judgment := jd |},
      current_location').

(** The state of the loop over the data rows: [current_location] and
    [location_groups]. *)
Definition row_state := (pystr * groups)%type.

(** The body of the loop over the data rows. *)
Definition row_step (hm : header_mapping) (table_data : list item_data)
           (st : row_state) (row_idx : nat) (r : row) : result row_state :=
  let '(current_location, location_groups) := st in
  if Nat.ltb (mapping_max hm) (List.length r) then
    '(it, current_location') <-
       build_item hm table_data current_location row_idx r ;;
    if item_valid it
    then Ok (current_location',
             group_append (get_or_empty (test_item it)) it location_groups)
    else Ok (current_location', location_groups)
  else Ok st.

(** [for row_idx, row in enumerate(table.rows[start_row:])] *)
Definition walk_rows (hm : header_mapping) (table_data : list item_data)
           (t : table) : result row_state :=
  foldM_enum (row_step hm table_data) 0
             (skipn (List.length (header_rows t)) t) ([], []).

(* ================================================================= *)
(** ** [extract_table_data]: grouping by location and aggregation *)

(** An entry of [representative_values]. *)
Record bucket := {
  b_location : pystr;
  b_judgment : pystr;
  b_values : list float;
  b_sample_item : item_data
}.

(** [representative_values]: key to bucket, in the order in which the
    keys were first met. *)
Definition buckets := list (pystr * bucket).

Definition bucket_push (x : float) (b : bucket) : bucket :=
  {| b_location := b_location b; b_judgment := b_judgment b;
     b_values := b_values b ++ [x]; b_sample_item := b_sample_item b |}.

(** [if key not in d: d[key] = fresh] followed by
    [d[key]['values'].append(x)]. *)
Fixpoint bucket_add (key : pystr) (fresh : bucket) (x : float) (d : buckets)
  : buckets :=
  match d with
  | [] => [(key, bucket_push x fresh)]
  | (k', b) :: d' =>
      if str_eqb key k' then (k', bucket_push x b) :: d'
      else (k', b) :: bucket_add key fresh x d'
  end.

(** The pattern [\d+\.?\d*] as group 1. *)
Definition number_group : regex :=
  Group 1 (Cat (plus digit) (Cat (opt (Chr (uc "."))) (star digit))).

(** [\d+\.?\d*] *)
Definition number_prefix : regex :=
  Cat (plus digit) (Cat (opt (Chr (uc "."))) (star digit)).

(** [([^\d]+)$] *)
Definition unit_suffix : regex :=
  Cat (Group 1 (plus (CSet true [CDigit]))) Eol.

(** [f"{location}_{rounded_value}"] *)
Definition bucket_key (location : pystr) (rounded_value : Z) : pystr :=
  location ++ u "_" ++ str_of_Z rounded_value.

(** The body of the loop that fills [representative_values]. *)
Definition bucket_step (location : pystr) (rv : buckets) (item : item_data)
  : result buckets :=
  val_text <- getitem "measured_value" (measured_value item) ;;
  jd <- getitem "judgment" (judgment item) ;;
  match re_search number_group val_text with
  | Some val_match =>
      numeric_value <- float_of_str (mgroup 1 val_match) ;;
      rounded_value <- py_round numeric_value ;;
      Ok (bucket_add (bucket_key location rounded_value)
                     {| b_location := location; b_judgment := jd;
                        b_values := []; b_sample_item := item |}
                     numeric_value rv)
  | None => Ok rv
  end.

(** The representative value of a bucket, re-rendered after the format
    of its sample item. *)
Definition render_value (avg_value : float) (original_format : pystr)
  : pystr :=
  match re_match number_prefix original_format with
  | Some _ => format_1f avg_value
  | None =>
      match re_search unit_suffix original_format with
      | Some unit_match =>
          format_1f avg_value ++ u " " ++ strip (mgroup 1 unit_match)
      | None => format_1f avg_value
      end
  end.

(** The body of the loop over [representative_values.items()]. *)
Definition emit_bucket (table_data : list item_data) (kd : pystr * bucket)
  : result (list item_data) :=
  let data := snd kd in
  match b_values data with
  | [] => Ok table_data
  | _ :: _ =>
      let avg_value := py_mean (b_values data) in
      original_format <-
        getitem "measured_value" (measured_value (b_sample_item data)) ;;
      let representative_item :=
        {| test_item := test_item (b_sample_item data);
           measured_value := Some (render_value avg_value original_format);
           judgment := judgment (b_sample_item data) |} in
      Ok (table_data ++ [representative_item])
  end.

(** The body of the loop over [location_groups.items()]. *)
Definition emit_group (table_data : list item_data)
           (g : pystr * list item_data) : result (list item_data) :=
  let '(location, items) := g in
  match items with
  | [] => Ok table_data
  | _ :: _ =>
      representative_values <- foldM (bucket_step location) items [] ;;
      foldM emit_bucket representative_values table_data
  end.

(** The body of the loop over [doc.tables], up to the test for [break]:
    the new value of [table_data]. *)
Definition process_table (table_data : list item_data) (t : table)
  : result (list item_data) :=
  if Nat.ltb 1 (List.length t) then
    let '(hm, has_test_data) := detect_header t in
    if has_test_data && Nat.leb 2 (mapping_len hm) then
      '(_, location_groups) <- walk_rows hm table_data t ;;
      foldM emit_group location_groups table_data
    else Ok table_data
  else Ok table_data.

(** The loop over [doc.tables], left at the first table after which
    [table_data] is not empty. *)
Fixpoint scan_tables (table_data : list item_data) (ts : list table)
  : result (list item_data) :=
  match ts with
  | [] => Ok table_data
  | t :: ts' =>
      table_data' <- process_table table_data t ;;
      match table_data' with
      | _ :: _ => Ok table_data'
      | [] => scan_tables table_data' ts'
      end
  end.

(* ================================================================= *)
(** ** [extract_from_text]: the text fallback *)

Module Fallback.

Definition nl : pychar := 10%N.

(** "([^\n:：]+)[：:]\s*([^\n（\(]+)[（\(]([^\n）\)]+)[）\)]" *)
Definition pattern : regex :=
  Cat (Group 1 (plus (CSet true [CChr nl; CChr (uc ":"); CChr (uc "：")])))
  (Cat (CSet false [CChr (uc "："); CChr (uc ":")])
  (Cat (star space)
  (Cat (Group 2 (plus (CSet true [CChr nl; CChr (uc "（"); CChr (uc "(")])))
  (Cat (CSet false [CChr (uc "（"); CChr (uc "(")])
  (Cat (Group 3 (plus (CSet true [CChr nl; CChr (uc "）"); CChr (uc ")")])))
       (CSet false [CChr (uc "）"); CChr (uc ")")])))))).

(** "(\d+\.\d+)\s*MPa.*?(合格|不合格)", with the groups numbered from [g]. *)
Definition strength_and_verdict (g : nat) : regex :=
  Cat (Group g (Cat (plus digit) (Cat (Chr (uc ".")) (plus digit))))
  (Cat (star space)
  (lit (u "MPa")
  (Cat lazy_any (Group (S g) (Alt (str "合格") (str "不合格")))))).

(** "芯样抗压强度.*?结论.*?(\d+\.\d+)\s*MPa.*?(合格|不合格)" *)
Definition concrete_pattern : regex :=
  lit (u "芯样抗压强度") (Cat lazy_any
  (lit (u "结论") (Cat lazy_any (strength_and_verdict 1)))).

(** "序号.*?检测部位.*?强度等级.*?芯样抗压强度.*?结论.*?(\d+).*?([^\s]+).*?C\d+.*?(\d+\.\d+)\s*MPa.*?(合格|不合格)" *)
Definition table_pattern : regex :=
  lit (u "序号") (Cat lazy_any
  (lit (u "检测部位") (Cat lazy_any
  (lit (u "强度等级") (Cat lazy_any
  (lit (u "芯样抗压强度") (Cat lazy_any
  (lit (u "结论") (Cat lazy_any
  (Cat (Group 1 (plus digit)) (Cat lazy_any
  (Cat (Group 2 (plus (CSet true [CSpace]))) (Cat lazy_any
  (Cat (Chr (uc "C")) (Cat (plus digit) (Cat lazy_any
  (strength_and_verdict 3))))))))))))))))).

Definition mk_item (ti mv jd : pystr) : item_data :=
  {| test_item := Some ti; measured_value := Some mv; judgment := Some jd |}.

Definition generic_items (doc_text : pystr) : list item_data :=
  flat_map (fun m =>
    let ti := strip (mgroup 1 m) in
    let mv := strip (mgroup 2 m) in
    let jd := strip (mgroup 3 m) in
    if valid_fields ti mv jd then [mk_item ti mv jd] else [])
    (re_findall false pattern doc_text).

Definition concrete_items (doc_text : pystr) : list item_data :=
  map (fun m => mk_item (u "混凝土抗压强度") (mgroup 1 m ++ u " MPa") (mgroup 2 m))
      (re_findall true concrete_pattern doc_text).

Definition table_items (doc_text : pystr) : list item_data :=
  map (fun m => mk_item (u "混凝土抗压强度(部位" ++ mgroup 1 m ++ u ")")
                        (mgroup 3 m ++ u " MPa") (mgroup 4 m))
      (re_findall true table_pattern doc_text).

Definition extract_from_text (doc_text : pystr) : list item_data :=
  generic_items doc_text ++ concrete_items doc_text ++ table_items doc_text.

End Fallback.
Import Fallback.

(* ================================================================= *)
(** ** [extract_table_data], [process_document], [process_all_documents] *)

(** What the program does besides returning values: the call of the text
    fallback, and the lines it prints. *)
Inductive event :=
| CallExtractFromText (doc_text : pystr)
| Printed (line : pystr).

(** The text of the document: the paragraphs joined by newlines. *)
Definition document_text (doc : document) : pystr :=
  join [nl] (paragraphs doc).

Definition extract_table_data (doc : document)
  : list event * result (list item_data) :=
  match scan_tables [] (tables doc) with
  | Raise e => ([], Raise e)
  | Ok [] =>
      let doc_text := document_text doc in
      ([CallExtractFromText doc_text], Ok (extract_from_text doc_text))
  | Ok table_data => ([], Ok table_data)
  end.

Module Fields.

Definition first_group (patterns : list regex) (doc_text : pystr) : pystr :=
  match first_some (fun p => re_search p doc_text) patterns with
  | Some m => strip (mgroup 1 m)
  | None => []
  end.

Definition number_chars : regex :=
  plus (CSet false [CRange (uc "A") (uc "Z"); CRange (uc "a") (uc "z");
                    CRange (uc "0") (uc "9"); CChr (uc "-")]).

Definition line_chars : regex := plus (CSet true [CChr nl; CChr 13%N]).

Definition field (label : string) (value : regex) : regex :=
  lit (u label) (Cat colon (Cat (star space) (Group 1 value))).

Definition extract_report_number : pystr -> pystr :=
  first_group [field "报告编号" number_chars; field "受控编号" number_chars;
               field "编号" number_chars].

Definition extract_sample_name : pystr -> pystr :=
  first_group [field "样品名称" line_chars; field "工程名称" line_chars;
               field "项目名称" line_chars].

End Fields.
Import Fields.

(** A row of the result ([报告编号], [样品名称], [检测项目], [实测值],
    [单项判定], [检测日期]). *)
Record detection_record := {
  report_number : pystr;
  sample_name : pystr;
  dr_test_item : pystr;
  dr_measured_value : pystr;
  dr_judgment : pystr;
  test_date : pystr
}.

(** The line printed for a document without data. *)
Definition no_data_warning (file_name : pystr) : event :=
  Printed (u "警告：文件 " ++ file_name ++ u " 中未找到检测数据").

(** [str(e)] *)
Definition exn_str (e : exn) : pystr :=
  match e with
  | KeyError k => u "'" ++ k ++ u "'"
  | IndexError => u "tuple index out of range"
  | ValueError msg => msg
  | OverflowError => u "cannot convert float infinity to integer"
  | OtherError msg => msg
  end.

(** [process_document]: [file_name] is [os.path.basename(file_path)] and
    [loaded] the outcome of [Document(file_path)]; the result [None] is
    the failure value. *)
Definition process_document (file_name : pystr) (loaded : result document)
  : list event * option (list detection_record) :=
  let failed e :=
    ([Printed (u "处理文件 " ++ file_name ++ u " 时出错: " ++ exn_str e)], None) in
  match loaded with
  | Raise e => failed e
  | Ok doc =>
      let doc_text := document_text doc in
      let rn := extract_report_number doc_text in
      let sn := extract_sample_name doc_text in
      let td := extract_test_date doc_text in
      match extract_table_data doc with
      | (evs, Raise e) => (evs ++ fst (failed e), None)
      | (evs, Ok []) =>
          (evs ++ [no_data_warning file_name], None)
      | (evs, Ok table_data) =>
          (evs,
           Some (map (fun item =>
                   {| report_number := rn;
                      sample_name := sn;
                      dr_test_item := get_or_empty (test_item item);
                      dr_measured_value := get_or_empty (measured_value item);
                      dr_judgment := get_or_empty (judgment item);
                      test_date := td |}) table_data))
      end
  end.

(** [s.endswith(p)] *)
Definition endswith (p s : pystr) : bool := startswith (rev p) (rev s).

(** The body of the loop of [process_all_documents]: [results] is
    [self.results]. *)
Definition process_one (acc : list event * list detection_record)
           (file : pystr * result document)
  : list event * list detection_record :=
  let '(evs, results) := acc in
  let '(filename, loaded) := file in
  let '(evs1, r) := process_document filename loaded in
  let evs' := evs ++ [Printed (u "正在处理: " ++ filename)] ++ evs1 in
  match r with
  | Some (x :: xs) =>
      (evs' ++ [Printed (u "  成功提取 "
                       ++ str_of_Z (Z.of_nat (List.length (x :: xs)))
                       ++ u " 条记录")],
       results ++ x :: xs)
  | _ => (evs' ++ [Printed (u "  处理失败或未找到有效数据")], results)
  end.

(** [process_all_documents] for a fresh processor: [folder] is [None]
    when the input folder does not exist, and otherwise its entries in
    the order of [os.listdir], each with the outcome of loading it. *)
Definition process_all_documents
           (input_folder : pystr)
           (folder : option (list (pystr * result document)))
  : list event * list detection_record :=
  match folder with
  | None => ([Printed (u "错误：文件夹 " ++ input_folder ++ u " 不存在")], [])
  | Some entries =>
      let docx_files :=
        filter (fun f => endswith (u ".docx") (fst f)
                         && negb (startswith (u "~$") (fst f))) entries in
      match docx_files with
      | [] => ([Printed (u "错误：文件夹 " ++ input_folder
                       ++ u " 中没有找到.docx文件")], [])
      | _ :: _ =>
          let '(evs, results) :=
            fold_left process_one docx_files
              ([Printed (u "找到 "
                       ++ str_of_Z (Z.of_nat (List.length docx_files))
                       ++ u " 个Word文档，开始处理...")], []) in
          (evs ++ [Printed (u "处理完成，共提取 "
                          ++ str_of_Z (Z.of_nat (List.length results))
                          ++ u " 条记录")], results)
      end
  end.

(* ================================================================= *)
(** ** Sample inputs *)

Module Samples.

Definition row3 (a b c : string) : row := [u a; u b; u c].

(** A header row naming the three roles, and two more rows that the
    header detector also takes as header rows. *)
Definition header3 : list row :=
  [row3 "检测部位" "实测值" "单项判定"; row3 "" "" ""; row3 "" "" ""].

(** Three readings of one location. *)
Definition readings : table :=
  header3 ++ [row3 "柱1" "23.4 MPa" "合格";
              row3 "" "23.6 MPa" "合格";
              row3 "" "24.9 MPa" "合格"].

(** A second table with its own data. *)
Definition other_table : table :=
  header3 ++ [row3 "梁2" "30.1 MPa" "不合格"].

(** A table whose three rows are all taken as header rows. *)
Definition three_rows : table :=
  [row3 "检测部位" "实测值" "单项判定";
   row3 "柱1" "23.4 MPa" "合格";
   row3 "" "23.6 MPa" "合格"].

(** A blank judgment cell under a judgment given in the row above. *)
Definition merged_judgment : table :=
  header3 ++ [row3 "柱1" "23.4 MPa" "合格";
              row3 "梁2" "30.1 MPa" ""].

(** A header cell that holds a keyword without being one. *)
Definition loose_header : table :=
  [[u "检测项目名称"; u "备注"]; [u "a"; u "b"]].

Definition item3 (a b c : string) : item_data :=
  {| test_item := Some (u a); measured_value := Some (u b);
     judgment := Some (u c) |}.

Definition no_data_doc : document :=
  {| paragraphs := [u "报告"]; tables := [three_rows] |}.

End Samples.

(* ================================================================= *)
(** ** Vocabulary of the specification *)

(** A string that is empty or holds only whitespace. *)
Definition blank (s : pystr) : bool := forallb isspace s.

(** The invariant of an emitted record: the three fields are present
    and none is empty or whitespace only; the item is not the
    placeholder and does not start with its prefix. *)
Definition record_ok (it : item_data) : Prop :=
  exists ti mv jd,
    test_item it = Some ti /\ measured_value it = Some mv
    /\ judgment it = Some jd
    /\ blank ti = false /\ blank mv = false /\ blank jd = false
    /\ ti <> placeholder /\ startswith placeholder_prefix ti = false.

(** The item label that a data row supplies: the trimmed text of its
    item cell when that is not empty; rows that do not cover the columns
    of the header mapping supply none. *)
Definition row_label (hm : header_mapping) (i : nat) (r : row)
  : option pystr :=
  if Nat.ltb (mapping_max hm) (List.length r) then
    match nth_error r i with
    | Some c => if truthy (strip c) then Some (strip c) else None
    | None => None
    end
  else None.

Definition row_labels (hm : header_mapping) (i : nat) (rows : list row)
  : list pystr :=
  flat_map (fun r => match row_label hm i r with
                     | Some l => [l]
                     | None => []
                     end) rows.

(** The most recent label supplied by the rows [before], and the empty
    string when there is none. *)
Definition carried_label (hm : header_mapping) (i : nat) (before : list row)
  : pystr :=
  last (row_labels hm i before) [].

(** A field of a built item: absent, or a string that is empty or not
    blank. *)
Definition clean (s : pystr) : Prop := s = [] \/ blank s = false.
Definition clean_field (f : option pystr) : Prop :=
  match f with Some s => clean s | None => True end.

Definition groups_ok (g : groups) : Prop :=
  Forall (fun kv => Forall record_ok (snd kv)) g.

(** The header mapping of a table whose columns are item, value and
    judgment. *)
Definition mapping012 : header_mapping :=
  {| hm_test_item := Some 0; hm_measured_value := Some 1;
     hm_judgment := Some 2 |}.

Definition buckets_ok (rv : buckets) : Prop :=
  Forall (fun kb => record_ok (b_sample_item (snd kb))) rv.

(** The roles of the columns. *)
Inductive role := RItem | RValue | RJudgment.

Definition role_eqb (a b : role) : bool :=
  match a, b with
  | RItem, RItem | RValue, RValue | RJudgment, RJudgment => true
  | _, _ => false
  end.

(** The role that a header cell announces: the first role, in the order
    item, value, judgment, of which the trimmed text of the cell holds a
    keyword. *)
Definition cell_role (c : cell) : option role :=
  let cell_text := strip c in
  if any_keyword_in item_keywords cell_text then Some RItem
  else if any_keyword_in value_keywords cell_text then Some RValue
  else if any_keyword_in judgment_keywords cell_text then Some RJudgment
  else None.

Definition announces (ro : role) (c : cell) : bool :=
  match cell_role c with
  | Some ro' => role_eqb ro' ro
  | None => false
  end.

(** The cells of the candidate header rows with their column indices,
    row after row. *)
Definition indexed (r : row) : list (nat * cell) :=
  combine (seq 0 (List.length r)) r.

Definition candidate_cells (t : table) : list (nat * cell) :=
  flat_map indexed (header_rows t).

(** The columns of the cells that announce a role, in the order of the
    cells. *)
Definition role_columns (ro : role) (cells : list (nat * cell)) : list nat :=
  map fst (filter (fun ic => announces ro (snd ic)) cells).

(** The column of the last cell that announces the role, if any. *)
Definition last_column (ro : role) (cells : list (nat * cell)) : option nat :=
  last (map Some (role_columns ro cells)) None.

(** The step of the header analysis on a cell with its column index. *)
Definition header_step (st : header_state) (ic : nat * cell) : header_state :=
  header_cell st (fst ic) (snd ic).

(** Whether some cell announces a role. *)
Definition any_role (cells : list (nat * cell)) : bool :=
  existsb (fun ic => match cell_role (snd ic) with
                     | Some _ => true
                     | None => false
                     end) cells.

(** The header mapping in the words of the specification: each role goes
    to the column of the last candidate cell that announces it. *)
Definition mapping_spec (t : table) : header_mapping :=
  {| hm_test_item := last_column RItem (candidate_cells t);
     hm_measured_value := last_column RValue (candidate_cells t);
     hm_judgment := last_column RJudgment (candidate_cells t) |}.

(** A value text that begins with a numeric token: its first character
    is a decimal digit. *)
Definition begins_with_digit (s : pystr) : bool :=
  match s with
  | c :: _ => isdecimal c
  | [] => false
  end.

Fixpoint take_while (p : pychar -> bool) (s : pystr) : pystr :=
  match s with
  | c :: r => if p c then c :: take_while p r else []
  | [] => []
  end.

Fixpoint drop_while (p : pychar -> bool) (s : pystr) : pystr :=
  match s with
  | c :: r => if p c then drop_while p r else s
  | [] => []
  end.

Definition nondigit (c : pychar) : bool := negb (isdecimal c).

(** The non-numeric suffix of a value text: the characters after its
    last decimal digit. *)
Definition trailing_nondigits (s : pystr) : pystr :=
  rev (take_while nondigit (rev s)).

(** A float that is a number. *)
Definition is_finite (x : float) : bool :=
  match x with
  | S754_zero _ | S754_finite _ _ _ => true
  | _ => false
  end.

Definition ascii_digit (c : pychar) : bool := ((48 <=? c) && (c <=? 57))%N.

(** A character of the integer part of a rendered number. *)
Definition int_char (c : pychar) : bool := ascii_digit c || (c =? uc "-")%N.

(** The rendering of a representative value in the words of the
    specification. *)
Definition render_spec (avg_value : float) (original_format : pystr)
  : pystr :=
  if begins_with_digit original_format then format_1f avg_value
  else
    match trailing_nondigits original_format with
    | [] => format_1f avg_value
    | suffix => format_1f avg_value ++ u " " ++ strip suffix
    end.

(** The exact value of a float that is a number, as a signed fraction
    with a positive denominator. *)
Definition float_fraction (x : float) : option (Z * Z) :=
  match x with
  | S754_zero _ => Some (0%Z, 1%Z)
  | S754_finite s m e =>
      let '(n, d) := float_ratio m e in Some (cond_Zopp s n, d)
  | _ => None
  end.

(** [k] is an integer nearest to [x]: it is at most one half away. *)
Definition nearest_integer (x : float) (k : Z) : Prop :=
  match float_fraction x with
  | Some (n, d) => (Z.abs (2 * n - 2 * d * k) <= d)%Z
  | None => False
  end.

Definition sample_bucket (a b c : string) (n d : positive) : bucket :=
  {| b_location := u a; b_judgment := u c;
     b_values := [float_of_ratio n d];
     b_sample_item := Samples.item3 a b c |}.

(** A set item that only decimal digits belong to. *)
Definition digit_item (i : cls) : bool :=
  match i with
  | CDigit => true
  | CChr c => isdecimal c
  | _ => false
  end.

(** A pattern that cannot match without reading a decimal digit. *)
Fixpoint needs_digit (r : regex) : bool :=
  match r with
  | Chr c => isdecimal c
  | CSet neg items => negb neg && forallb digit_item items
  | Cat r1 r2 => needs_digit r1 || needs_digit r2
  | Alt r1 r2 => needs_digit r1 && needs_digit r2
  | Rep r1 lo _ _ => Nat.ltb 0 lo && needs_digit r1
  | Group _ r1 => needs_digit r1
  | _ => false
  end.

(** A text without decimal digits. *)
Definition no_digit (s : pystr) : Prop := existsb isdecimal s = false.

(** A continuation that fails on every text without decimal digits. *)
Definition fails_without_digit {R} (k : cont R) : Prop :=
  forall s c, no_digit s -> k s c = None.

(** The parts of a date: a year of four decimal digits, a month and a
    day of one or two. *)
Definition date_parts (y mo d : pystr) : Prop :=
  List.length y = 4 /\ 1 <= List.length mo <= 2 /\ 1 <= List.length d <= 2
  /\ forallb isdecimal y = true /\ forallb isdecimal mo = true
  /\ forallb isdecimal d = true.

(** The two written forms of a date, and the normalised form. *)
Definition written (y mo d : pystr) : pystr :=
  y ++ uc "年" :: mo ++ uc "月" :: d ++ [uc "日"].

Definition dashed (y mo d : pystr) : pystr :=
  y ++ uc "-" :: mo ++ uc "-" :: d.

Definition normal (y mo d : pystr) : pystr :=
  y ++ u "-" ++ zfill 2 mo ++ u "-" ++ zfill 2 d.

(** The text [rest] does not go on with a character of the class [f]. *)
Definition stops (f : pychar -> bool) (rest : pystr) : Prop :=
  match rest with [] => True | a :: _ => f a = false end.

(** Every bucket holds a value. *)
Definition buckets_filled (rv : buckets) : Prop :=
  Forall (fun kb => b_values (snd kb) <> []) rv.

(* ================================================================= *)
(** ** What a pattern denotes *)

(** [iter step n]: [n] steps in a row. *)
Inductive iter (step : pystr -> caps -> pystr -> caps -> Prop)
  : nat -> pystr -> caps -> pystr -> caps -> Prop :=
| iter_O (s : pystr) (c : caps) : iter step 0 s c s c
| iter_S (n : nat) (s : pystr) (c : caps) (s1 : pystr) (c1 : caps)
         (s2 : pystr) (c2 : caps) :
    step s c s1 c1 -> iter step n s1 c1 s2 c2 ->
    iter step (S n) s c s2 c2.

(** [denotes d r s c s' c']: the pattern [r] matches at the head of [s],
    leaves [s'], and turns the captures [c] into [c'] ([d] is
    [re.DOTALL]). *)
Fixpoint denotes (d : bool) (r : regex) (s : pystr) (c : caps)
         (s' : pystr) (c' : caps) : Prop :=
  match r with
  | Eps => s' = s /\ c' = c
  | Chr a => s = a :: s' /\ c' = c
  | Dot =>
      exists a, s = a :: s' /\ d || negb (a =? 10)%N = true /\ c' = c
  | CSet neg items =>
      exists a, s = a :: s' /\ cset_has neg items a = true /\ c' = c
  | Cat r1 r2 =>
      exists s1 c1, denotes d r1 s c s1 c1 /\ denotes d r2 s1 c1 s' c'
  | Alt r1 r2 => denotes d r1 s c s' c' \/ denotes d r2 s c s' c'
  | Rep r1 lo hi _ =>
      exists n, lo <= n
                /\ match hi with Some h => n <= h | None => True end
                /\ iter (denotes d r1) n s c s' c'
  | Group n r1 =>
      exists c1, denotes d r1 s c s' c1
                 /\ c' = (n, firstn (List.length s - List.length s') s) :: c1
  | Eol => s' = s /\ c' = c /\ (s = [] \/ s = [10%N])
  end.

(** The last part of a sequence of patterns. *)
Fixpoint last_part (r : regex) : regex :=
  match r with
  | Cat _ r2 => last_part r2
  | _ => r
  end.

(** The patterns of [extract_report_number] and [extract_sample_name]. *)
Definition report_number_patterns : list regex :=
  [field "报告编号" number_chars; field "受控编号" number_chars;
   field "编号" number_chars].

Definition sample_name_patterns : list regex :=
  [field "样品名称" line_chars; field "工程名称" line_chars;
   field "项目名称" line_chars].

(** A character of a report number: an ASCII letter or digit, or a
    hyphen. *)
Definition report_char (c : pychar) : bool :=
  ((65 <=? c) && (c <=? 90) || (97 <=? c) && (c <=? 122)
   || (48 <=? c) && (c <=? 57) || (c =? 45))%N.

(** A line break. *)
Definition line_break (c : pychar) : bool := ((c =? 10) || (c =? 13))%N.

(** A text that neither begins nor ends with whitespace. *)
Definition trimmed (s : pystr) : Prop :=
  s = [] \/ exists a b mid, (s = [a] /\ a = b \/ s = a :: mid ++ [b])
                            /\ isspace a = false /\ isspace b = false.

(** A normalised date: four digits, two digits and two digits, joined
    by hyphens. *)
Definition date_shape (s : pystr) : Prop :=
  exists y m d,
    s = y ++ u "-" ++ m ++ u "-" ++ d
    /\ List.length y = 4 /\ List.length m = 2 /\ List.length d = 2
    /\ forallb isdecimal y = true /\ forallb isdecimal m = true
    /\ forallb isdecimal d = true.

(** The invariant of a row of the result: the item, the value and the
    judgment are not blank, and the item is not the placeholder. *)
Definition detection_ok (dr : detection_record) : Prop :=
  blank (dr_test_item dr) = false /\ blank (dr_measured_value dr) = false
  /\ blank (dr_judgment dr) = false
  /\ dr_test_item dr <> placeholder
  /\ startswith placeholder_prefix (dr_test_item dr) = false.

(** The two verdicts that the strength patterns read. *)
Definition verdict (s : pystr) : Prop := s = u "合格" \/ s = u "不合格".

(** The row of the result made from an item of a document. *)
Definition stamp (doc : document) (item : item_data) : detection_record :=
  {| report_number := extract_report_number (document_text doc);
     sample_name := extract_sample_name (document_text doc);
     dr_test_item := get_or_empty (test_item item);
     dr_measured_value := get_or_empty (measured_value item);
     dr_judgment := get_or_empty (judgment item);
     test_date := extract_test_date (document_text doc) |}.

(** The file names that [process_all_documents] takes: Word documents
    that are not lock files. *)
Definition accepted_name (f : pystr) : bool :=
  endswith (u ".docx") f && negb (startswith (u "~$") f).

(** The records that a file adds to the results: those of its document,
    and none when it cannot be read or holds no data. *)
Definition document_records (file : pystr * result document)
  : list detection_record :=
  match snd (process_document (fst file) (snd file)) with
  | Some recs => recs
  | None => []
  end.

(** Every record of every group satisfies [Q] with the key of its group. *)
Definition groups_all (Q : pystr -> item_data -> Prop) (g : groups) : Prop :=
  Forall (fun kv => Forall (Q (fst kv)) (snd kv)) g.

(** The keys of the groups are distinct and no group is empty. *)
Definition groups_keyed (g : groups) : Prop :=
  NoDup (map fst g) /\ Forall (fun kv => snd kv <> []) g.

(** The data rows of a table: the rows after the header rows. *)
Definition data_rows (t : table) : list row :=
  skipn (List.length (header_rows t)) t.

(** A record whose value holds no decimal digit. *)
Definition value_without_digit (it : item_data) : Prop :=
  forall v, measured_value it = Some v -> no_digit v.

(** The buckets of a location: their keys are distinct, and each holds
    at least one value and only values that round to the integer of its
    key. *)
Definition buckets_rounded (location : pystr) (rv : buckets) : Prop :=
  NoDup (map fst rv)
  /\ Forall (fun kb =>
       exists k, fst kb = bucket_key location k
                 /\ b_values (snd kb) <> []
                 /\ Forall (fun x => py_round x = Ok k) (b_values (snd kb)))
            rv.

(** The number of records in the groups. *)
Definition total (g : groups) : nat :=
  list_sum (map (fun kv => List.length (snd kv)) g).

(** A value of more digits than a float can hold. *)
Definition huge_value : pystr := repeat_chr (uc "9") 400 ++ u " MPa".

Definition huge_table : table :=
  Samples.header3 ++ [[u "柱1"; huge_value; u "合格"]].

Definition huge_item : item_data :=
  {| test_item := Some (u "柱1");
     measured_value := Some huge_value;
     judgment := Some (u "合格") |}.

(** The exact value of a float that is a number, as a fraction [n / d]
    with [0 < d]. *)
Definition float_exact (x : float) : option (Z * Z) :=
  match x with
  | S754_zero _ => Some (0, 1)%Z
  | S754_finite s m e =>
      let '(n, d) := float_ratio m e in Some (cond_Zopp s n, d)
  | _ => None
  end.

(** The sum of numbers, without rounding. *)
Fixpoint exact_sum (xs : list float) : option (Z * Z) :=
  match xs with
  | [] => Some (0, 1)%Z
  | x :: r =>
      match float_exact x, exact_sum r with
      | Some (n1, d1), Some (n2, d2) =>
          Some (n1 * d2 + n2 * d1, d1 * d2)%Z
      | _, _ => None
      end
  end.

(** The arithmetic mean of numbers, without rounding. *)
Definition arithmetic_mean (xs : list float) : option (Z * Z) :=
  match exact_sum xs with
  | Some (n, d) => Some (n, d * Z.of_nat (List.length xs))%Z
  | None => None
  end.

(** The decimal with one digit after the point nearest to [n / d], for
    [0 <= n] and [0 < d]. *)
Definition one_decimal (n d : Z) : pystr :=
  let t := round_half_even (10 * n) d in
  str_of_Z (t / 10) ++ u "." ++ str_of_Z (t mod 10).

(** The arithmetic mean rendered with one decimal place, in the words of
    the specification. *)
Definition mean_one_decimal (xs : list float) : option pystr :=
  match arithmetic_mean xs with
  | Some (n, d) => Some (one_decimal n d)
  | None => None
  end.

(** The mean as the code computes it: the binary64 sum from the left,
    divided in binary64 by the count. *)
Definition float_mean (xs : list float) : float :=
  SFdiv prec emax (fold_left (SFadd prec emax) xs (S754_zero false))
        (binary_normalize prec emax (Z.of_nat (List.length xs)) 0 false).

(** Two close readings of one location, and two large ones. *)
Definition close_readings : table :=
  Samples.header3 ++ [Samples.row3 "柱1" "1.1" "合格";
                      Samples.row3 "" "1.2" "合格"].

Definition large_value : pystr := uc "1" :: repeat_chr (uc "0") 308.

Definition large_readings : table :=
  Samples.header3 ++ [[u "柱1"; large_value; u "合格"];
                      [u ""; large_value; u "合格"]].

(* ================================================================= *)
(** * Properties *)

Lemma str_eqb_eq (a b : pystr) : str_eqb a b = true <-> a = b.
Proof.
  unfold str_eqb. destruct (list_eq_dec N.eq_dec a b); split; congruence.
Qed.

Lemma str_eqb_refl (a : pystr) : str_eqb a a = true.
Proof. now apply str_eqb_eq. Qed.

(** ** Tables of at most three rows *)

Lemma header_rows_short (t : table) :
  List.length t < 2 -> header_rows t = [].
Proof.
  intros H. unfold header_rows.
  destruct (Nat.ltb_spec 1 (List.length t)); [lia | reflexivity].
Qed.

Lemma header_rows_all (t : table) :
  2 <= List.length t <= 3 -> header_rows t = t.
Proof.
  intros H. unfold header_rows.
  destruct (Nat.ltb_spec 1 (List.length t)); [| lia].
  replace (Nat.min 3 (List.length t)) with (List.length t) by lia.
  apply firstn_all.
Qed.

Lemma header_rows_length (t : table) :
  List.length (header_rows t) <= 3.
Proof.
  unfold header_rows. destruct (Nat.ltb 1 (List.length t)).
  - rewrite length_firstn. lia.
  - simpl. lia.
Qed.

Lemma process_table_short (td : list item_data) (t : table) :
  List.length t <= 3 -> process_table td t = Ok td.
Proof.
  intros H. unfold process_table.
  destruct (Nat.ltb_spec 1 (List.length t)) as [H1 | H1]; [| reflexivity].
  destruct (detect_header t) as [hm has].
  destruct (has && Nat.leb 2 (mapping_len hm)); [| reflexivity].
  unfold walk_rows. rewrite header_rows_all by lia.
  rewrite skipn_all. reflexivity.
Qed.

Lemma scan_tables_all_empty (ts : list table) :
  Forall (fun t => process_table [] t = Ok []) ts ->
  scan_tables [] ts = Ok [].
Proof.
  induction 1 as [| t ts Ht _ IH]; simpl; [reflexivity |].
  rewrite Ht. simpl. exact IH.
Qed.

Lemma extract_table_data_fallback (doc : document) :
  scan_tables [] (tables doc) = Ok [] ->
  extract_table_data doc =
    ([CallExtractFromText (document_text doc)],
     Ok (extract_from_text (document_text doc))).
Proof. intros H. unfold extract_table_data. rewrite H. reflexivity. Qed.

(** ** The scan over the tables stops at the first table with records *)

Lemma scan_tables_first (pre : list table) (t : table) (post : list table)
      (recs : list item_data) :
  Forall (fun t' => process_table [] t' = Ok []) pre ->
  process_table [] t = Ok recs ->
  recs <> [] ->
  scan_tables [] (pre ++ t :: post) = Ok recs.
Proof.
  intros Hpre Ht Hne. induction Hpre as [| t' pre Ht' _ IH]; simpl.
  - rewrite Ht. simpl. destruct recs; [congruence | reflexivity].
  - rewrite Ht'. simpl. exact IH.
Qed.

(** C10. A table of at most three rows yields no record: with fewer than
    two rows no header row is examined, and otherwise every row is a
    candidate header row and no data row remains.  A document whose only
    table is such a table falls back to the text extractor. *)
Theorem short_table_emits_nothing (t : table) (ps : list pystr) :
  List.length t <= 3 ->
  (forall td, process_table td t = Ok td)
  /\ (List.length t < 2 -> header_rows t = [])
  /\ (2 <= List.length t ->
      header_rows t = t /\ skipn (List.length (header_rows t)) t = [])
  /\ extract_table_data {| paragraphs := ps; tables := [t] |} =
       ([CallExtractFromText (join [nl] ps)],
        Ok (extract_from_text (join [nl] ps))).
Proof.
  intros H. repeat split.
  - intros td. now apply process_table_short.
  - apply header_rows_short.
  - apply header_rows_all. lia.
  - rewrite header_rows_all by lia. apply skipn_all.
  - apply extract_table_data_fallback. simpl.
    rewrite process_table_short by exact H. reflexivity.
Qed.

Lemma short_table_emits_nothing_witness :
  process_table [] Samples.three_rows = Ok []
  /\ header_rows Samples.three_rows = Samples.three_rows.
Proof.
  assert (H : List.length Samples.three_rows <= 3) by (simpl; lia).
  destruct (short_table_emits_nothing Samples.three_rows [] H)
    as (H1 & _ & H3 & _).
  split; [apply H1 | apply H3; simpl; lia].
Defined.

(** C6. When the first table that yields records is [t], the result of
    the extraction is exactly the records of [t]: nothing of the tables
    after [t] is in it, and the text fallback is not called. *)
Theorem table_scan_short_circuit
        (pre : list table) (t : table) (post : list table)
        (recs : list item_data) (ps : list pystr) :
  Forall (fun t' => process_table [] t' = Ok []) pre ->
  process_table [] t = Ok recs ->
  recs <> [] ->
  scan_tables [] (pre ++ t :: post) = Ok recs
  /\ extract_table_data {| paragraphs := ps; tables := pre ++ t :: post |}
     = ([], Ok recs).
Proof.
  intros Hpre Ht Hne.
  assert (Hs : scan_tables [] (pre ++ t :: post) = Ok recs)
    by now apply scan_tables_first.
  split; [exact Hs |].
  unfold extract_table_data. simpl. rewrite Hs.
  destruct recs; [congruence | reflexivity].
Qed.

Lemma table_scan_short_circuit_witness :
  scan_tables [] ([Samples.three_rows] ++ Samples.other_table
                    :: [Samples.readings])
  = Ok [Samples.item3 "梁2" "30.1" "不合格"].
Proof.
  apply (table_scan_short_circuit [Samples.three_rows] Samples.other_table
           [Samples.readings] [Samples.item3 "梁2" "30.1" "不合格"] []).
  - repeat constructor.
  - vm_compute. reflexivity.
  - discriminate.
Defined.

(** C7. The text fallback is called, on the text of the whole document,
    exactly when the scan of the tables ends with no record.  When the
    result of tables and fallback together is empty, [process_document]
    returns [None] after printing one warning, and the document adds
    nothing to the results of the run.  [process_document] never returns
    an empty list. *)
Theorem fallback_and_no_data (doc : document) (file_name : pystr) :
  (In (CallExtractFromText (document_text doc)) (fst (extract_table_data doc))
   <-> scan_tables [] (tables doc) = Ok [])
  /\ (forall text,
        In (CallExtractFromText text) (fst (extract_table_data doc)) ->
        text = document_text doc)
  /\ (snd (extract_table_data doc) = Ok [] ->
      process_document file_name (Ok doc)
      = ([CallExtractFromText (document_text doc);
          no_data_warning file_name], None)
      /\ forall evs results,
           snd (process_one (evs, results) (file_name, Ok doc)) = results)
  /\ (forall loaded, snd (process_document file_name loaded) <> Some []).
Proof.
  repeat split.
  - unfold extract_table_data.
    destruct (scan_tables [] (tables doc)) as [[| x xs] | e]; simpl;
      intros H; try contradiction; reflexivity.
  - intros H. rewrite (extract_table_data_fallback doc H). simpl. now left.
  - intros text. unfold extract_table_data.
    destruct (scan_tables [] (tables doc)) as [[| x xs] | e]; simpl;
      intros H; try contradiction.
    destruct H as [H | []]. congruence.
  - unfold process_document, extract_table_data in *.
    destruct (scan_tables [] (tables doc)) as [[| x xs] | e]; simpl in *;
      try discriminate.
    injection H as H. rewrite H. reflexivity.
  - intros evs results. unfold process_one, process_document.
    destruct (extract_table_data doc) as [evs1 [[| x xs] | e]];
      simpl in *; try discriminate; reflexivity.
  - intros loaded. unfold process_document.
    destruct loaded as [d | e]; simpl; [| discriminate].
    destruct (extract_table_data d) as [evs1 [[| x xs] | e]];
      simpl; discriminate.
Qed.

Lemma fallback_and_no_data_witness :
  process_document (u "a.docx") (Ok Samples.no_data_doc)
  = ([CallExtractFromText (u "报告"); no_data_warning (u "a.docx")], None).
Proof.
  destruct (fallback_and_no_data Samples.no_data_doc (u "a.docx"))
    as (_ & _ & H & _).
  apply H. vm_compute. reflexivity.
Defined.

(** ** Loops *)

Lemma foldM_inv {A St} (P : St -> Prop) (body : St -> A -> result St)
      (xs : list A) :
  (forall s x s', In x xs -> P s -> body s x = Ok s' -> P s') ->
  forall acc r, P acc -> foldM body xs acc = Ok r -> P r.
Proof.
  induction xs as [| x xs IH]; intros Hstep acc r Hacc; simpl.
  - intros H. injection H as <-. exact Hacc.
  - destruct (body acc x) as [acc' | e] eqn:E; simpl; [| discriminate].
    apply IH.
    + intros s y s' Hy. apply Hstep. now right.
    + apply (Hstep acc x acc'); auto. now left.
Qed.

Lemma foldM_enum_inv {A St} (P : St -> Prop)
      (body : St -> nat -> A -> result St) (xs : list A) :
  (forall s i x s', In x xs -> P s -> body s i x = Ok s' -> P s') ->
  forall i acc r, P acc -> foldM_enum body i xs acc = Ok r -> P r.
Proof.
  induction xs as [| x xs IH]; intros Hstep i acc r Hacc; simpl.
  - intros H. injection H as <-. exact Hacc.
  - destruct (body acc i x) as [acc' | e] eqn:E; simpl; [| discriminate].
    apply IH.
    + intros s j y s' Hy. apply Hstep. now right.
    + apply (Hstep acc i x acc'); auto. now left.
Qed.

(** ** Trimming *)

Lemma lstrip_head (s : pystr) :
  lstrip s = [] \/ exists a r, lstrip s = a :: r /\ isspace a = false.
Proof.
  induction s as [| a s IH]; simpl; [now left |].
  destruct (isspace a) eqn:E; [exact IH |].
  right. now exists a, s.
Qed.

Lemma strip_clean (s : pystr) : strip s = [] \/ blank (strip s) = false.
Proof.
  unfold strip, rstrip.
  destruct (lstrip_head (rev (lstrip s))) as [H | (a & r & H & Ha)];
    rewrite H.
  - now left.
  - right. unfold blank. simpl. rewrite forallb_app. simpl. rewrite Ha.
    now rewrite andb_false_r.
Qed.

Lemma truthy_false (s : pystr) : truthy s = false <-> s = [].
Proof. destruct s; simpl; split; congruence. Qed.

Lemma truthy_true (s : pystr) : truthy s = true <-> s <> [].
Proof. destruct s; simpl; split; congruence. Qed.

(** ** The row walk *)

Lemma index_ok {A} (xs : list A) (i : nat) (x : A) :
  index xs i = Ok x <-> nth_error xs i = Some x.
Proof.
  unfold index. destruct (nth_error xs i); split; congruence.
Qed.

Lemma index_in_range {A} (xs : list A) (i : nat) :
  i < List.length xs -> exists x, index xs i = Ok x.
Proof.
  intros H. unfold index.
  destruct (nth_error xs i) as [x |] eqn:E; [now exists x |].
  apply nth_error_None in E. lia.
Qed.

Section RowWalk.

(** The header mapping of the table that is walked. *)
Variable hm : header_mapping.

Lemma mapping_max_item (i : nat) :
  hm_test_item hm = Some i -> i <= mapping_max hm.
Proof. unfold mapping_max. intros ->. simpl. lia. Qed.

Lemma mapping_max_value (i : nat) :
  hm_measured_value hm = Some i -> i <= mapping_max hm.
Proof. unfold mapping_max. intros ->. simpl. lia. Qed.

Lemma mapping_max_judgment (i : nat) :
  hm_judgment hm = Some i -> i <= mapping_max hm.
Proof. unfold mapping_max. intros ->. simpl. lia. Qed.

Lemma row_label_covered (i : nat) (r : row) (c : cell) :
  mapping_max hm < List.length r ->
  nth_error r i = Some c ->
  row_label hm i r = if truthy (strip c) then Some (strip c) else None.
Proof.
  intros Hc Hn. unfold row_label.
  destruct (Nat.ltb_spec (mapping_max hm) (List.length r)); [| lia].
  now rewrite Hn.
Qed.

Lemma row_label_uncovered (i : nat) (r : row) :
  List.length r <= mapping_max hm -> row_label hm i r = None.
Proof.
  intros Hc. unfold row_label.
  destruct (Nat.ltb_spec (mapping_max hm) (List.length r)); [lia | easy].
Qed.

(** What [build_item] returns for a row that covers the columns of the
    mapping, while [table_data] is empty. *)
Lemma build_item_covered (cur : pystr) (idx : nat)
      (r : row) :
  mapping_max hm < List.length r ->
  (idx = 0 -> cur = []) ->
  exists it cur',
    build_item hm [] cur idx r = Ok (it, cur')
    /\ (forall i, hm_test_item hm = Some i ->
          test_item it = Some cur'
          /\ cur' = match row_label hm i r with
                    | Some l => l
                    | None => cur
                    end)
    /\ (hm_test_item hm = None -> test_item it = None /\ cur' = cur)
    /\ (forall j, hm_measured_value hm = Some j ->
          exists c, nth_error r j = Some c
                    /\ measured_value it = Some (strip c))
    /\ (hm_measured_value hm = None -> measured_value it = None)
    /\ (forall j, hm_judgment hm = Some j ->
          exists c, nth_error r j = Some c /\ judgment it = Some (strip c))
    /\ (hm_judgment hm = None -> judgment it = None).
Proof.
  intros Hcov Hidx. unfold build_item.
  (* the item column *)
  assert (H1 : exists ti cur',
    match hm_test_item hm with
    | Some i =>
        c <- index r i ;;
        (if negb (truthy (strip c)) && Nat.ltb 0 idx
         then Ok (Some cur, cur) else Ok (Some (strip c), strip c))
    | None => Ok (None, cur)
    end = Ok (ti, cur')
    /\ (forall i, hm_test_item hm = Some i ->
          ti = Some cur'
          /\ cur' = match row_label hm i r with
                    | Some l => l | None => cur end)
    /\ (hm_test_item hm = None -> ti = None /\ cur' = cur)).
  { destruct (hm_test_item hm) as [i |] eqn:Ei.
    - pose proof (mapping_max_item i Ei) as Hi.
      destruct (index_in_range r i ltac:(lia)) as [c Hc].
      rewrite Hc. simpl. apply index_ok in Hc.
      destruct (truthy (strip c)) eqn:Et; simpl.
      + exists (Some (strip c)), (strip c). split; [reflexivity |].
        split; [| discriminate].
        intros i' [= <-]. rewrite (row_label_covered i r c Hcov Hc), Et. easy.
      + apply truthy_false in Et.
        destruct (Nat.ltb_spec 0 idx).
        * exists (Some cur), cur. split; [reflexivity |].
          split; [| discriminate].
          intros i' [= <-]. rewrite (row_label_covered i r c Hcov Hc).
          rewrite Et. simpl. easy.
        * exists (Some (strip c)), (strip c). split; [reflexivity |].
          split; [| discriminate].
          intros i' [= <-]. rewrite (row_label_covered i r c Hcov Hc).
          rewrite Et. simpl. rewrite Hidx by lia. easy.
    - exists None, cur. split; [reflexivity |]. split; [discriminate | easy]. }
  destruct H1 as (ti & cur' & -> & Hti & Hti'). cbn [bind].
  (* the value column *)
  assert (H2 : exists mv,
    match hm_measured_value hm with
    | Some i => c <- index r i ;; Ok (Some (strip c))
    | None => Ok None
    end = Ok mv
    /\ (forall j, hm_measured_value hm = Some j ->
          exists c, nth_error r j = Some c /\ mv = Some (strip c))
    /\ (hm_measured_value hm = None -> mv = None)).
  { destruct (hm_measured_value hm) as [j |] eqn:Ej.
    - pose proof (mapping_max_value j Ej) as Hj.
      destruct (index_in_range r j ltac:(lia)) as [c Hc].
      rewrite Hc. simpl. apply index_ok in Hc.
      exists (Some (strip c)). split; [reflexivity |].
      split; [| discriminate]. intros j' [= <-]. now exists c.
    - exists None. split; [reflexivity |]. split; [discriminate | easy]. }
  destruct H2 as (mv & -> & Hmv & Hmv'). cbn [bind].
  (* the judgment column *)
  assert (H3 : exists jd,
    match hm_judgment hm with
    | Some i =>
        c <- index r i ;;
        (if negb (truthy (strip c)) && Nat.ltb 0 idx
         then j <- last_judgment [] ;; Ok (Some j)
         else Ok (Some (strip c)))
    | None => Ok None
    end = Ok jd
    /\ (forall j, hm_judgment hm = Some j ->
          exists c, nth_error r j = Some c /\ jd = Some (strip c))
    /\ (hm_judgment hm = None -> jd = None)).
  { destruct (hm_judgment hm) as [j |] eqn:Ej.
    - pose proof (mapping_max_judgment j Ej) as Hj.
      destruct (index_in_range r j ltac:(lia)) as [c Hc].
      rewrite Hc. simpl. apply index_ok in Hc.
      exists (Some (strip c)). split.
      + destruct (truthy (strip c)) eqn:Et; simpl; [reflexivity |].
        apply truthy_false in Et. rewrite Et.
        now destruct (Nat.ltb 0 idx).
      + split; [| discriminate]. intros j' [= <-]. now exists c.
    - exists None. split; [reflexivity |]. split; [discriminate | easy]. }
  destruct H3 as (jd & -> & Hjd & Hjd'). cbn [bind].
  eexists _, _. split; [reflexivity |]. simpl. tauto.
Qed.

Lemma clean_strip (s : pystr) : clean (strip s).
Proof. exact (strip_clean s). Qed.

Lemma clean_not_empty (s : pystr) : clean s -> s <> [] -> blank s = false.
Proof. intros [H | H] Hne; [contradiction | exact H]. Qed.

Lemma row_label_clean (i : nat) (r : row) (l : pystr) :
  row_label hm i r = Some l -> clean l.
Proof.
  unfold row_label.
  destruct (Nat.ltb (mapping_max hm) (List.length r)); [| discriminate].
  destruct (nth_error r i) as [c |]; [| discriminate].
  destruct (truthy (strip c)); [| discriminate].
  intros [= <-]. apply clean_strip.
Qed.

(** An item that passes the filter satisfies the invariant of records,
    provided its fields are trimmed texts. *)
Lemma valid_record (it : item_data) :
  clean_field (test_item it) -> clean_field (measured_value it) ->
  clean_field (judgment it) ->
  item_valid it = true -> record_ok it.
Proof.
  unfold item_valid, valid_fields, record_ok.
  intros Hti Hmv Hjd Hv.
  rewrite !andb_true_iff in Hv.
  destruct Hv as ((((((H1 & H2) & H3) & H4) & H5) & H6) & H7).
  destruct (test_item it) as [ti |]; [| discriminate].
  destruct (measured_value it) as [mv |]; [| discriminate].
  destruct (judgment it) as [jd |]; [| discriminate].
  cbn [get_or_empty clean_field] in *.
  exists ti, mv, jd. repeat split.
  - apply clean_not_empty; [exact Hti | now apply truthy_true].
  - apply clean_not_empty; [exact Hmv | now apply truthy_true].
  - apply clean_not_empty; [exact Hjd | now apply truthy_true].
  - intros ->. unfold str_in in H2. cbn [existsb] in H2.
    rewrite str_eqb_refl in H2. discriminate.
  - now apply negb_true_iff.
Qed.

Lemma group_append_ok (k : pystr) (x : item_data) (g : groups) :
  record_ok x -> groups_ok g -> groups_ok (group_append k x g).
Proof.
  intros Hx. unfold groups_ok.
  induction g as [| [k' xs] g IH]; simpl; intros Hg.
  - repeat constructor. exact Hx.
  - inversion Hg as [| ? ? H1 H2]; subst. simpl in H1.
    destruct (str_eqb k k').
    + constructor; [| exact H2]. simpl.
      apply Forall_app. split; [exact H1 | now constructor].
    + constructor; [exact H1 | now apply IH].
Qed.

Lemma last_cons_default {A} (x : A) (l : list A) (d : A) :
  last (x :: l) d = last l x.
Proof.
  revert x d. induction l as [| y l IH]; intros x d; [reflexivity |].
  change (last (x :: y :: l) d) with (last (y :: l) d).
  rewrite IH. symmetry. apply IH.
Qed.

(** One step of the row walk, while [table_data] is empty: it does not
    raise, it keeps the invariant of the groups, and the carried
    location becomes the label of the row when the row supplies one. *)
Lemma row_step_spec (cur : pystr) (g : groups)
      (idx : nat) (r : row) :
  (idx = 0 -> cur = []) -> clean cur -> groups_ok g ->
  exists cur' g',
    row_step hm [] (cur, g) idx r = Ok (cur', g')
    /\ groups_ok g' /\ clean cur'
    /\ (forall i, hm_test_item hm = Some i ->
          cur' = match row_label hm i r with
                 | Some l => l
                 | None => cur
                 end).
Proof.
  intros Hidx Hcur Hg. unfold row_step.
  destruct (Nat.ltb_spec (mapping_max hm) (List.length r)) as [Hc | Hc].
  - destruct (build_item_covered cur idx r Hc Hidx)
      as (it & cur' & -> & Hti & Hti' & Hmv & Hmv' & Hjd & Hjd').
    cbn [bind].
    assert (Hcur' : clean cur').
    { destruct (hm_test_item hm) as [i |] eqn:Ei.
      - destruct (Hti i eq_refl) as [_ ->].
        destruct (row_label hm i r) as [l |] eqn:El; [| exact Hcur].
        now apply (row_label_clean i r).
      - now destruct (Hti' eq_refl) as [_ ->]. }
    assert (Hfields : clean_field (test_item it)
                      /\ clean_field (measured_value it)
                      /\ clean_field (judgment it)).
    { repeat split.
      - destruct (hm_test_item hm) as [i |] eqn:Ei.
        + destruct (Hti i eq_refl) as [-> _]. exact Hcur'.
        + destruct (Hti' eq_refl) as [-> _]. exact I.
      - destruct (hm_measured_value hm) as [j |] eqn:Ej.
        + destruct (Hmv j eq_refl) as (c & _ & ->). apply clean_strip.
        + rewrite (Hmv' eq_refl). exact I.
      - destruct (hm_judgment hm) as [j |] eqn:Ej.
        + destruct (Hjd j eq_refl) as (c & _ & ->). apply clean_strip.
        + rewrite (Hjd' eq_refl). exact I. }
    destruct Hfields as (F1 & F2 & F3).
    destruct (item_valid it) eqn:Ev.
    + eexists _, _. split; [reflexivity |]. split; [| split].
      * apply group_append_ok; [now apply valid_record | exact Hg].
      * exact Hcur'.
      * intros i Hi. now apply Hti.
    + eexists _, _. split; [reflexivity |]. split; [exact Hg |].
      split; [exact Hcur' |]. intros i Hi. now apply Hti.
  - exists cur, g. split; [reflexivity |]. split; [exact Hg |].
    split; [exact Hcur |]. intros i _.
    now rewrite row_label_uncovered by lia.
Qed.

(** The walk over data rows, while [table_data] is empty. *)
Lemma walk_spec (rows : list row) :
  forall (idx : nat) (cur : pystr) (g : groups),
    (idx = 0 -> cur = []) -> clean cur -> groups_ok g ->
    exists cur' g',
      foldM_enum (row_step hm []) idx rows (cur, g) = Ok (cur', g')
      /\ groups_ok g' /\ clean cur'
      /\ (forall i, hm_test_item hm = Some i ->
            cur' = last (row_labels hm i rows) cur).
Proof.
  induction rows as [| r rows IH]; intros idx cur g Hidx Hcur Hg.
  - exists cur, g. simpl. auto.
  - destruct (row_step_spec cur g idx r Hidx Hcur Hg)
      as (cur1 & g1 & E1 & Hg1 & Hc1 & Hl1).
    destruct (IH (S idx) cur1 g1 ltac:(discriminate) Hc1 Hg1)
      as (cur2 & g2 & E2 & Hg2 & Hc2 & Hl2).
    exists cur2, g2. cbn [foldM_enum]. rewrite E1. cbn [bind].
    split; [exact E2 |]. split; [exact Hg2 |]. split; [exact Hc2 |].
    intros i Hi. rewrite (Hl2 i Hi), (Hl1 i Hi).
    unfold row_labels. simpl.
    destruct (row_label hm i r) as [l |]; simpl; [| reflexivity].
    fold (row_labels hm i rows). symmetry. apply last_cons_default.
Qed.

End RowWalk.

(** C8. In a data row that covers the columns of the mapping, a blank
    item cell takes the carried location, which is the label of the most
    recent row with a non-blank item cell; a non-blank item cell gives
    the item and becomes the carried location.  The carried location is
    updated by the row step whatever the filter decides for the row, so
    the labels of discarded rows are carried too. *)
Theorem item_carry_forward (hm : header_mapping) (i : nat)
        (before : list row) (r : row) (c : cell) :
  hm_test_item hm = Some i ->
  mapping_max hm < List.length r ->
  nth_error r i = Some c ->
  exists g it cur' g',
    foldM_enum (row_step hm []) 0 before ([], [])
    = Ok (carried_label hm i before, g)
    /\ build_item hm [] (carried_label hm i before) (List.length before) r
       = Ok (it, cur')
    /\ row_step hm [] (carried_label hm i before, g) (List.length before) r
       = Ok (cur', g')
    /\ test_item it = Some cur'
    /\ (strip c = [] -> cur' = carried_label hm i before)
    /\ (strip c <> [] -> cur' = strip c)
    /\ carried_label hm i (before ++ [r]) = cur'.
Proof.
  intros Hi Hcov Hc.
  destruct (walk_spec hm before 0 [] [] (fun _ => eq_refl) (or_introl eq_refl)
              (Forall_nil _)) as (cur1 & g & E1 & _ & _ & Hl).
  rewrite (Hl i Hi) in E1. fold (carried_label hm i before) in E1.
  assert (Hidx : List.length before = 0 -> carried_label hm i before = []).
  { intros H0. apply length_zero_iff_nil in H0. now subst. }
  destruct (build_item_covered hm _ _ r Hcov Hidx)
    as (it & cur' & E2 & Hti & _).
  destruct (Hti i Hi) as [Hit Hcur].
  rewrite (row_label_covered hm i r c Hcov Hc) in Hcur.
  assert (E3 : exists g',
    row_step hm [] (carried_label hm i before, g) (List.length before) r
    = Ok (cur', g')).
  { unfold row_step.
    destruct (Nat.ltb_spec (mapping_max hm) (List.length r)); [| lia].
    rewrite E2. cbn [bind].
    destruct (item_valid it); eexists; reflexivity. }
  destruct E3 as [g' E3].
  exists g, it, cur', g'. repeat split; try assumption.
  - intros Hb. rewrite Hb in Hcur. exact Hcur.
  - intros Hb. apply truthy_true in Hb. rewrite Hb in Hcur. exact Hcur.
  - unfold carried_label, row_labels. rewrite flat_map_app. simpl.
    rewrite (row_label_covered hm i r c Hcov Hc), app_nil_r.
    destruct (truthy (strip c)).
    + rewrite last_last. now symmetry.
    + rewrite app_nil_r. now symmetry.
Qed.

Lemma item_carry_forward_witness :
  exists g it cur' g',
    foldM_enum (row_step mapping012 []) 0
      [Samples.row3 "柱1" "23.4 MPa" ""] ([], [])
    = Ok (carried_label mapping012 0 [Samples.row3 "柱1" "23.4 MPa" ""], g)
    /\ build_item mapping012 []
         (carried_label mapping012 0 [Samples.row3 "柱1" "23.4 MPa" ""])
         1 (Samples.row3 "" "23.6 MPa" "合格")
       = Ok (it, cur')
    /\ row_step mapping012 []
         (carried_label mapping012 0 [Samples.row3 "柱1" "23.4 MPa" ""], g)
         1 (Samples.row3 "" "23.6 MPa" "合格")
       = Ok (cur', g')
    /\ test_item it = Some cur'
    /\ (strip (u "") = [] ->
        cur' = carried_label mapping012 0 [Samples.row3 "柱1" "23.4 MPa" ""])
    /\ (strip (u "") <> [] -> cur' = strip (u ""))
    /\ carried_label mapping012 0
         ([Samples.row3 "柱1" "23.4 MPa" ""]
            ++ [Samples.row3 "" "23.6 MPa" "合格"]) = cur'.
Proof.
  apply (item_carry_forward mapping012 0
           [Samples.row3 "柱1" "23.4 MPa" ""]
           (Samples.row3 "" "23.6 MPa" "合格") (u "")).
  - reflexivity.
  - vm_compute. lia.
  - reflexivity.
Defined.

(** ** Aggregation keeps the invariant of records *)

Lemma format_1f_not_blank (x : float) : blank (format_1f x) = false.
Proof.
  destruct x as [s | s | | s m e]; try (destruct s; reflexivity);
    try reflexivity.
  unfold format_1f. destruct (float_ratio m e) as [n d].
  unfold blank. rewrite !forallb_app.
  change (forallb isspace (u ".")) with false.
  now rewrite andb_false_l, !andb_false_r.
Qed.

Lemma render_value_not_blank (avg : float) (fmt : pystr) :
  blank (render_value avg fmt) = false.
Proof.
  unfold render_value.
  destruct (re_match number_prefix fmt); [apply format_1f_not_blank |].
  destruct (re_search unit_suffix fmt); [| apply format_1f_not_blank].
  unfold blank. rewrite forallb_app.
  fold (blank (format_1f avg)). now rewrite format_1f_not_blank.
Qed.

Lemma bucket_add_ok (key : pystr) (fresh : bucket) (x : float) (d : buckets) :
  record_ok (b_sample_item fresh) -> buckets_ok d ->
  buckets_ok (bucket_add key fresh x d).
Proof.
  intros Hf. unfold buckets_ok.
  induction d as [| [k' b] d IH]; simpl; intros Hd.
  - repeat constructor. exact Hf.
  - inversion Hd as [| ? ? H1 H2]; subst. simpl in H1.
    destruct (str_eqb key k'); constructor; auto.
Qed.

Lemma bucket_step_ok (location : pystr) (rv rv' : buckets) (item : item_data) :
  record_ok item -> buckets_ok rv ->
  bucket_step location rv item = Ok rv' -> buckets_ok rv'.
Proof.
  intros Hi Hrv. unfold bucket_step.
  destruct (getitem "measured_value" (measured_value item)) as [v | e];
    [| discriminate].
  destruct (getitem "judgment" (judgment item)) as [j | e]; [| discriminate].
  cbn [bind].
  destruct (re_search number_group v) as [m |].
  - destruct (float_of_str (mgroup 1 m)) as [x | e]; [| discriminate].
    cbn [bind].
    destruct (py_round x) as [k | e]; [| discriminate]. cbn [bind].
    intros [= <-]. now apply bucket_add_ok.
  - now intros [= <-].
Qed.

Lemma emit_bucket_ok (td td' : list item_data) (kd : pystr * bucket) :
  record_ok (b_sample_item (snd kd)) -> Forall record_ok td ->
  emit_bucket td kd = Ok td' -> Forall record_ok td'.
Proof.
  intros Hs Htd. unfold emit_bucket.
  destruct (b_values (snd kd)); [now intros [= <-] |].
  destruct Hs as (ti & mv & jd & Eti & Emv & Ejd & Bti & _ & Bjd & Hp & Hq).
  rewrite Emv. cbn [getitem bind]. intros [= <-].
  apply Forall_app. split; [exact Htd |]. constructor; [| constructor].
  eexists ti, _, jd. cbn [test_item measured_value judgment].
  repeat split; try assumption. apply render_value_not_blank.
Qed.

Lemma emit_group_ok (td td' : list item_data) (g : pystr * list item_data) :
  Forall record_ok (snd g) -> Forall record_ok td ->
  emit_group td g = Ok td' -> Forall record_ok td'.
Proof.
  destruct g as [location items]. cbn [snd]. intros Hi Htd.
  unfold emit_group. destruct items as [| it items]; [now intros [= <-] |].
  destruct (foldM (bucket_step location) (it :: items) []) as [rv | e] eqn:E;
    [| discriminate].
  cbn [bind].
  assert (Hrv : buckets_ok rv).
  { revert E. apply foldM_inv; [| constructor].
    intros s x s' Hx Hs. apply bucket_step_ok; [| exact Hs].
    rewrite Forall_forall in Hi. now apply Hi. }
  apply foldM_inv; [| exact Htd].
  intros s kd s' Hkd Hs. apply emit_bucket_ok; [| exact Hs].
  unfold buckets_ok in Hrv. rewrite Forall_forall in Hrv. now apply Hrv.
Qed.

Lemma process_table_ok (t : table) (recs : list item_data) :
  process_table [] t = Ok recs -> Forall record_ok recs.
Proof.
  unfold process_table.
  destruct (Nat.ltb 1 (List.length t)); [| now intros [= <-]].
  destruct (detect_header t) as [hm has].
  destruct (has && Nat.leb 2 (mapping_len hm)); [| now intros [= <-]].
  unfold walk_rows.
  destruct (walk_spec hm (skipn (List.length (header_rows t)) t) 0 [] []
              (fun _ => eq_refl) (or_introl eq_refl) (Forall_nil _))
    as (cur & g & E & Hg & _).
  match goal with
  | |- context [foldM_enum ?f ?i ?rows ?st] =>
      replace (foldM_enum f i rows st) with (Ok (cur, g))
        by (symmetry; exact E)
  end.
  cbn [bind]. apply foldM_inv; [| constructor].
  intros s kv s' Hkv Hs. apply emit_group_ok; [| exact Hs].
  unfold groups_ok in Hg. rewrite Forall_forall in Hg. now apply Hg.
Qed.

Lemma scan_tables_ok (ts : list table) (recs : list item_data) :
  scan_tables [] ts = Ok recs -> Forall record_ok recs.
Proof.
  induction ts as [| t ts IH]; simpl; [now intros [= <-] |].
  destruct (process_table [] t) as [[| x xs] | e] eqn:E; simpl;
    [exact IH | | discriminate].
  intros [= <-]. now apply (process_table_ok t).
Qed.

(** C5. Every record that the table pipeline emits for a table has its
    three fields present, not empty and not whitespace only; its item is
    not the placeholder and does not start with the placeholder prefix.
    This holds for every table, whatever its header mapping, and for the
    result of the scan over the tables of a document. *)
Theorem emitted_records_valid (t : table) (ts : list table)
        (recs recs' : list item_data) :
  process_table [] t = Ok recs ->
  scan_tables [] ts = Ok recs' ->
  Forall record_ok recs /\ Forall record_ok recs'.
Proof.
  intros H1 H2. split.
  - now apply (process_table_ok t).
  - now apply (scan_tables_ok ts).
Qed.

Lemma emitted_records_valid_witness :
  Forall record_ok [Samples.item3 "柱1" "23.4" "合格";
                    Samples.item3 "柱1" "23.6" "合格";
                    Samples.item3 "柱1" "24.9" "合格"]
  /\ Forall record_ok [Samples.item3 "梁2" "30.1" "不合格"].
Proof.
  apply (emitted_records_valid Samples.readings
           [Samples.three_rows; Samples.other_table]).
  - vm_compute. reflexivity.
  - vm_compute. reflexivity.
Defined.

(** ** The judgment of a row while [table_data] is empty *)

(** The scan hands an empty [table_data] to every table it examines. *)
Lemma scan_tables_step (t : table) (ts : list table) :
  scan_tables [] (t :: ts) =
  match process_table [] t with
  | Ok [] => scan_tables [] ts
  | other => other
  end.
Proof.
  simpl. destruct (process_table [] t) as [[| x xs] | e]; reflexivity.
Qed.

(** So the judgment of a built item is the trimmed text of its cell, also
    when that text is empty, and a row with a blank judgment cell does
    not pass the filter. *)
Lemma blank_judgment_row_dropped (hm : header_mapping) (cur : pystr)
      (idx : nat) (r : row) (j : nat) (c : cell) :
  mapping_max hm < List.length r -> (idx = 0 -> cur = []) ->
  hm_judgment hm = Some j -> nth_error r j = Some c -> strip c = [] ->
  exists it cur',
    build_item hm [] cur idx r = Ok (it, cur')
    /\ judgment it = Some [] /\ item_valid it = false.
Proof.
  intros Hcov Hidx Hj Hc Hb.
  destruct (build_item_covered hm cur idx r Hcov Hidx)
    as (it & cur' & E & _ & _ & _ & _ & Hjd & _).
  destruct (Hjd j Hj) as (c' & Hc' & Hit).
  assert (c' = c) by congruence. subst c'. rewrite Hb in Hit.
  exists it, cur'. split; [exact E |]. split; [exact Hit |].
  unfold item_valid, valid_fields. rewrite Hit. cbn [get_or_empty truthy].
  now rewrite !andb_false_r.
Qed.

(** C2 (the code departs from the claim).  The second data row of the
    sample has a blank judgment cell under the judgment of the first
    row: its judgment is built empty, and the row is dropped. *)
Theorem blank_judgment_not_inherited :
  build_item mapping012 [] (u "柱1") 1 (Samples.row3 "梁2" "30.1 MPa" "")
  = Ok ({| test_item := Some (u "梁2");
           measured_value := Some (u "30.1 MPa");
           judgment := Some [] |}, u "梁2")
  /\ detect_header Samples.merged_judgment = (mapping012, true)
  /\ scan_tables [] [Samples.merged_judgment]
     = Ok [Samples.item3 "柱1" "23.4" "合格"].
Proof. vm_compute. repeat split. Qed.

(** ** The header detector *)

Lemma fold_enum_combine {A St} (body : St -> nat -> A -> St) (xs : list A) :
  forall (i : nat) (acc : St),
    fold_enum body i xs acc =
    fold_left (fun st ic => body st (fst ic) (snd ic))
              (combine (seq i (List.length xs)) xs) acc.
Proof.
  induction xs as [| x xs IH]; intros i acc; simpl; [reflexivity |].
  apply IH.
Qed.

Lemma fold_left_flat_map {A B St} (f : St -> B -> St) (g : A -> list B)
      (xs : list A) :
  forall acc : St,
    fold_left f (flat_map g xs) acc =
    fold_left (fun a x => fold_left f (g x) a) xs acc.
Proof.
  induction xs as [| x xs IH]; intros acc; simpl; [reflexivity |].
  rewrite fold_left_app. apply IH.
Qed.

Lemma fold_left_pointwise {A St} (f g : St -> A -> St) (xs : list A) :
  (forall st x, f st x = g st x) ->
  forall acc, fold_left f xs acc = fold_left g xs acc.
Proof.
  intros H. induction xs as [| x xs IH]; intros acc; simpl; [reflexivity |].
  rewrite H. apply IH.
Qed.

Lemma detect_header_cells (t : table) :
  detect_header t = fold_left header_step (candidate_cells t)
                              (empty_mapping, false).
Proof.
  unfold detect_header, candidate_cells. rewrite fold_left_flat_map.
  apply fold_left_pointwise. intros st r. unfold header_row, indexed.
  apply fold_enum_combine.
Qed.

Lemma header_step_role (hm : header_mapping) (h : bool) (i : nat) (c : cell) :
  header_step (hm, h) (i, c) =
  match cell_role c with
  | Some RItem =>
      ({| hm_test_item := Some i;
          hm_measured_value := hm_measured_value hm;
          hm_judgment := hm_judgment hm |}, true)
  | Some RValue =>
      ({| hm_test_item := hm_test_item hm;
          hm_measured_value := Some i;
          hm_judgment := hm_judgment hm |}, true)
  | Some RJudgment =>
      ({| hm_test_item := hm_test_item hm;
          hm_measured_value := hm_measured_value hm;
          hm_judgment := Some i |}, true)
  | None => (hm, h)
  end.
Proof.
  unfold header_step, header_cell, cell_role. cbn [fst snd].
  destruct (any_keyword_in item_keywords (strip c)); [reflexivity |].
  destruct (any_keyword_in value_keywords (strip c)); [reflexivity |].
  destruct (any_keyword_in judgment_keywords (strip c)); reflexivity.
Qed.

Lemma role_columns_cons (ro : role) (i : nat) (c : cell)
      (cells : list (nat * cell)) :
  role_columns ro ((i, c) :: cells) =
  if announces ro c then i :: role_columns ro cells
  else role_columns ro cells.
Proof.
  unfold role_columns. cbn [filter snd].
  destruct (announces ro c); reflexivity.
Qed.

Lemma header_fold_spec (cells : list (nat * cell)) :
  forall (hm : header_mapping) (h : bool),
    fold_left header_step cells (hm, h) =
    ({| hm_test_item :=
          last (map Some (role_columns RItem cells)) (hm_test_item hm);
        hm_measured_value :=
          last (map Some (role_columns RValue cells)) (hm_measured_value hm);
        hm_judgment :=
          last (map Some (role_columns RJudgment cells)) (hm_judgment hm) |},
     h || any_role cells).
Proof.
  induction cells as [| [i c] cells IH]; intros hm h.
  - simpl. destruct hm. now rewrite orb_false_r.
  - cbn [fold_left]. rewrite header_step_role, !role_columns_cons.
    unfold any_role. cbn [existsb snd]. fold (any_role cells).
    unfold announces.
    destruct (cell_role c) as [[| |] |]; rewrite IH; cbn [role_eqb map];
      cbn [hm_test_item hm_measured_value hm_judgment];
      rewrite ?last_cons_default, ?orb_true_r; reflexivity.
Qed.

Lemma detect_header_spec (t : table) :
  detect_header t = (mapping_spec t, any_role (candidate_cells t)).
Proof.
  rewrite detect_header_cells, header_fold_spec. reflexivity.
Qed.

Lemma last_some_nonempty (l : list nat) :
  l <> [] -> exists n, last (map Some l) None = Some n.
Proof.
  destruct l as [| x l]; [congruence |]. intros _.
  cbn [map]. rewrite last_cons_default.
  revert x. induction l as [| y l IH]; intros x; [now exists x |].
  cbn [map]. rewrite last_cons_default. apply IH.
Qed.

Lemma role_columns_any (ro : role) (cells : list (nat * cell)) :
  role_columns ro cells <> [] -> any_role cells = true.
Proof.
  induction cells as [| [i c] cells IH]; [now intros [] |].
  rewrite role_columns_cons. unfold any_role, announces. cbn [existsb snd].
  destruct (cell_role c) as [ro' |]; [reflexivity |]. exact IH.
Qed.

Lemma last_column_any (ro : role) (cells : list (nat * cell)) (n : nat) :
  last_column ro cells = Some n -> any_role cells = true.
Proof.
  intros H. apply (role_columns_any ro). intros E.
  unfold last_column in H. rewrite E in H. discriminate.
Qed.

Lemma mapping_len_any (t : table) :
  1 <= mapping_len (mapping_spec t) -> any_role (candidate_cells t) = true.
Proof.
  unfold mapping_len, mapping_spec. cbn.
  destruct (last_column RItem (candidate_cells t)) eqn:E1;
    [intros _; now apply (last_column_any RItem _ n) |].
  destruct (last_column RValue (candidate_cells t)) eqn:E2;
    [intros _; now apply (last_column_any RValue _ n) |].
  destruct (last_column RJudgment (candidate_cells t)) eqn:E3;
    [intros _; now apply (last_column_any RJudgment _ n) |].
  simpl. lia.
Qed.

Lemma mapping_len_rows (t : table) :
  1 <= mapping_len (mapping_spec t) -> 1 < List.length t.
Proof.
  intros H. destruct (Nat.ltb_spec 1 (List.length t)) as [| Hs]; [easy |].
  exfalso. revert H. unfold mapping_spec, candidate_cells.
  rewrite header_rows_short by lia. cbn. lia.
Qed.

Lemma startswith_spec (p s : pystr) :
  startswith p s = true <-> exists b, s = p ++ b.
Proof.
  revert s. induction p as [| a p IH]; intros s; simpl.
  - split; [intros _; now exists s | reflexivity].
  - destruct s as [| c s].
    + split; [discriminate | intros [b H]; discriminate].
    + rewrite andb_true_iff, N.eqb_eq, IH. split.
      * intros [-> [b ->]]. now exists b.
      * intros [b H]. injection H as -> ->. split; [reflexivity | now exists b].
Qed.

(** [contains p s] holds exactly when [p] is a substring of [s]. *)
Lemma contains_spec (p s : pystr) :
  contains p s = true <-> exists a b, s = a ++ p ++ b.
Proof.
  induction s as [| c s IH].
  - simpl. rewrite orb_false_r, startswith_spec. split.
    + intros [b H]. now exists [], b.
    + intros (a & b & H). destruct a; [now exists b |]. discriminate.
  - cbn [contains]. rewrite orb_true_iff, startswith_spec, IH. split.
    + intros [[b H] | (a & b & H)].
      * now exists [], b.
      * exists (c :: a), b. now rewrite H.
    + intros (a & b & H). destruct a as [| c' a].
      * left. now exists b.
      * right. injection H as _ H. now exists a, b.
Qed.

(** A cell announces the item role exactly when its trimmed text holds
    an item keyword as a substring. *)
Lemma announces_item (c : cell) :
  announces RItem c = true <->
  exists k a b, In k item_keywords /\ strip c = a ++ k ++ b.
Proof.
  unfold announces, cell_role, any_keyword_in.
  destruct (existsb (fun keyword => contains keyword (strip c)) item_keywords)
    eqn:E.
  - cbn [role_eqb]. split; [intros _ | reflexivity].
    apply existsb_exists in E. destruct E as (k & Hk & Hc).
    apply contains_spec in Hc. destruct Hc as (a & b & Hc).
    now exists k, a, b.
  - split.
    + destruct (existsb _ value_keywords); [discriminate |].
      destruct (existsb _ judgment_keywords); discriminate.
    + intros (k & a & b & Hk & Hc).
      assert (existsb (fun keyword => contains keyword (strip c))
                      item_keywords = true); [| congruence].
      apply existsb_exists. exists k. split; [exact Hk |].
      apply contains_spec. now exists a, b.
Qed.

(** The claim C3 as it is written fails: in the sample the item role is
    given to column 0, yet the trimmed text of no candidate cell is one
    of the item keywords. *)
Lemma header_membership_counterexample :
  hm_test_item (fst (detect_header Samples.loose_header)) = Some 0
  /\ forallb (fun ic => negb (str_in (strip (snd ic)) item_keywords))
             (candidate_cells Samples.loose_header) = true.
Proof. vm_compute. split; reflexivity. Qed.

(** C3 (amended).  Each role goes to the column of the last candidate
    header cell, row after row, whose trimmed text holds a keyword of the
    role as a substring (a cell announces the first such role in the
    order item, value, judgment).  A table with fewer than two roles is
    skipped and the scan goes on with the next table; with two roles or
    more its data rows are walked. *)
Theorem header_roles_by_containment (t : table) :
  detect_header t = (mapping_spec t, any_role (candidate_cells t))
  /\ (mapping_len (mapping_spec t) < 2 ->
      (forall td, process_table td t = Ok td)
      /\ forall ts, scan_tables [] (t :: ts) = scan_tables [] ts)
  /\ (2 <= mapping_len (mapping_spec t) ->
      forall td,
        process_table td t =
        ('(_, location_groups) <- walk_rows (mapping_spec t) td t ;;
         foldM emit_group location_groups td)).
Proof.
  split; [apply detect_header_spec |]. split.
  - intros Hlen.
    assert (H : forall td, process_table td t = Ok td).
    { intros td. unfold process_table. rewrite detect_header_spec.
      destruct (Nat.ltb 1 (List.length t)); [| reflexivity].
      destruct (Nat.leb_spec 2 (mapping_len (mapping_spec t))); [lia |].
      now rewrite andb_false_r. }
    split; [exact H |]. intros ts. rewrite scan_tables_step. now rewrite H.
  - intros Hlen td. unfold process_table. rewrite detect_header_spec.
    destruct (Nat.ltb_spec 1 (List.length t)) as [| Hs].
    + rewrite mapping_len_any by lia.
      destruct (Nat.leb_spec 2 (mapping_len (mapping_spec t))); [| lia].
      reflexivity.
    + pose proof (mapping_len_rows t ltac:(lia)). lia.
Qed.

Lemma header_roles_by_containment_witness :
  process_table [] Samples.loose_header = Ok []
  /\ process_table [] Samples.readings =
     ('(_, location_groups) <-
        walk_rows (mapping_spec Samples.readings) [] Samples.readings ;;
      foldM emit_group location_groups []).
Proof.
  split.
  - destruct (header_roles_by_containment Samples.loose_header)
      as (_ & H & _).
    apply H. vm_compute. lia.
  - destruct (header_roles_by_containment Samples.readings) as (_ & _ & H).
    apply H. vm_compute. lia.
Defined.

(** ** The patterns of the aggregator *)

Lemma or_else_some_r {R} (a b : option R) : b <> None -> or_else a b <> None.
Proof. destruct a; simpl; congruence. Qed.

Lemma or_else_some_l {R} (a b : option R) : a <> None -> or_else a b <> None.
Proof. destruct a; simpl; congruence. Qed.

(** A repeat that may stop at once succeeds when what follows always
    succeeds. *)
Lemma rep_loop_nullable {R} (body : pystr -> caps -> cont R -> option R)
      (hi : option nat) (greedy : bool) (k : cont R)
      (fuel cnt : nat) (s : pystr) (c : caps) :
  (forall s1 c1, k s1 c1 <> None) ->
  rep_loop body 0 hi greedy k (S fuel) cnt s c <> None.
Proof.
  intros Hk. cbn [rep_loop Nat.leb]. destruct greedy.
  - apply or_else_some_r, Hk.
  - apply or_else_some_l, Hk.
Qed.

Lemma cset_digit (a : pychar) : cset_has false [CDigit] a = isdecimal a.
Proof.
  unfold cset_has. cbn [existsb cls_has].
  now rewrite orb_false_r, xorb_false_l.
Qed.

Lemma cset_nondigit (a : pychar) : cset_has true [CDigit] a = nondigit a.
Proof.
  unfold cset_has, nondigit. cbn [existsb cls_has].
  rewrite orb_false_r. now destruct (isdecimal a).
Qed.

Lemma rmatch_cat {R} (d : bool) (r1 r2 : regex) (s : pystr) (c : caps)
      (k : cont R) :
  rmatch d (Cat r1 r2) s c k =
  rmatch d r1 s c (fun s1 c1 => rmatch d r2 s1 c1 k).
Proof. reflexivity. Qed.

Lemma rmatch_rep {R} (d : bool) (r : regex) (lo : nat) (hi : option nat)
      (greedy : bool) (s : pystr) (c : caps) (k : cont R) :
  rmatch d (Rep r lo hi greedy) s c k =
  rep_loop (rmatch d r) lo hi greedy k (S (List.length s)) 0 s c.
Proof. reflexivity. Qed.

Lemma rmatch_group {R} (d : bool) (n : nat) (r : regex) (s : pystr)
      (c : caps) (k : cont R) :
  rmatch d (Group n r) s c k =
  rmatch d r s c (fun s1 c1 =>
    k s1 ((n, firstn (List.length s - List.length s1) s) :: c1)).
Proof. reflexivity. Qed.

Lemma rmatch_rep_nullable {R} (d : bool) (r : regex) (hi : option nat)
      (greedy : bool) (s : pystr) (c : caps) (k : cont R) :
  (forall s1 c1, k s1 c1 <> None) ->
  rmatch d (Rep r 0 hi greedy) s c k <> None.
Proof. intros Hk. rewrite rmatch_rep. now apply rep_loop_nullable. Qed.

(** The iterations of a greedy repeat of a character set. *)
Lemma rep_loop_set_cons {R} (d neg : bool) (items : list cls) (lo : nat)
      (k : cont R) (fuel cnt : nat) (a : pychar) (s : pystr) (c : caps) :
  rep_loop (rmatch d (CSet neg items)) lo None true k (S fuel) cnt (a :: s) c
  = or_else
      (if cset_has neg items a
       then rep_loop (rmatch d (CSet neg items)) lo None true k fuel (S cnt) s c
       else None)
      (if Nat.leb lo cnt then k (a :: s) c else None).
Proof.
  cbn [rep_loop rmatch List.length].
  rewrite (proj2 (Nat.ltb_lt (List.length s) (S (List.length s))))
    by lia.
  reflexivity.
Qed.

Lemma rep_loop_set_nil {R} (d neg : bool) (items : list cls) (lo : nat)
      (k : cont R) (fuel cnt : nat) (c : caps) :
  rep_loop (rmatch d (CSet neg items)) lo None true k (S fuel) cnt [] c
  = if Nat.leb lo cnt then k [] c else None.
Proof. reflexivity. Qed.

(** The pattern for a number matches at the start of a text exactly when
    the text begins with a decimal digit. *)
Lemma number_prefix_spec (s : pystr) :
  re_match number_prefix s <> None <-> begins_with_digit s = true.
Proof.
  unfold re_match, re_match_at, number_prefix, plus, digit.
  rewrite rmatch_cat, rmatch_rep.
  destruct s as [| a s].
  - rewrite rep_loop_set_nil. cbn. split; [congruence | discriminate].
  - cbn [List.length]. rewrite rep_loop_set_cons, cset_digit.
    cbn [Nat.leb begins_with_digit].
    destruct (isdecimal a).
    + split; [reflexivity | intros _]. apply or_else_some_l.
      destruct s as [| b s].
      * rewrite rep_loop_set_nil. cbn [Nat.leb].
        rewrite rmatch_cat. apply rmatch_rep_nullable. intros s1 c1.
        apply rmatch_rep_nullable. discriminate.
      * rewrite rep_loop_set_cons. cbn [Nat.leb]. apply or_else_some_r.
        rewrite rmatch_cat. apply rmatch_rep_nullable. intros s1 c1.
        apply rmatch_rep_nullable. discriminate.
    + cbn [or_else]. split; [congruence | discriminate].
Qed.

Lemma rep_loop_set_fail {R} (d : bool) (lo : nat) (k : cont R) :
  (forall s1 c1, existsb isdecimal s1 = true -> k s1 c1 = None) ->
  forall (fuel cnt : nat) (s : pystr) (c : caps),
    existsb isdecimal s = true ->
    rep_loop (rmatch d (CSet true [CDigit])) lo None true k fuel cnt s c
    = None.
Proof.
  intros Hk. induction fuel as [| fuel IH]; intros cnt s c Hs;
    [reflexivity |].
  destruct s as [| a s]; [discriminate |].
  rewrite rep_loop_set_cons, cset_nondigit, (Hk (a :: s) c Hs).
  unfold nondigit. cbn [existsb] in Hs.
  destruct (isdecimal a); cbn [negb orb] in *.
  - now destruct (Nat.leb lo cnt).
  - rewrite (IH (S cnt) s c Hs). now destruct (Nat.leb lo cnt).
Qed.

Lemma rep_loop_set_all {R} (d neg : bool) (items : list cls) (lo : nat)
      (k : cont R) (x : R) (c : caps) :
  k [] c = Some x ->
  forall (s : pystr) (fuel cnt : nat),
    forallb (cset_has neg items) s = true ->
    List.length s < fuel -> lo <= cnt + List.length s ->
    rep_loop (rmatch d (CSet neg items)) lo None true k fuel cnt s c
    = Some x.
Proof.
  intros Hk. induction s as [| a s IH]; intros fuel cnt Hs Hf Hlo;
    (destruct fuel as [| fuel]; [simpl in Hf; lia |]).
  - rewrite rep_loop_set_nil. simpl in Hlo.
    now rewrite (proj2 (Nat.leb_le lo cnt)) by lia.
  - cbn [forallb] in Hs. apply andb_prop in Hs. destruct Hs as [Ha Hs].
    rewrite rep_loop_set_cons, Ha. simpl in Hf, Hlo.
    rewrite (IH fuel (S cnt) Hs) by lia. reflexivity.
Qed.

Lemma isdecimal_newline : isdecimal 10%N = false.
Proof. reflexivity. Qed.

Lemma eol_after_digit {R} (k : cont R) (s : pystr) (c : caps) :
  existsb isdecimal s = true -> rmatch false Eol s c k = None.
Proof.
  destruct s as [| a [| b s]]; cbn [rmatch existsb]; intros H;
    [discriminate | | reflexivity].
  destruct (N.eqb_spec a 10); [| reflexivity].
  subst a. rewrite isdecimal_newline in H. discriminate.
Qed.

(** The pattern for the unit at one position of the text. *)
Lemma unit_suffix_at_digit (pos : nat) (s : pystr) :
  existsb isdecimal s = true -> re_match_at false unit_suffix pos s = None.
Proof.
  intros Hs. unfold re_match_at, unit_suffix, plus.
  rewrite rmatch_cat, rmatch_group, rmatch_rep.
  apply rep_loop_set_fail; [| exact Hs].
  intros s1 c1 H1. now apply eol_after_digit.
Qed.

Lemma unit_suffix_at_nil (pos : nat) :
  re_match_at false unit_suffix pos [] = None.
Proof. reflexivity. Qed.

Lemma forallb_nondigit (s : pystr) :
  forallb nondigit s = true -> forallb (cset_has true [CDigit]) s = true.
Proof.
  induction s as [| a s IH]; [reflexivity |]. cbn [forallb].
  rewrite cset_nondigit, !andb_true_iff. intros [Ha Hs]. auto.
Qed.

Lemma unit_suffix_at_all (pos : nat) (s : pystr) :
  forallb nondigit s = true -> s <> [] ->
  re_match_at false unit_suffix pos s =
  Some {| m_start := pos; m_text := s; m_caps := [(1, s)] |}.
Proof.
  intros Hs Hne. unfold re_match_at, unit_suffix, plus.
  rewrite rmatch_cat, rmatch_group, rmatch_rep.
  apply rep_loop_set_all.
  - cbn [rmatch List.length]. now rewrite Nat.sub_0_r, firstn_all.
  - now apply forallb_nondigit.
  - lia.
  - destruct s; [congruence | simpl; lia].
Qed.

Lemma unit_suffix_search (suf : pystr) :
  forallb nondigit suf = true ->
  forall (pre : pystr) (pos : nat),
    (pre = [] \/ exists p d, pre = p ++ [d] /\ isdecimal d = true) ->
    re_search_from false unit_suffix pos (pre ++ suf) =
    match suf with
    | [] => None
    | _ :: _ => Some {| m_start := pos + List.length pre;
                        m_text := suf; m_caps := [(1, suf)] |}
    end.
Proof.
  intros Hsuf. induction pre as [| a pre IH]; intros pos Hpre.
  - cbn [app List.length]. rewrite Nat.add_0_r.
    destruct suf as [| b suf].
    + reflexivity.
    + cbn [re_search_from].
      now rewrite (unit_suffix_at_all pos (b :: suf) Hsuf).
  - destruct Hpre as [Hpre | (p & d & Hpre & Hd)]; [discriminate |].
    cbn [app re_search_from].
    rewrite unit_suffix_at_digit.
    + rewrite IH.
      * cbn [List.length]. rewrite Nat.add_succ_r. reflexivity.
      * destruct p as [| a' p]; [left | right].
        -- now injection Hpre.
        -- injection Hpre as _ Hpre. now exists p, d.
    + change (a :: pre ++ suf) with ((a :: pre) ++ suf).
      rewrite Hpre, existsb_app, existsb_app. cbn [existsb].
      rewrite Hd. now rewrite orb_true_r.
Qed.

Lemma take_drop_while (p : pychar -> bool) (s : pystr) :
  take_while p s ++ drop_while p s = s.
Proof.
  induction s as [| a s IH]; [reflexivity |]. simpl.
  destruct (p a); [simpl; now rewrite IH | reflexivity].
Qed.

Lemma take_while_all (p : pychar -> bool) (s : pystr) :
  forallb p (take_while p s) = true.
Proof.
  induction s as [| a s IH]; [reflexivity |]. simpl.
  destruct (p a) eqn:E; [simpl; now rewrite E | reflexivity].
Qed.

Lemma drop_while_head (p : pychar -> bool) (s : pystr) :
  drop_while p s = [] \/
  exists d r, drop_while p s = d :: r /\ p d = false.
Proof.
  induction s as [| a s IH]; [now left |]. simpl.
  destruct (p a) eqn:E; [exact IH |]. right. now exists a, s.
Qed.

Lemma forallb_rev (p : pychar -> bool) (s : pystr) :
  forallb p (rev s) = forallb p s.
Proof.
  induction s as [| a s IH]; [reflexivity |]. simpl.
  rewrite forallb_app, IH. simpl. rewrite andb_true_r. apply andb_comm.
Qed.

(** The pattern for the unit finds the characters after the last decimal
    digit of the text, when there are any. *)
Lemma unit_suffix_spec (s : pystr) :
  match trailing_nondigits s with
  | [] => re_search unit_suffix s = None
  | suf => exists n, re_search unit_suffix s =
                     Some {| m_start := n; m_text := suf;
                             m_caps := [(1, suf)] |}
  end.
Proof.
  unfold trailing_nondigits, re_search.
  pose proof (take_drop_while nondigit (rev s)) as Hs.
  pose proof (take_while_all nondigit (rev s)) as Hsuf.
  pose proof (drop_while_head nondigit (rev s)) as Hpre.
  apply (f_equal (@rev pychar)) in Hs.
  rewrite rev_app_distr, rev_involutive in Hs.
  rewrite <- forallb_rev in Hsuf.
  remember (rev (take_while nondigit (rev s))) as suf eqn:Esuf.
  remember (drop_while nondigit (rev s)) as dr eqn:Edr.
  clear Esuf Edr.
  assert (Hpre' : rev dr = [] \/
                  exists p d, rev dr = p ++ [d] /\ isdecimal d = true).
  { destruct Hpre as [-> | (d & r & -> & Hd)]; [now left | right].
    exists (rev r), d. split; [reflexivity |].
    unfold nondigit in Hd. now apply negb_false_iff in Hd. }
  pose proof (unit_suffix_search suf Hsuf (rev dr) 0 Hpre') as H.
  rewrite Hs in H.
  destruct suf; [exact H | eexists; exact H].
Qed.

(** ** The representative value *)

Lemma bucket_add_filled (key : pystr) (fresh : bucket) (x : float)
      (d : buckets) :
  buckets_filled d -> buckets_filled (bucket_add key fresh x d).
Proof.
  unfold buckets_filled. induction d as [| [k' b] d IH]; simpl; intros Hd.
  - constructor; [| constructor]. simpl. now destruct (b_values fresh).
  - inversion Hd as [| ? ? H1 H2]; subst.
    destruct (str_eqb key k'); constructor; auto.
    simpl. now destruct (b_values b).
Qed.

(** The buckets that the aggregator builds for a location all hold a
    value, so each of them is emitted. *)
Lemma buckets_have_values (location : pystr) (items : list item_data)
      (rv : buckets) :
  foldM (bucket_step location) items [] = Ok rv -> buckets_filled rv.
Proof.
  apply foldM_inv; [| constructor].
  intros s item s' _ Hs. unfold bucket_step.
  destruct (getitem "measured_value" (measured_value item)) as [v | e];
    [| discriminate].
  destruct (getitem "judgment" (judgment item)) as [j | e]; [| discriminate].
  cbn [bind].
  destruct (re_search number_group v) as [m |]; [| now intros [= <-]].
  destruct (float_of_str (mgroup 1 m)) as [x | e]; [| discriminate].
  cbn [bind].
  destruct (py_round x) as [k | e]; [| discriminate]. cbn [bind].
  intros [= <-]. now apply bucket_add_filled.
Qed.

Lemma render_value_spec (avg : float) (fmt : pystr) :
  render_value avg fmt = render_spec avg fmt.
Proof.
  unfold render_value, render_spec.
  pose proof (number_prefix_spec fmt) as Hn.
  destruct (re_match number_prefix fmt) as [m |].
  - rewrite (proj1 Hn) by discriminate. reflexivity.
  - destruct (begins_with_digit fmt).
    + now destruct (proj2 Hn eq_refl).
    + pose proof (unit_suffix_spec fmt) as Hu.
      destruct (trailing_nondigits fmt) as [| a suf].
      * now rewrite Hu.
      * destruct Hu as [n ->]. reflexivity.
Qed.

Lemma uint_str_digits (d : Decimal.uint) :
  forallb ascii_digit (uint_str d) = true.
Proof. induction d; simpl; auto. Qed.

Lemma str_of_Z_chars (n : Z) : forallb int_char (str_of_Z n) = true.
Proof.
  assert (H : forall d, forallb int_char (uint_str d) = true).
  { induction d; simpl; auto. }
  destruct n; simpl; auto.
Qed.

Lemma str_of_Z_digit (r : Z) :
  (0 <= r < 10)%Z -> exists d, str_of_Z r = [d] /\ ascii_digit d = true.
Proof.
  intros H.
  assert (E : (r = 0 \/ r = 1 \/ r = 2 \/ r = 3 \/ r = 4 \/ r = 5 \/ r = 6
               \/ r = 7 \/ r = 8 \/ r = 9)%Z) by lia.
  repeat (destruct E as [-> | E]; [eexists; split; reflexivity |]).
  subst r. eexists; split; reflexivity.
Qed.

(** The rendering of a number has exactly one digit after the point. *)
Lemma format_1f_shape (x : float) :
  is_finite x = true ->
  exists ip d,
    format_1f x = ip ++ [uc "."; d]
    /\ ascii_digit d = true /\ forallb int_char ip = true.
Proof.
  destruct x as [s | s | | s m e]; try discriminate; intros _.
  - exists (sign_str s ++ u "0"), (uc "0"). destruct s; repeat split.
  - unfold format_1f. destruct (float_ratio m e) as [n d].
    set (t := round_half_even (10 * n) d).
    destruct (str_of_Z_digit (t mod 10)) as (c & -> & Hc).
    { apply Z.mod_pos_bound. lia. }
    exists (sign_str s ++ str_of_Z (t / 10)), c. repeat split.
    + now rewrite <- app_assoc.
    + exact Hc.
    + rewrite forallb_app, str_of_Z_chars. now destruct s.
Qed.

(** ** Rounding and buckets *)

Lemma round_half_even_nearest (n d : Z) :
  (0 < d)%Z -> (Z.abs (2 * n - 2 * d * round_half_even n d) <= d)%Z.
Proof.
  intros Hd. unfold round_half_even.
  pose proof (Z.div_mod n d ltac:(lia)) as Hdm.
  pose proof (Z.mod_pos_bound n d Hd) as Hb.
  set (q := (n / d)%Z) in *. set (r := (n mod d)%Z) in *.
  destruct (Z.compare_spec (2 * r) d) as [He | Hl | Hg].
  - destruct (Z.even q); lia.
  - lia.
  - lia.
Qed.

Lemma float_ratio_pos (m : positive) (e : Z) :
  (0 < snd (float_ratio m e))%Z.
Proof.
  unfold float_ratio. destruct e; cbn [snd]; lia.
Qed.

Lemma py_round_nearest (x : float) :
  is_finite x = true -> exists k, py_round x = Ok k /\ nearest_integer x k.
Proof.
  destruct x as [s | s | | s m e]; try discriminate; intros _.
  - exists 0%Z. split; [reflexivity |]. unfold nearest_integer. simpl. lia.
  - unfold py_round, nearest_integer, float_fraction.
    pose proof (float_ratio_pos m e) as Hd.
    destruct (float_ratio m e) as [n d]. cbn [snd] in Hd.
    eexists. split; [reflexivity |].
    pose proof (round_half_even_nearest n d Hd) as H.
    destruct s; cbn [cond_Zopp]; [| exact H].
    replace (2 * - n - 2 * d * - round_half_even n d)%Z
      with (- (2 * n - 2 * d * round_half_even n d))%Z by ring.
    now rewrite Z.abs_opp.
Qed.

(** The rendering of a number is the tenth nearest to it: [t / 10] with
    [t] an integer at most one half away from ten times the number. *)
Lemma format_1f_nearest (x : float) :
  is_finite x = true ->
  exists (neg : bool) (n d t : Z),
    float_exact x = Some (cond_Zopp neg n, d)
    /\ (0 <= n)%Z /\ (0 < d)%Z /\ (0 <= t)%Z
    /\ (Z.abs (2 * (10 * n) - 2 * d * t) <= d)%Z
    /\ format_1f x
       = sign_str neg ++ str_of_Z (t / 10) ++ u "." ++ str_of_Z (t mod 10).
Proof.
  destruct x as [s | s | | s m e]; try discriminate; intros _.
  - exists s, 0%Z, 1%Z, 0%Z. cbn [float_exact format_1f].
    repeat split; try lia. now destruct s.
  - cbn [float_exact format_1f].
    pose proof (float_ratio_pos m e) as Hd.
    assert (Hn : (0 <= fst (float_ratio m e))%Z).
    { unfold float_ratio. destruct e; cbn [fst]; lia. }
    destruct (float_ratio m e) as [n d]. cbn [fst snd] in Hd, Hn.
    exists s, n, d, (round_half_even (10 * n) d).
    pose proof (round_half_even_nearest (10 * n) d Hd) as Hr.
    repeat split; try assumption.
    unfold round_half_even.
    pose proof (Z.div_pos (10 * n) d ltac:(lia) Hd).
    destruct (2 * ((10 * n) mod d) ?= d)%Z; [destruct (Z.even _) | |]; lia.
Qed.

(** The claim C4 as it is written fails.  The mean is computed in
    binary64, and its rendering need not be that of the arithmetic mean:
    the readings 1.1 and 1.2 of one location are emitted as "1.1",
    although their arithmetic mean exceeds 1.15 and is "1.2" with one
    decimal place.  Nor has the value always a decimal place: the sum
    of two readings of 1 followed by 308 zeros overflows, and the record
    holds "inf". *)
Lemma mean_rendering_counterexample :
  float_of_str (u "1.1") = Ok (float_of_ratio 11 10)
  /\ float_of_str (u "1.2") = Ok (float_of_ratio 12 10)
  /\ scan_tables [] [close_readings] = Ok [Samples.item3 "柱1" "1.1" "合格"]
  /\ mean_one_decimal [float_of_ratio 11 10; float_of_ratio 12 10]
     = Some (u "1.2")
  /\ (exists n d,
        arithmetic_mean [float_of_ratio 11 10; float_of_ratio 12 10]
        = Some (n, d)
        /\ (0 < d)%Z /\ (23 * d < 20 * n)%Z)
  /\ scan_tables [] [large_readings] = Ok [Samples.item3 "柱1" "inf" "合格"]
  /\ (forall ip dg, u "inf" <> ip ++ [uc "."; dg]).
Proof.
  split; [vm_compute; reflexivity |].
  split; [vm_compute; reflexivity |].
  split; [vm_compute; reflexivity |].
  split; [vm_compute; reflexivity |].
  split.
  { eexists _, _. split; [vm_compute; reflexivity |]. split; reflexivity. }
  split; [vm_compute; reflexivity |].
  intros ip dg H. apply (f_equal (@rev pychar)) in H.
  rewrite rev_app_distr in H. vm_compute in H. discriminate.
Qed.

(** C4 (amended).  A bucket with values is emitted as a copy of its
    sample item in which only the value is replaced, so the judgment is
    that of the sample item.  The new value is built from the mean that
    the code computes, the binary64 sum of the values from the left
    divided by their count: it is the rendering of that mean when the
    value of the sample item begins with a decimal digit (a unit written
    after the number is dropped); otherwise, when that value ends with
    characters after its last digit, it is the rendering, a space, and
    those characters trimmed.  The rendering of a mean that is a number
    is the tenth nearest to it, written with exactly one digit after
    the point; a mean that is not a number (the sum has overflowed) is
    rendered as "inf", "-inf" or "nan". *)
Theorem representative_value_format
        (td : list item_data) (key : pystr) (data : bucket) (v : pystr) :
  b_values data <> [] ->
  measured_value (b_sample_item data) = Some v ->
  exists rep,
    emit_bucket td (key, data) = Ok (td ++ [rep])
    /\ test_item rep = test_item (b_sample_item data)
    /\ judgment rep = judgment (b_sample_item data)
    /\ measured_value rep
       = Some (render_spec (float_mean (b_values data)) v)
    /\ (begins_with_digit v = true ->
        measured_value rep = Some (format_1f (float_mean (b_values data))))
    /\ (begins_with_digit v = false -> trailing_nondigits v <> [] ->
        measured_value rep =
        Some (format_1f (float_mean (b_values data)) ++ u " "
                ++ strip (trailing_nondigits v)))
    /\ (is_finite (float_mean (b_values data)) = true ->
        (exists ip dg,
           format_1f (float_mean (b_values data)) = ip ++ [uc "."; dg]
           /\ ascii_digit dg = true /\ forallb int_char ip = true)
        /\ exists (neg : bool) (n d t : Z),
             float_exact (float_mean (b_values data))
             = Some (cond_Zopp neg n, d)
             /\ (0 <= n)%Z /\ (0 < d)%Z /\ (0 <= t)%Z
             /\ (Z.abs (2 * (10 * n) - 2 * d * t) <= d)%Z
             /\ format_1f (float_mean (b_values data))
                = sign_str neg ++ str_of_Z (t / 10) ++ u "."
                    ++ str_of_Z (t mod 10))
    /\ (is_finite (float_mean (b_values data)) = false ->
        In (format_1f (float_mean (b_values data)))
           [u "inf"; u "-inf"; u "nan"]).
Proof.
  intros Hv Hs. unfold emit_bucket. cbn [snd].
  destruct (b_values data) as [| x xs] eqn:Ex; [congruence |].
  rewrite Hs. cbn [getitem bind]. rewrite render_value_spec.
  change (py_mean (x :: xs)) with (float_mean (x :: xs)).
  eexists. split; [reflexivity |].
  cbn [test_item judgment measured_value].
  split; [reflexivity |]. split; [reflexivity |]. split; [reflexivity |].
  split; [| split; [| split]].
  - intros Hb. unfold render_spec. now rewrite Hb.
  - intros Hb Ht. unfold render_spec. rewrite Hb.
    now destruct (trailing_nondigits v).
  - intros Hf. split; [now apply format_1f_shape |].
    now apply format_1f_nearest.
  - destruct (float_mean (x :: xs)) as [s | s | | s m e]; try discriminate;
      intros _; cbn [format_1f]; [destruct s |]; simpl; auto.
Qed.

Lemma representative_value_format_witness :
  exists rep,
    emit_bucket []
      (u "柱1_24",
       {| b_location := u "柱1"; b_judgment := u "合格";
          b_values := [float_of_ratio 236 10; float_of_ratio 244 10];
          b_sample_item := Samples.item3 "柱1" "约23.6MPa" "合格" |})
    = Ok ([] ++ [rep])
    /\ measured_value rep = Some (u "24.0 MPa")
    /\ judgment rep = Some (u "合格").
Proof.
  destruct (representative_value_format []
              (u "柱1_24")
              {| b_location := u "柱1"; b_judgment := u "合格";
                 b_values := [float_of_ratio 236 10; float_of_ratio 244 10];
                 b_sample_item := Samples.item3 "柱1" "约23.6MPa" "合格" |}
              (u "约23.6MPa"))
    as (rep & E & _ & Hj & _ & _ & Hm & _).
  - discriminate.
  - reflexivity.
  - exists rep. split; [exact E |]. split.
    + rewrite Hm; [vm_compute; reflexivity | reflexivity | discriminate].
    + exact Hj.
Defined.

(** The claim C1 as it is written fails on its own example: 23.4 rounds
    to 23, the three values give three records, and no record holds the
    value "23.5 MPa". *)
Lemma rounding_example_counterexample :
  (x <- float_of_str (u "23.4") ;; py_round x) = Ok 23%Z
  /\ (x <- float_of_str (u "23.6") ;; py_round x) = Ok 24%Z
  /\ scan_tables [] [Samples.readings]
     = Ok [Samples.item3 "柱1" "23.4" "合格";
           Samples.item3 "柱1" "23.6" "合格";
           Samples.item3 "柱1" "24.9" "合格"]
  /\ ~ In (Samples.item3 "柱1" "23.5 MPa" "合格")
          [Samples.item3 "柱1" "23.4" "合格";
           Samples.item3 "柱1" "23.6" "合格";
           Samples.item3 "柱1" "24.9" "合格"].
Proof.
  repeat split; try (vm_compute; reflexivity).
  intros [H | [H | [H | []]]]; vm_compute in H; discriminate.
Qed.

(** C1 (amended).  The key of a bucket is the location, an underscore,
    and an integer nearest to the number read from the first numeric
    token of the value.  In the example, 23.4, 23.6 and 24.9 have the
    keys 23, 24 and 25: three buckets of one value each, emitted as
    three records. *)
Theorem bucket_key_rounding :
  (forall (location : pystr) (rv : buckets) (item : item_data)
          (v j : pystr) (m : rmatch_obj) (x : float),
      measured_value item = Some v -> judgment item = Some j ->
      re_search number_group v = Some m ->
      float_of_str (mgroup 1 m) = Ok x -> is_finite x = true ->
      exists k,
        py_round x = Ok k /\ nearest_integer x k
        /\ bucket_step location rv item =
           Ok (bucket_add (location ++ u "_" ++ str_of_Z k)
                 {| b_location := location; b_judgment := j;
                    b_values := []; b_sample_item := item |} x rv))
  /\ foldM (bucket_step (u "柱1"))
           [Samples.item3 "柱1" "23.4 MPa" "合格";
            Samples.item3 "柱1" "23.6 MPa" "合格";
            Samples.item3 "柱1" "24.9 MPa" "合格"] []
     = Ok [(u "柱1_23", sample_bucket "柱1" "23.4 MPa" "合格" 234 10);
           (u "柱1_24", sample_bucket "柱1" "23.6 MPa" "合格" 236 10);
           (u "柱1_25", sample_bucket "柱1" "24.9 MPa" "合格" 249 10)]
  /\ process_table [] Samples.readings
     = Ok [Samples.item3 "柱1" "23.4" "合格";
           Samples.item3 "柱1" "23.6" "合格";
           Samples.item3 "柱1" "24.9" "合格"].
Proof.
  split; [| split; vm_compute; reflexivity].
  intros location rv item v j m x Hv Hj Hm Hx Hf.
  destruct (py_round_nearest x Hf) as (k & Hk & Hn).
  exists k. split; [exact Hk |]. split; [exact Hn |].
  unfold bucket_step. rewrite Hv, Hj. cbn [getitem bind].
  rewrite Hm, Hx. cbn [bind]. rewrite Hk. reflexivity.
Qed.

Lemma bucket_key_rounding_witness :
  exists k,
    py_round (float_of_ratio 236 10) = Ok k
    /\ nearest_integer (float_of_ratio 236 10) k
    /\ bucket_step (u "柱1") [] (Samples.item3 "柱1" "23.6 MPa" "合格") =
       Ok (bucket_add (u "柱1" ++ u "_" ++ str_of_Z k)
             {| b_location := u "柱1"; b_judgment := u "合格";
                b_values := [];
                b_sample_item := Samples.item3 "柱1" "23.6 MPa" "合格" |}
             (float_of_ratio 236 10) []).
Proof.
  apply (proj1 bucket_key_rounding (u "柱1") []
           (Samples.item3 "柱1" "23.6 MPa" "合格")
           (u "23.6 MPa") (u "合格")
           {| m_start := 0; m_text := u "23.6"; m_caps := [(1, u "23.6")] |}
           (float_of_ratio 236 10)).
  - reflexivity.
  - reflexivity.
  - vm_compute. reflexivity.
  - vm_compute. reflexivity.
  - vm_compute. reflexivity.
Defined.

(** ** Patterns that need a digit *)

Lemma no_digit_tail (a : pychar) (s : pystr) :
  no_digit (a :: s) -> isdecimal a = false /\ no_digit s.
Proof.
  unfold no_digit. cbn [existsb]. now intros H%orb_false_iff.
Qed.

Lemma rep_loop_fails {R} (body : pystr -> caps -> cont R -> option R)
      (lo : nat) (hi : option nat) (greedy : bool) (k : cont R) :
  (forall s c k', no_digit s -> fails_without_digit k' -> body s c k' = None) ->
  fails_without_digit k ->
  forall (fuel cnt : nat) (s : pystr) (c : caps),
    no_digit s -> rep_loop body lo hi greedy k fuel cnt s c = None.
Proof.
  intros Hbody Hk. induction fuel as [| fuel IH]; intros cnt s c Hs;
    [reflexivity |].
  cbn [rep_loop]. rewrite (Hk s c Hs).
  assert (Hmore : body s c (fun s1 c1 =>
            if Nat.ltb (List.length s1) (List.length s)
            then rep_loop body lo hi greedy k fuel (S cnt) s1 c1
            else None) = None).
  { apply Hbody; [exact Hs |]. intros s1 c1 H1.
    destruct (Nat.ltb (List.length s1) (List.length s)); [| reflexivity].
    now apply IH. }
  rewrite Hmore.
  destruct hi as [h |]; [destruct (Nat.ltb cnt h) |];
    destruct (Nat.leb lo cnt); destruct greedy; reflexivity.
Qed.

(** What follows a sub-pattern is run on a rest of the text: when it
    fails on every text without digits, so does the whole. *)
Lemma rmatch_fails {R} (d : bool) (r : regex) :
  forall (s : pystr) (c : caps) (k : cont R),
    no_digit s -> fails_without_digit k -> rmatch d r s c k = None.
Proof.
  induction r as [| ch | | neg items | r1 IH1 r2 IH2 | r1 IH1 r2 IH2
                  | r1 IH1 lo hi greedy | n r1 IH1 |];
    intros s c k Hs Hk; cbn [rmatch].
  - now apply Hk.
  - destruct s as [| a s]; [reflexivity |].
    destruct (a =? ch)%N; [| reflexivity].
    apply Hk. now apply no_digit_tail in Hs.
  - destruct s as [| a s]; [reflexivity |].
    destruct (d || negb (a =? 10)%N); [| reflexivity].
    apply Hk. now apply no_digit_tail in Hs.
  - destruct s as [| a s]; [reflexivity |].
    destruct (cset_has neg items a); [| reflexivity].
    apply Hk. now apply no_digit_tail in Hs.
  - apply IH1; [exact Hs |]. intros s1 c1 H1. now apply IH2.
  - rewrite IH1, IH2 by assumption. reflexivity.
  - now apply rep_loop_fails.
  - apply IH1; [exact Hs |]. intros s1 c1 H1. now apply Hk.
  - destruct s as [| a [| b s]]; [now apply Hk | | reflexivity].
    destruct (a =? 10)%N; [now apply Hk | reflexivity].
Qed.

Lemma digit_items_digit (items : list cls) (a : pychar) :
  forallb digit_item items = true ->
  existsb (cls_has a) items = true -> isdecimal a = true.
Proof.
  induction items as [| i items IH]; [discriminate |].
  cbn [forallb existsb]. intros [Hi Hf]%andb_prop [Ha | He]%orb_prop.
  - destruct i as [ch | lo hi | |]; try discriminate.
    + cbn in Ha, Hi. apply N.eqb_eq in Ha. now subst.
    + exact Ha.
  - now apply IH.
Qed.

(** A pattern that needs a digit matches nowhere in a text without
    digits. *)
Lemma needs_digit_fails {R} (d : bool) (r : regex) :
  needs_digit r = true ->
  forall (s : pystr) (c : caps) (k : cont R),
    no_digit s -> rmatch d r s c k = None.
Proof.
  induction r as [| ch | | neg items | r1 IH1 r2 IH2 | r1 IH1 r2 IH2
                  | r1 IH1 lo hi greedy | n r1 IH1 |];
    cbn [needs_digit]; intros Hn s c k Hs; try discriminate; cbn [rmatch].
  - destruct s as [| a s]; [reflexivity |].
    destruct (N.eqb_spec a ch); [| reflexivity]. subst a.
    apply no_digit_tail in Hs. destruct Hs. congruence.
  - destruct s as [| a s]; [reflexivity |].
    apply andb_prop in Hn. destruct Hn as [Hneg Hitems].
    apply negb_true_iff in Hneg. subst neg.
    unfold cset_has. rewrite xorb_false_l.
    destruct (existsb (cls_has a) items) eqn:E; [| reflexivity].
    apply no_digit_tail in Hs. destruct Hs as [Ha _].
    rewrite (digit_items_digit items a Hitems E) in Ha. discriminate.
  - apply orb_prop in Hn. destruct Hn as [Hn | Hn].
    + now apply IH1.
    + apply rmatch_fails; [exact Hs |]. intros s1 c1 H1. now apply IH2.
  - apply andb_prop in Hn. destruct Hn as [H1 H2].
    rewrite IH1, IH2 by assumption. reflexivity.
  - apply andb_prop in Hn. destruct Hn as [Hlo Hn].
    apply Nat.ltb_lt in Hlo. cbn [rep_loop].
    rewrite (IH1 Hn) by assumption.
    destruct lo as [| lo]; [lia |]. cbn [Nat.leb].
    destruct hi as [h |]; [destruct (Nat.ltb 0 h) |]; destruct greedy;
      reflexivity.
  - now apply IH1.
Qed.

Lemma search_needs_digit (d : bool) (r : regex) :
  needs_digit r = true ->
  forall (s : pystr) (pos : nat),
    no_digit s -> re_search_from d r pos s = None.
Proof.
  intros Hn. induction s as [| a s IH]; intros pos Hs; cbn [re_search_from];
    unfold re_match_at; rewrite (needs_digit_fails d r Hn) by exact Hs.
  - reflexivity.
  - apply IH. now apply no_digit_tail in Hs.
Qed.

Lemma first_some_none {A B} (f : A -> option B) (xs : list A) :
  (forall x, In x xs -> f x = None) -> first_some f xs = None.
Proof.
  induction xs as [| x xs IH]; intros H; [reflexivity |]. simpl.
  rewrite (H x) by now left. apply IH. intros y Hy. apply H. now right.
Qed.

Lemma no_date_pattern (doc_text : pystr) :
  (forall p, In p patterns -> re_search p doc_text = None) ->
  extract_test_date doc_text = u "未知".
Proof.
  intros H. unfold extract_test_date.
  rewrite first_some_none; [reflexivity |].
  intros p Hp. unfold try_pattern. now rewrite (H p Hp).
Qed.

(* ================================================================= *)
(** * Further properties *)

(** ** The matcher returns only what the pattern denotes *)

Section Soundness.

Variable d : bool.
Variable R : Type.

Lemma rep_loop_sound (body : pystr -> caps -> cont R -> option R)
      (step : pystr -> caps -> pystr -> caps -> Prop)
      (lo : nat) (hi : option nat) (greedy : bool) (k : cont R) :
  (forall s c k' x, body s c k' = Some x ->
     exists s1 c1, step s c s1 c1 /\ k' s1 c1 = Some x) ->
  forall (fuel cnt : nat) (s : pystr) (c : caps) (x : R),
    match hi with Some h => cnt <= h | None => True end ->
    rep_loop body lo hi greedy k fuel cnt s c = Some x ->
    exists n s' c',
      iter step n s c s' c' /\ lo <= cnt + n
      /\ match hi with Some h => cnt + n <= h | None => True end
      /\ k s' c' = Some x.
Proof.
  intros Hbody. induction fuel as [| fuel IH]; intros cnt s c x Hhi;
    [discriminate |].
  cbn [rep_loop].
  set (more := if match hi with Some h => Nat.ltb cnt h | None => true end
               then body s c (fun s1 c1 =>
                      if Nat.ltb (List.length s1) (List.length s)
                      then rep_loop body lo hi greedy k fuel (S cnt) s1 c1
                      else None)
               else None).
  set (stop := if Nat.leb lo cnt then k s c else None).
  assert (Hmore : more = Some x ->
    exists n s' c', iter step n s c s' c' /\ lo <= cnt + n
      /\ match hi with Some h => cnt + n <= h | None => True end
      /\ k s' c' = Some x).
  { unfold more. intros Hm.
    assert (Hlt : match hi with Some h => S cnt <= h | None => True end).
    { destruct hi as [h |]; [| exact I].
      destruct (Nat.ltb_spec cnt h); [lia | discriminate]. }
    assert (Hb : body s c (fun s1 c1 =>
                   if Nat.ltb (List.length s1) (List.length s)
                   then rep_loop body lo hi greedy k fuel (S cnt) s1 c1
                   else None) = Some x).
    { destruct hi as [h |]; [destruct (Nat.ltb cnt h) |];
        congruence. }
    destruct (Hbody _ _ _ _ Hb) as (s1 & c1 & Hstep & Hk).
    destruct (Nat.ltb (List.length s1) (List.length s)); [| discriminate].
    destruct (IH (S cnt) s1 c1 x Hlt Hk) as (n & s' & c' & Hi & Hlo & Hh & Hx).
    exists (S n), s', c'. split; [econstructor; eassumption |].
    split; [lia |]. split; [| exact Hx].
    destruct hi; [lia | exact I]. }
  assert (Hstop : stop = Some x ->
    exists n s' c', iter step n s c s' c' /\ lo <= cnt + n
      /\ match hi with Some h => cnt + n <= h | None => True end
      /\ k s' c' = Some x).
  { unfold stop. intros Hs.
    destruct (Nat.leb_spec lo cnt); [| discriminate].
    exists 0, s, c. split; [constructor |]. split; [lia |].
    split; [| exact Hs]. destruct hi; [lia | exact I]. }
  clearbody more stop.
  destruct greedy; unfold or_else.
  - destruct more; [intros [= ->]; now apply Hmore | exact Hstop].
  - destruct stop; [intros [= ->]; now apply Hstop | exact Hmore].
Qed.

(** A successful match hands to its continuation a rest and captures
    that the pattern denotes. *)
Lemma rmatch_sound (r : regex) :
  forall (s : pystr) (c : caps) (k : cont R) (x : R),
    rmatch d r s c k = Some x ->
    exists s' c', denotes d r s c s' c' /\ k s' c' = Some x.
Proof.
  induction r as [| ch | | neg items | r1 IH1 r2 IH2 | r1 IH1 r2 IH2
                  | r1 IH1 lo hi greedy | n r1 IH1 |];
    intros s c k x; cbn [rmatch denotes].
  - intros H. now exists s, c.
  - destruct s as [| a s]; [discriminate |].
    destruct (N.eqb_spec a ch); [| discriminate]. subst a.
    intros H. now exists s, c.
  - destruct s as [| a s]; [discriminate |].
    destruct (d || negb (a =? 10)%N) eqn:E; [| discriminate].
    intros H. exists s, c. split; [| exact H]. now exists a.
  - destruct s as [| a s]; [discriminate |].
    destruct (cset_has neg items a) eqn:E; [| discriminate].
    intros H. exists s, c. split; [| exact H]. now exists a.
  - intros H. destruct (IH1 _ _ _ _ H) as (s1 & c1 & H1 & H').
    destruct (IH2 _ _ _ _ H') as (s2 & c2 & H2 & Hk).
    exists s2, c2. split; [| exact Hk]. now exists s1, c1.
  - unfold or_else. destruct (rmatch d r1 s c k) as [y |] eqn:E.
    + intros [= ->]. destruct (IH1 _ _ _ _ E) as (s' & c' & H1 & Hk).
      exists s', c'. split; [now left | exact Hk].
    + intros H. destruct (IH2 _ _ _ _ H) as (s' & c' & H2 & Hk).
      exists s', c'. split; [now right | exact Hk].
  - intros H.
    destruct (rep_loop_sound (rmatch d r1) (denotes d r1) lo hi greedy k
                IH1 (S (List.length s)) 0 s c x) as (n & s' & c' & Hi & Hlo
                                                     & Hh & Hk).
    + destruct hi; [lia | exact I].
    + exact H.
    + exists s', c'. split; [| exact Hk]. exists n.
      split; [lia |]. split; [| exact Hi]. destruct hi; [lia | exact I].
  - intros H. destruct (IH1 _ _ _ _ H) as (s' & c' & H1 & Hk).
    eexists s', _. split; [| exact Hk]. now exists c'.
  - destruct s as [| a [| b s]].
    + intros H. exists [], c. repeat split; auto.
    + destruct (N.eqb_spec a 10); [| discriminate]. subst a.
      intros H. exists [10%N], c. repeat split; auto.
    + discriminate.
Qed.

End Soundness.

Lemma iter_prefix (step : pystr -> caps -> pystr -> caps -> Prop) :
  (forall s c s' c', step s c s' c' -> exists pre, s = pre ++ s') ->
  forall n s c s' c', iter step n s c s' c' -> exists pre, s = pre ++ s'.
Proof.
  intros Hstep n s c s' c' Hi.
  induction Hi as [s0 c0 | n s0 c0 s1 c1 s2 c2 Hs _ IH].
  - now exists [].
  - destruct (Hstep _ _ _ _ Hs) as [p1 ->]. destruct IH as [p2 ->].
    exists (p1 ++ p2). now rewrite app_assoc.
Qed.

(** What a pattern matches is a prefix of the text. *)
Lemma denotes_prefix (d : bool) (r : regex) :
  forall (s : pystr) (c : caps) (s' : pystr) (c' : caps),
    denotes d r s c s' c' -> exists pre, s = pre ++ s'.
Proof.
  induction r as [| ch | | neg items | r1 IH1 r2 IH2 | r1 IH1 r2 IH2
                  | r1 IH1 lo hi greedy | n r1 IH1 |];
    intros s c s' c'; cbn [denotes].
  - intros [-> _]. now exists [].
  - intros [-> _]. now exists [ch].
  - intros (a & -> & _). now exists [a].
  - intros (a & -> & _). now exists [a].
  - intros (s1 & c1 & H1 & H2).
    destruct (IH1 _ _ _ _ H1) as [p1 ->].
    destruct (IH2 _ _ _ _ H2) as [p2 ->].
    exists (p1 ++ p2). now rewrite app_assoc.
  - intros [H | H]; eauto.
  - intros (n & _ & _ & Hi). now apply (iter_prefix _ IH1 _ _ _ _ _ Hi).
  - intros (c1 & H & _). eauto.
  - intros (-> & _). now exists [].
Qed.

Lemma firstn_prefix (pre s' : pystr) :
  firstn (List.length (pre ++ s') - List.length s') (pre ++ s') = pre.
Proof.
  rewrite length_app, Nat.add_sub. rewrite firstn_app, Nat.sub_diag.
  rewrite firstn_all. simpl. apply app_nil_r.
Qed.

(** A group captures the text that its pattern matched. *)
Lemma denotes_group (d : bool) (n : nat) (r : regex) (s : pystr) (c : caps)
      (s' : pystr) (c' : caps) :
  denotes d (Group n r) s c s' c' ->
  exists pre c1, s = pre ++ s' /\ c' = (n, pre) :: c1
                 /\ denotes d r s c s' c1.
Proof.
  cbn [denotes]. intros (c1 & H & ->).
  destruct (denotes_prefix d r _ _ _ _ H) as [pre ->].
  exists pre, c1. rewrite firstn_prefix. auto.
Qed.

Lemma denotes_last_part (d : bool) (r : regex) :
  forall (s : pystr) (c : caps) (s' : pystr) (c' : caps),
    denotes d r s c s' c' ->
    exists s1 c1, denotes d (last_part r) s1 c1 s' c'.
Proof.
  induction r as [| ch | | neg items | r1 IH1 r2 IH2 | r1 IH1 r2 IH2
                  | r1 IH1 lo hi greedy | n r1 IH1 |];
    intros s c s' c' H; try (now exists s, c).
  cbn [denotes last_part] in *. destruct H as (s1 & c1 & _ & H2). eauto.
Qed.

(** Match objects come from matches of the pattern. *)
Lemma re_match_at_sound (d : bool) (r : regex) (pos : nat) (s : pystr)
      (m : rmatch_obj) :
  re_match_at d r pos s = Some m ->
  exists s', denotes d r s [] s' (m_caps m).
Proof.
  unfold re_match_at. intros H.
  destruct (rmatch_sound d _ r _ _ _ _ H) as (s' & c' & Hd & [= <-]).
  now exists s'.
Qed.

Lemma re_search_from_sound (d : bool) (r : regex) (s : pystr) :
  forall (pos : nat) (m : rmatch_obj),
    re_search_from d r pos s = Some m ->
    exists skipped s0 s',
      s = skipped ++ s0 /\ denotes d r s0 [] s' (m_caps m).
Proof.
  induction s as [| a s IH]; intros pos m; cbn [re_search_from].
  - destruct (re_match_at d r pos []) as [m' |] eqn:E; [| discriminate].
    intros [= <-]. destruct (re_match_at_sound _ _ _ _ _ E) as [s' H].
    now exists [], [], s'.
  - destruct (re_match_at d r pos (a :: s)) as [m' |] eqn:E.
    + intros [= <-]. destruct (re_match_at_sound _ _ _ _ _ E) as [s' H].
      now exists [], (a :: s), s'.
    + intros H. destruct (IH _ _ H) as (sk & s0 & s' & -> & Hd).
      now exists (a :: sk), s0, s'.
Qed.

(** When the last part of a pattern is a group, the group of a match is a
    text that the pattern of the group denotes. *)
Lemma search_last_group (d : bool) (r : regex) (n : nat) (g : regex)
      (pos : nat) (s : pystr) (m : rmatch_obj) :
  last_part r = Group n g ->
  re_search_from d r pos s = Some m ->
  exists c1 s' c', denotes d g (mgroup n m ++ s') c1 s' c'.
Proof.
  intros Hl H.
  destruct (re_search_from_sound d r s pos m H) as (sk & s0 & s' & _ & Hd).
  destruct (denotes_last_part d r _ _ _ _ Hd) as (s1 & c1 & Hg).
  rewrite Hl in Hg.
  destruct (denotes_group d n g _ _ _ _ Hg) as (pre & c2 & -> & Hc & Hg').
  unfold mgroup. rewrite Hc. cbn [group]. rewrite Nat.eqb_refl.
  now exists c1, s', c2.
Qed.

(** ** Runs of a character set *)

Lemma iter_set (d neg : bool) (items : list cls) (n : nat) (s : pystr)
      (c : caps) (s' : pystr) (c' : caps) :
  iter (denotes d (CSet neg items)) n s c s' c' ->
  exists pre, s = pre ++ s' /\ List.length pre = n
              /\ forallb (cset_has neg items) pre = true /\ c' = c.
Proof.
  intros Hi. induction Hi as [s0 c0 | n s0 c0 s1 c1 s2 c2 Hs _ IH].
  - now exists [].
  - cbn [denotes] in Hs. destruct Hs as (a & -> & Ha & ->).
    destruct IH as (pre & -> & Hl & Hf & ->).
    exists (a :: pre). cbn [forallb List.length app]. rewrite Ha, Hf, Hl.
    auto.
Qed.

(** A repeat of a character set matches a run of characters of the
    set, of a length within its bounds, and captures nothing. *)
Lemma denotes_rep_set (d neg : bool) (items : list cls) (lo : nat)
      (hi : option nat) (greedy : bool) (s : pystr) (c : caps)
      (s' : pystr) (c' : caps) :
  denotes d (Rep (CSet neg items) lo hi greedy) s c s' c' ->
  exists pre, s = pre ++ s' /\ lo <= List.length pre
              /\ match hi with Some h => List.length pre <= h | None => True end
              /\ forallb (cset_has neg items) pre = true /\ c' = c.
Proof.
  intros (n & Hlo & Hhi & Hi).
  destruct (iter_set d neg items n s c s' c' Hi)
    as (pre & -> & Hl & Hf & ->).
  exists pre. rewrite Hl. auto.
Qed.

Lemma first_some_some {A B} (f : A -> option B) (xs : list A) (y : B) :
  first_some f xs = Some y -> exists x, In x xs /\ f x = Some y.
Proof.
  induction xs as [| x xs IH]; [discriminate |]. simpl.
  destruct (f x) as [z |] eqn:E.
  - intros [= <-]. exists x. auto.
  - intros H. destruct (IH H) as (x' & Hx & Hf). exists x'. auto.
Qed.

(** ** Trimming, again *)

Lemma lstrip_id (s : pystr) :
  match s with [] => True | a :: _ => isspace a = false end ->
  lstrip s = s.
Proof. destruct s as [| a s]; [reflexivity |]. simpl. now intros ->. Qed.

Lemma strip_no_space (s : pystr) :
  forallb (fun c => negb (isspace c)) s = true -> strip s = s.
Proof.
  intros H. unfold strip, rstrip.
  rewrite (lstrip_id s).
  - rewrite lstrip_id; [apply rev_involutive |].
    rewrite <- forallb_rev in H.
    destruct (rev s) as [| a r]; [exact I |].
    cbn [forallb] in H. apply andb_prop in H. destruct H as [H _].
    now apply negb_true_iff.
  - destruct s as [| a r]; [exact I |].
    cbn [forallb] in H. apply andb_prop in H. destruct H as [H _].
    now apply negb_true_iff.
Qed.

Lemma lstrip_suffix (s : pystr) : exists w, s = w ++ lstrip s.
Proof.
  induction s as [| a s [w IH]]; [now exists [] |]. simpl.
  destruct (isspace a); [| now exists []].
  exists (a :: w). simpl. now rewrite <- IH.
Qed.

Lemma strip_infix (s : pystr) : exists w1 w2, s = w1 ++ strip s ++ w2.
Proof.
  unfold strip, rstrip.
  destruct (lstrip_suffix s) as [w1 H1].
  destruct (lstrip_suffix (rev (lstrip s))) as [w2 H2].
  exists w1, (rev w2). rewrite <- rev_app_distr, <- H2, rev_involutive.
  exact H1.
Qed.

Lemma strip_in (s : pystr) (c : pychar) : In c (strip s) -> In c s.
Proof.
  intros H. destruct (strip_infix s) as (w1 & w2 & E). rewrite E.
  apply in_or_app. right. apply in_or_app. now left.
Qed.

(** The result of [strip] neither begins nor ends with whitespace. *)
Lemma strip_trimmed (s : pystr) : trimmed (strip s).
Proof.
  unfold trimmed, strip, rstrip.
  destruct (lstrip_head (rev (lstrip s))) as [E | (b & z & E & Hb)];
    rewrite E; [now left | right].
  cbn [rev].
  destruct (lstrip_suffix (rev (lstrip s))) as [w Hw]. rewrite E in Hw.
  apply (f_equal (@rev pychar)) in Hw.
  rewrite rev_involutive, rev_app_distr in Hw. cbn [rev] in Hw.
  destruct (lstrip_head s) as [E0 | (a & y & E0 & Ha)].
  { rewrite E0 in Hw. destruct (rev z); discriminate. }
  rewrite E0 in Hw.
  destruct (rev z) as [| a' mid] eqn:Ez.
  - exists b, b, []. cbn [app] in *. injection Hw as -> _. auto.
  - exists a', b, mid. cbn [app] in *. injection Hw as -> _. auto.
Qed.

(** ** [extract_report_number] and [extract_sample_name] *)

Lemma report_char_no_space (c : pychar) :
  report_char c = true -> isspace c = false.
Proof.
  unfold report_char, isspace.
  rewrite !orb_true_iff, !andb_true_iff, !N.leb_le, N.eqb_eq.
  intros H.
  repeat (apply orb_false_iff; split);
    rewrite ?andb_false_iff, ?N.leb_gt, ?N.eqb_neq; lia.
Qed.

Lemma number_chars_set (c : pychar) :
  cset_has false [CRange (uc "A") (uc "Z"); CRange (uc "a") (uc "z");
                  CRange (uc "0") (uc "9"); CChr (uc "-")] c
  = report_char c.
Proof.
  unfold cset_has, report_char. cbn [existsb cls_has].
  rewrite xorb_false_l, orb_false_r, !orb_assoc. reflexivity.
Qed.

Lemma first_group_some (patterns : list regex) (doc_text : pystr) :
  (exists p m, In p patterns /\ re_search p doc_text = Some m
               /\ first_group patterns doc_text = strip (mgroup 1 m))
  \/ ((forall p, In p patterns -> re_search p doc_text = None)
      /\ first_group patterns doc_text = []).
Proof.
  unfold first_group.
  destruct (first_some (fun p => re_search p doc_text) patterns) as [m |] eqn:E.
  - left. destruct (first_some_some _ _ _ E) as (p & Hp & Hm).
    now exists p, m.
  - right. split; [| reflexivity].
    induction patterns as [| p ps IH]; [intros ? [] |].
    simpl in E. destruct (re_search p doc_text) eqn:Ep; [discriminate |].
    intros q [<- | Hq]; [exact Ep | now apply IH].
Qed.

Lemma forallb_impl (p q : pychar -> bool) (s : pystr) :
  (forall c, p c = true -> q c = true) ->
  forallb p s = true -> forallb q s = true.
Proof.
  intros H. induction s as [| a s IH]; [reflexivity |]. cbn [forallb].
  intros [Ha Hs]%andb_prop. now rewrite (H a Ha), IH.
Qed.

(** The group of a match of a field pattern is a run of the characters
    of its value. *)
Lemma field_group (label : string) (neg : bool) (items : list cls)
      (doc_text : pystr) (m : rmatch_obj) :
  re_search (field label (plus (CSet neg items))) doc_text = Some m ->
  mgroup 1 m <> []
  /\ forallb (cset_has neg items) (mgroup 1 m) = true.
Proof.
  intros H.
  assert (Hl : last_part (field label (plus (CSet neg items)))
               = Group 1 (plus (CSet neg items))).
  { unfold field. generalize (u label). intros l.
    induction l as [| a l IH]; [reflexivity | exact IH]. }
  destruct (search_last_group false _ 1 _ 0 doc_text m Hl H)
    as (c1 & s' & c' & Hd).
  destruct (denotes_rep_set _ _ _ _ _ _ _ _ _ _ Hd)
    as (pre & E & Hlen & _ & Hf & _).
  apply app_inv_tail in E. subst pre.
  split; [| exact Hf]. destruct (mgroup 1 m); [simpl in Hlen; lia | easy].
Qed.

(** X1. [extract_report_number] returns the empty string exactly when
    none of its three patterns is found in the text; what it returns is
    made of ASCII letters, digits and hyphens only. *)
Theorem report_number_shape (doc_text : pystr) :
  (extract_report_number doc_text = [] <->
   forall p, In p report_number_patterns -> re_search p doc_text = None)
  /\ forallb report_char (extract_report_number doc_text) = true.
Proof.
  change (extract_report_number doc_text)
    with (first_group report_number_patterns doc_text).
  destruct (first_group_some report_number_patterns doc_text)
    as [(p & m & Hp & Hm & ->) | [Hnone ->]].
  - assert (Hg : mgroup 1 m <> []
                 /\ forallb report_char (mgroup 1 m) = true).
    { unfold report_number_patterns, number_chars in Hp.
      destruct Hp as [<- | [<- | [<- | []]]];
        destruct (field_group _ _ _ _ _ Hm) as [Hne Hf];
        (split; [exact Hne |]);
        (eapply forallb_impl; [| exact Hf]);
        intros c Hc; now rewrite number_chars_set in Hc. }
    destruct Hg as [Hne Hf].
    rewrite strip_no_space.
    + split; [| exact Hf]. split; [contradiction |].
      intros Hall. rewrite (Hall p Hp) in Hm. discriminate.
    + eapply forallb_impl; [| exact Hf].
      intros c Hc. now rewrite (report_char_no_space c Hc).
  - split; [| reflexivity]. split; auto.
Qed.

Lemma report_number_shape_witness :
  extract_report_number (u "检测报告 报告编号：JC-2024-018 (第1页)")
  = u "JC-2024-018"
  /\ extract_report_number (u "报告编号：（无）") = [].
Proof.
  split; [vm_compute; reflexivity |].
  apply (proj1 (report_number_shape (u "报告编号：（无）"))).
  intros p Hp.
  repeat (destruct Hp as [<- | Hp]; [vm_compute; reflexivity |]).
  destruct Hp.
Defined.

(** X2. [extract_sample_name] returns one line, trimmed: no line break
    is in it, and it neither begins nor ends with whitespace. *)
Theorem sample_name_shape (doc_text : pystr) :
  (forall c, In c (extract_sample_name doc_text) -> line_break c = false)
  /\ trimmed (extract_sample_name doc_text).
Proof.
  change (extract_sample_name doc_text)
    with (first_group sample_name_patterns doc_text).
  destruct (first_group_some sample_name_patterns doc_text)
    as [(p & m & Hp & Hm & ->) | [_ ->]].
  - split; [| apply strip_trimmed].
    intros c Hc%strip_in.
    assert (Hf : forallb (cset_has true [CChr nl; CChr 13%N]) (mgroup 1 m)
                 = true).
    { unfold sample_name_patterns, line_chars in Hp.
      destruct Hp as [<- | [<- | [<- | []]]];
        now destruct (field_group _ _ _ _ _ Hm). }
    rewrite forallb_forall in Hf. specialize (Hf c Hc).
    unfold cset_has in Hf. cbn [existsb cls_has] in Hf.
    unfold line_break, nl in *.
    destruct (c =? 10)%N, (c =? 13)%N; simpl in *; congruence.
  - split; [intros c [] | now left].
Qed.

Lemma sample_name_shape_witness :
  line_break (uc "土") = false
  /\ extract_sample_name (u "样品名称：  C30 混凝土 ") = u "C30 混凝土".
Proof.
  split; [| vm_compute; reflexivity].
  apply (proj1 (sample_name_shape (u "样品名称：  C30 混凝土 "))).
  vm_compute. tauto.
Defined.

(** ** The shape of what [extract_test_date] returns *)

Lemma denotes_digits (d : bool) (lo hi : nat) (s : pystr) (c : caps)
      (s' : pystr) (c' : caps) :
  denotes d (times lo hi digit) s c s' c' ->
  exists pre, s = pre ++ s' /\ lo <= List.length pre <= hi
              /\ forallb isdecimal pre = true /\ c' = c.
Proof.
  unfold times, digit. intros H.
  destruct (denotes_rep_set _ _ _ _ _ _ _ _ _ _ H)
    as (pre & -> & Hlo & Hhi & Hf & ->).
  exists pre. repeat split; auto.
  eapply forallb_impl; [| exact Hf]. intros a Ha. now rewrite cset_digit in Ha.
Qed.

Lemma ymd_text_denotes (s : pystr) (c : caps) (s' : pystr) (c' : caps) :
  denotes false ymd_text s c s' c' ->
  exists y m dd,
    s = (y ++ uc "年" :: m ++ uc "月" :: dd ++ [uc "日"]) ++ s'.
Proof.
  unfold ymd_text. intros (s1 & c1 & H1 & s2 & c2 & H2 & s3 & c3 & H3
                           & s4 & c4 & H4 & s5 & c5 & H5 & H6).
  apply denotes_digits in H1, H3, H5.
  destruct H1 as (y & -> & _). destruct H3 as (m & -> & _).
  destruct H5 as (dd & -> & _).
  cbn [denotes] in H2, H4, H6.
  destruct H2 as [-> _]. destruct H4 as [-> _]. destruct H6 as [-> _].
  exists y, m, dd.
  repeat (progress (rewrite <- ?app_assoc; cbn [app])). reflexivity.
Qed.

Lemma ymd_dash_denotes (s : pystr) (c : caps) (s' : pystr) (c' : caps) :
  denotes false ymd_dash s c s' c' ->
  exists y m dd,
    s = (y ++ uc "-" :: m ++ uc "-" :: dd) ++ s'
    /\ List.length y = 4 /\ 1 <= List.length m <= 2
    /\ 1 <= List.length dd <= 2
    /\ forallb isdecimal y = true /\ forallb isdecimal m = true
    /\ forallb isdecimal dd = true.
Proof.
  unfold ymd_dash. intros (s1 & c1 & H1 & s2 & c2 & H2 & s3 & c3 & H3
                           & s4 & c4 & H4 & H5).
  apply denotes_digits in H1, H3, H5.
  destruct H1 as (y & -> & Hy & Fy & _). destruct H3 as (m & -> & Hm & Fm & _).
  destruct H5 as (dd & -> & Hd & Fd & _).
  cbn [denotes] in H2, H4. destruct H2 as [-> _]. destruct H4 as [-> _].
  exists y, m, dd. repeat split; try assumption; try lia.
  repeat (progress (rewrite <- ?app_assoc; cbn [app])). reflexivity.
Qed.

Lemma ymd_groups_denotes (s s' : pystr) (c' : caps) :
  denotes false ymd_groups s [] s' c' ->
  exists y m dd,
    c' = [(3, dd); (2, m); (1, y)]
    /\ List.length y = 4 /\ 1 <= List.length m <= 2
    /\ 1 <= List.length dd <= 2
    /\ forallb isdecimal y = true /\ forallb isdecimal m = true
    /\ forallb isdecimal dd = true.
Proof.
  unfold ymd_groups. intros (s1 & c1 & H1 & s2 & c2 & H2 & s3 & c3 & H3
                             & s4 & c4 & H4 & s5 & c5 & H5 & H6).
  apply denotes_group in H1, H3, H5.
  destruct H1 as (y & c1' & -> & -> & H1).
  destruct H3 as (m & c3' & -> & -> & H3).
  destruct H5 as (dd & c5' & -> & -> & H5).
  apply denotes_digits in H1, H3, H5.
  destruct H1 as (y' & E1 & Hy & Fy & ->).
  destruct H3 as (m' & E3 & Hm & Fm & ->).
  destruct H5 as (dd' & E5 & Hd & Fd & ->).
  apply app_inv_tail in E1, E3, E5. subst y' m' dd'.
  cbn [denotes] in H2, H4, H6.
  destruct H2 as [_ ->]. destruct H4 as [_ ->]. destruct H6 as [_ ->].
  exists y, m, dd. repeat split; try assumption; lia.
Qed.

Lemma isdecimal_hyphen (c : pychar) : isdecimal c = true -> (c =? uc "-")%N = false.
Proof.
  intros H. destruct (N.eqb_spec c (uc "-")) as [-> |]; [| reflexivity].
  discriminate.
Qed.

Lemma split_on_digits (y : pystr) :
  forallb isdecimal y = true -> split_on (uc "-") y = [y].
Proof.
  induction y as [| a y IH]; [reflexivity |]. cbn [forallb split_on].
  intros [Ha Hy]%andb_prop. rewrite (isdecimal_hyphen a Ha), (IH Hy).
  reflexivity.
Qed.

Lemma split_on_digits_hyphen (y rest : pystr) :
  forallb isdecimal y = true ->
  split_on (uc "-") (y ++ uc "-" :: rest) = y :: split_on (uc "-") rest.
Proof.
  induction y as [| a y IH]; cbn [forallb split_on app].
  - intros _. now rewrite N.eqb_refl.
  - intros [Ha Hy]%andb_prop. rewrite (isdecimal_hyphen a Ha), (IH Hy).
    reflexivity.
Qed.

Lemma zfill_two (m : pystr) :
  1 <= List.length m <= 2 -> forallb isdecimal m = true ->
  List.length (zfill 2 m) = 2 /\ forallb isdecimal (zfill 2 m) = true.
Proof.
  intros Hl Hf. unfold zfill.
  destruct m as [| a [| b [| ? ?]]]; simpl in Hl; try lia; simpl.
  - simpl in Hf. rewrite Hf. auto.
  - split; [reflexivity | exact Hf].
Qed.

Lemma date_pattern_last (p : regex) :
  In p patterns ->
  last_part p = Group 1 ymd_text \/ last_part p = Group 1 ymd_dash.
Proof.
  unfold patterns. intros H.
  repeat (destruct H as [<- | H]; [(now left) || (now right) |]).
  destruct H.
Qed.

Lemma try_pattern_shape (doc_text : pystr) (p : regex) (d : pystr) :
  In p patterns -> try_pattern doc_text p = Some d -> date_shape d.
Proof.
  intros Hp. unfold try_pattern.
  destruct (re_search p doc_text) as [m |] eqn:Em; [| discriminate].
  destruct (contains (u "年") (mgroup 1 m)) eqn:Ec.
  - destruct (re_match ymd_groups (mgroup 1 m)) as [dm |] eqn:Ed;
      [| discriminate].
    intros [= <-].
    destruct (re_match_at_sound _ _ _ _ _ Ed) as [s' Hd].
    destruct (ymd_groups_denotes _ _ _ Hd)
      as (y & mo & dd & Hc & Ly & Lm & Ld & Fy & Fm & Fd).
    unfold mgroup. rewrite Hc. cbn [group Nat.eqb].
    destruct (zfill_two mo Lm Fm) as [Lm' Fm'].
    destruct (zfill_two dd Ld Fd) as [Ld' Fd'].
    exists y, (zfill 2 mo), (zfill 2 dd). repeat split; assumption.
  - assert (Hs : exists y mo dd,
               mgroup 1 m = y ++ uc "-" :: mo ++ uc "-" :: dd
               /\ List.length y = 4 /\ 1 <= List.length mo <= 2
               /\ 1 <= List.length dd <= 2
               /\ forallb isdecimal y = true /\ forallb isdecimal mo = true
               /\ forallb isdecimal dd = true).
    { destruct (date_pattern_last p Hp) as [Hl | Hl];
        destruct (search_last_group false p 1 _ 0 doc_text m Hl Em)
          as (c1 & s' & c' & Hd).
      - exfalso. destruct (ymd_text_denotes _ _ _ _ Hd) as (y & mo & dd & E).
        apply app_inv_tail in E.
        assert (contains (u "年") (mgroup 1 m) = true); [| congruence].
        apply contains_spec. exists y, (mo ++ uc "月" :: dd ++ [uc "日"]).
        rewrite E. reflexivity.
      - destruct (ymd_dash_denotes _ _ _ _ Hd) as (y & mo & dd & E & H).
        apply app_inv_tail in E. now exists y, mo, dd. }
    destruct Hs as (y & mo & dd & -> & Ly & Lm & Ld & Fy & Fm & Fd).
    rewrite (split_on_digits_hyphen y _ Fy),
      (split_on_digits_hyphen mo _ Fm), (split_on_digits dd Fd).
    intros [= <-].
    destruct (zfill_two mo Lm Fm) as [Lm' Fm'].
    destruct (zfill_two dd Ld Fd) as [Ld' Fd'].
    exists y, (zfill 2 mo), (zfill 2 dd). repeat split; assumption.
Qed.

(** X3. [extract_test_date] returns the sentinel or a date of the form
    YYYY-MM-DD: four decimal digits, two and two, joined by hyphens. *)
Theorem test_date_shape (doc_text : pystr) :
  extract_test_date doc_text = u "未知"
  \/ date_shape (extract_test_date doc_text).
Proof.
  unfold extract_test_date.
  destruct (first_some (try_pattern doc_text) patterns) as [d |] eqn:E;
    [right | now left].
  destruct (first_some_some _ _ _ E) as (p & Hp & Hd).
  now apply (try_pattern_shape doc_text p).
Qed.

(** ** The text fallback keeps the invariant of records *)

Lemma denotes_lit (d : bool) (l : pystr) (r : regex) :
  forall (s : pystr) (c : caps) (s' : pystr) (c' : caps),
    denotes d (lit l r) s c s' c' ->
    exists s1, s = l ++ s1 /\ denotes d r s1 c s' c'.
Proof.
  induction l as [| a l IH]; intros s c s' c'; cbn [lit].
  - intros H. now exists s.
  - intros (s1 & c1 & H1 & H2). cbn [denotes] in H1.
    destruct H1 as [-> ->]. destruct (IH _ _ _ _ H2) as (s2 & -> & H).
    now exists s2.
Qed.

Lemma denotes_str (d : bool) (x : string) (s : pystr) (c : caps)
      (s' : pystr) (c' : caps) :
  denotes d (str x) s c s' c' -> s = u x ++ s'.
Proof.
  unfold str. intros H. destruct (denotes_lit _ _ _ _ _ _ _ H) as (s1 & -> & H1).
  cbn [denotes] in H1. now destruct H1 as [-> _].
Qed.

Lemma findall_from_in (d : bool) (r : regex) (m : rmatch_obj) :
  forall (fuel : nat) (s : pystr),
    In m (findall_from fuel d r s) ->
    exists s0, re_search_from d r 0 s0 = Some m.
Proof.
  induction fuel as [| fuel IH]; intros s; cbn [findall_from]; [intros [] |].
  destruct (re_search_from d r 0 s) as [m' |] eqn:E; [| intros []].
  intros [<- | H]; [now exists s | now apply (IH _ H)].
Qed.

(** The last group of a match of a strength pattern is a verdict. *)
Lemma verdict_group (r : regex) (n : nat) (s : pystr) (m : rmatch_obj) :
  last_part r = Group n (Alt (str "合格") (str "不合格")) ->
  In m (re_findall true r s) -> verdict (mgroup n m).
Proof.
  intros Hl Hm. unfold re_findall in Hm.
  destruct (findall_from_in _ _ _ _ _ Hm) as [s0 Hs].
  destruct (search_last_group true r n _ 0 s0 m Hl Hs) as (c1 & s' & c' & Hd).
  destruct Hd as [Hd | Hd]; apply denotes_str in Hd;
    apply app_inv_tail in Hd; [now left | now right].
Qed.

Lemma verdict_not_blank (s : pystr) : verdict s -> blank s = false.
Proof. now intros [-> | ->]. Qed.

Lemma blank_app_l (a b : pystr) : blank a = false -> blank (a ++ b) = false.
Proof. unfold blank. intros H. now rewrite forallb_app, H. Qed.

Lemma blank_app_r (a b : pystr) : blank b = false -> blank (a ++ b) = false.
Proof. unfold blank. intros H. now rewrite forallb_app, H, andb_false_r. Qed.

Lemma mk_item_ok (ti mv jd : pystr) :
  blank ti = false -> blank mv = false -> blank jd = false ->
  ti <> placeholder -> startswith placeholder_prefix ti = false ->
  record_ok (mk_item ti mv jd).
Proof. intros. exists ti, mv, jd. cbn. auto 10. Qed.

Lemma generic_items_ok (doc_text : pystr) :
  Forall record_ok (generic_items doc_text).
Proof.
  unfold generic_items. apply Forall_flat_map, Forall_forall. intros m _.
  destruct (valid_fields (strip (mgroup 1 m)) (strip (mgroup 2 m))
                         (strip (mgroup 3 m))) eqn:E; [| constructor].
  constructor; [| constructor].
  apply valid_record; try apply clean_strip. exact E.
Qed.

Lemma concrete_items_ok (doc_text : pystr) :
  Forall record_ok (concrete_items doc_text).
Proof.
  unfold concrete_items. apply Forall_map, Forall_forall. intros m Hm.
  pose proof (verdict_group concrete_pattern 2 doc_text m eq_refl Hm) as Hv.
  apply mk_item_ok.
  - reflexivity.
  - now apply blank_app_r.
  - now apply verdict_not_blank.
  - discriminate.
  - reflexivity.
Qed.

Lemma table_items_ok (doc_text : pystr) :
  Forall record_ok (table_items doc_text).
Proof.
  unfold table_items. apply Forall_map, Forall_forall. intros m Hm.
  pose proof (verdict_group table_pattern 4 doc_text m eq_refl Hm) as Hv.
  apply mk_item_ok.
  - now apply blank_app_l.
  - now apply blank_app_r.
  - now apply verdict_not_blank.
  - intros H. apply (f_equal (hd 0%N)) in H. discriminate.
  - reflexivity.
Qed.

Lemma extract_from_text_ok (doc_text : pystr) :
  Forall record_ok (extract_from_text doc_text).
Proof.
  unfold extract_from_text. rewrite !Forall_app.
  auto using generic_items_ok, concrete_items_ok, table_items_ok.
Qed.

(** X4. Every record of the text fallback has its three fields present
    and not blank, and an item that is neither the placeholder nor
    begins with its prefix; the verdict of a record of the two strength
    patterns is one of the two verdicts. *)
Theorem fallback_records_valid (doc_text : pystr) :
  Forall record_ok (extract_from_text doc_text)
  /\ Forall (fun it => exists v, judgment it = Some v /\ verdict v)
            (concrete_items doc_text ++ table_items doc_text).
Proof.
  split.
  - apply extract_from_text_ok.
  - rewrite Forall_app. unfold concrete_items, table_items.
    split; apply Forall_map, Forall_forall; intros m Hm;
      eexists; (split; [reflexivity |]).
    + exact (verdict_group concrete_pattern 2 doc_text m eq_refl Hm).
    + exact (verdict_group table_pattern 4 doc_text m eq_refl Hm).
Qed.

(** ** The records of a document *)

Lemma extract_table_data_ok (doc : document) (evs : list event)
      (recs : list item_data) :
  extract_table_data doc = (evs, Ok recs) -> Forall record_ok recs.
Proof.
  unfold extract_table_data.
  destruct (scan_tables [] (tables doc)) as [[| x xs] | e] eqn:E;
    intros [= _ <-].
  - apply extract_from_text_ok.
  - now apply (scan_tables_ok (tables doc)).
Qed.

Lemma process_document_some (file_name : pystr) (doc : document)
      (recs : list detection_record) :
  snd (process_document file_name (Ok doc)) = Some recs ->
  exists evs items,
    extract_table_data doc = (evs, Ok items) /\ items <> []
    /\ recs = map (stamp doc) items.
Proof.
  unfold process_document.
  destruct (extract_table_data doc) as [evs [[| x xs] | e]] eqn:E;
    cbn [snd fst]; try discriminate.
  intros [= <-]. exists evs, (x :: xs). split; [reflexivity |].
  split; [discriminate | reflexivity].
Qed.

Lemma stamp_ok (doc : document) (items : list item_data) :
  Forall record_ok items -> Forall detection_ok (map (stamp doc) items).
Proof.
  intros Hok. apply Forall_forall. intros dr Hin.
  apply in_map_iff in Hin. destruct Hin as (it & <- & Hit).
  rewrite Forall_forall in Hok.
  destruct (Hok it Hit) as (ti & mv & jd & Eti & Emv & Ejd & H').
  unfold detection_ok, stamp. cbn. now rewrite Eti, Emv, Ejd.
Qed.

(** X5. When [process_document] returns records, there is at least one,
    each has an item, a value and a judgment that are not blank (and an
    item that is not a placeholder), and all carry the report number, the
    sample name and the date read from the text of the document. *)
Theorem document_records_valid (file_name : pystr) (doc : document)
        (recs : list detection_record) :
  snd (process_document file_name (Ok doc)) = Some recs ->
  recs <> []
  /\ Forall detection_ok recs
  /\ Forall (fun dr =>
       report_number dr = extract_report_number (document_text doc)
       /\ sample_name dr = extract_sample_name (document_text doc)
       /\ test_date dr = extract_test_date (document_text doc)) recs.
Proof.
  intros H.
  destruct (process_document_some file_name doc recs H)
    as (evs & items & E & Hne & ->).
  pose proof (extract_table_data_ok doc evs items E) as Hok.
  split; [destruct items; [congruence | discriminate] |].
  split; [now apply stamp_ok |].
  apply Forall_forall. intros dr Hin. apply in_map_iff in Hin.
  destruct Hin as (it & <- & Hit). now unfold stamp.
Qed.

Lemma document_records_valid_witness :
  Forall detection_ok
    [stamp (Build_document [u "报告编号：A-1"] [Samples.other_table])
           (Samples.item3 "梁2" "30.1" "不合格")].
Proof.
  apply (document_records_valid (u "a.docx")
           (Build_document [u "报告编号：A-1"] [Samples.other_table])).
  vm_compute. reflexivity.
Defined.

(** ** The run over a folder *)

Lemma process_one_records (acc : list event * list detection_record)
      (file : pystr * result document) :
  snd (process_one acc file) = snd acc ++ document_records file.
Proof.
  destruct acc as [evs results], file as [filename loaded].
  unfold process_one, document_records. cbn [fst snd].
  destruct (process_document filename loaded) as [evs1 [[| x xs] |]];
    cbn [snd]; now rewrite ?app_nil_r.
Qed.

Lemma fold_process_one (files : list (pystr * result document)) :
  forall acc,
    snd (fold_left process_one files acc)
    = snd acc ++ flat_map document_records files.
Proof.
  induction files as [| f files IH]; intros acc; cbn [fold_left flat_map].
  - now rewrite app_nil_r.
  - rewrite IH, process_one_records. now rewrite app_assoc.
Qed.

Lemma document_records_ok (file : pystr * result document) :
  Forall detection_ok (document_records file).
Proof.
  destruct file as [name [doc | e]]; unfold document_records; cbn [fst snd].
  - destruct (snd (process_document name (Ok doc))) as [recs |] eqn:E;
      [| constructor].
    destruct (process_document_some name doc recs E)
      as (evs & items & E' & _ & ->).
    apply stamp_ok. exact (extract_table_data_ok doc evs items E').
  - constructor.
Qed.

(** X6. The result of a run is the concatenation, in the order of the
    listing, of the records of the files whose name ends with ".docx"
    and does not begin with "~$"; a file that cannot be read or holds no
    data adds nothing and does not stop the run; every row of the result
    has an item, a value and a judgment that are not blank. *)
Theorem run_results (input_folder : pystr)
        (folder : option (list (pystr * result document))) :
  snd (process_all_documents input_folder folder)
  = match folder with
    | None => []
    | Some entries =>
        flat_map document_records
                 (filter (fun f => accepted_name (fst f)) entries)
    end
  /\ Forall detection_ok (snd (process_all_documents input_folder folder)).
Proof.
  assert (H : snd (process_all_documents input_folder folder)
    = match folder with
      | None => []
      | Some entries =>
          flat_map document_records
                   (filter (fun f => accepted_name (fst f)) entries)
      end).
  { unfold process_all_documents. destruct folder as [entries |];
      [| reflexivity].
    change (fun f : pystr * result document =>
              endswith (u ".docx") (fst f)
              && negb (startswith (u "~$") (fst f)))
      with (fun f : pystr * result document => accepted_name (fst f)).
    destruct (filter (fun f => accepted_name (fst f)) entries)
      as [| f files] eqn:E; [reflexivity |].
    match goal with
    | |- context [fold_left process_one ?fs ?acc] =>
        pose proof (fold_process_one fs acc) as Hf;
        destruct (fold_left process_one fs acc) as [evs results]
    end.
    cbn [snd] in *. exact Hf. }
  split; [exact H |]. rewrite H. destruct folder as [entries |];
    [| constructor].
  apply Forall_flat_map, Forall_forall. intros f _.
  apply document_records_ok.
Qed.

(** ** Where the fields of a record come from *)

Lemma index_in {A} (xs : list A) (i : nat) (x : A) :
  index xs i = Ok x -> In x xs.
Proof. intros H. apply index_ok in H. now apply nth_error_In in H. Qed.

Lemma bind_ok {A B} (m : result A) (f : A -> result B) (y : B) :
  bind m f = Ok y -> exists x, m = Ok x /\ f x = Ok y.
Proof. destruct m as [x | e]; [| discriminate]. intros H. now exists x. Qed.

(** While [table_data] is empty, the value and the judgment of a built
    item are trimmed cells of its row, and its item is a trimmed cell of
    the row or the carried location. *)
Lemma build_item_fields (hm : header_mapping) (cur : pystr) (idx : nat)
      (r : row) (it : item_data) (cur' : pystr) :
  build_item hm [] cur idx r = Ok (it, cur') ->
  (forall v, measured_value it = Some v -> exists c, In c r /\ v = strip c)
  /\ (forall j, judgment it = Some j -> exists c, In c r /\ j = strip c)
  /\ (forall ti, test_item it = Some ti ->
        ti = cur \/ exists c, In c r /\ ti = strip c).
Proof.
  unfold build_item. intros H.
  apply bind_ok in H. destruct H as ([ti c0] & HA & H).
  apply bind_ok in H. destruct H as (mv & HB & H).
  apply bind_ok in H. destruct H as (jd & HC & H).
  injection H as <- <-. cbn [test_item measured_value judgment].
  split; [| split].
  - intros v ->. destruct (hm_measured_value hm) as [j |]; [| discriminate].
    apply bind_ok in HB. destruct HB as (c & Hc & [= <-]).
    exists c. split; [now apply (index_in r j) | reflexivity].
  - intros j ->. destruct (hm_judgment hm) as [k |]; [| discriminate].
    apply bind_ok in HC. destruct HC as (c & Hc & HC).
    exists c. split; [now apply (index_in r k) |].
    destruct (truthy (strip c)) eqn:T; cbn [negb andb] in HC.
    + congruence.
    + apply truthy_false in T. rewrite T.
      destruct (Nat.ltb 0 idx); cbn in HC; congruence.
  - intros t ->. destruct (hm_test_item hm) as [i |]; [| discriminate].
    apply bind_ok in HA. destruct HA as (c & Hc & HA).
    destruct (negb (truthy (strip c)) && Nat.ltb 0 idx).
    + left. congruence.
    + right. exists c. split; [now apply (index_in r i) |].
      congruence.
Qed.

(** ** The groups of a table *)

Lemma group_append_all (Q : pystr -> item_data -> Prop) (k : pystr)
      (x : item_data) (g : groups) :
  Q k x -> groups_all Q g -> groups_all Q (group_append k x g).
Proof.
  intros Hx. unfold groups_all.
  induction g as [| [k' xs] g IH]; cbn [group_append]; intros Hg.
  - repeat constructor. exact Hx.
  - inversion Hg as [| ? ? H1 H2]; subst. cbn [fst snd] in H1.
    destruct (str_eqb k k') eqn:E.
    + apply str_eqb_eq in E. subst k'. constructor; [| exact H2].
      cbn [fst snd]. apply Forall_app. split; [exact H1 | now constructor].
    + constructor; [exact H1 | now apply IH].
Qed.

Lemma group_append_keys (k : pystr) (x : item_data) (g : groups) (key : pystr) :
  In key (map fst (group_append k x g)) -> key = k \/ In key (map fst g).
Proof.
  induction g as [| [k' xs] g IH]; cbn [group_append map fst].
  - intros [<- | []]. now left.
  - destruct (str_eqb k k'); cbn [map fst In].
    + intros H. now right.
    + intros [<- | H]; [right; now left |].
      destruct (IH H); [now left | right; now right].
Qed.

Lemma group_append_keyed (k : pystr) (x : item_data) (g : groups) :
  groups_keyed g -> groups_keyed (group_append k x g).
Proof.
  unfold groups_keyed.
  induction g as [| [k' xs] g IH]; cbn [group_append]; intros [Hn Hf].
  - split; [repeat constructor; intros [] | repeat constructor; discriminate].
  - cbn [map fst] in Hn. inversion Hn as [| ? ? Hk Hn']; subst.
    inversion Hf as [| ? ? H1 H2]; subst.
    destruct (str_eqb k k') eqn:E.
    + split; [exact Hn |]. constructor; [| exact H2]. cbn [snd].
      now destruct xs.
    + destruct (IH (conj Hn' H2)) as [IHn IHf].
      split; [| now constructor].
      cbn [map fst]. constructor; [| exact IHn].
      intros Hin. apply group_append_keys in Hin. destruct Hin as [-> | Hin].
      * rewrite str_eqb_refl in E. discriminate.
      * contradiction.
Qed.

(** The walk keeps what holds of every record that passes the filter. *)
Lemma walk_groups (Q : pystr -> item_data -> Prop) (hm : header_mapping)
      (rows : list row) :
  (forall cur idx r it cur',
      In r rows -> build_item hm [] cur idx r = Ok (it, cur') ->
      item_valid it = true -> Q (get_or_empty (test_item it)) it) ->
  forall idx st st',
    groups_all Q (snd st) /\ groups_keyed (snd st) ->
    foldM_enum (row_step hm []) idx rows st = Ok st' ->
    groups_all Q (snd st') /\ groups_keyed (snd st').
Proof.
  intros HQ idx st st' Hst. revert idx st' . intros idx st'.
  apply (foldM_enum_inv
           (fun st => groups_all Q (snd st) /\ groups_keyed (snd st)));
    [| exact Hst].
  intros [cur g] i r [cur1 g1] Hr [Hg Hk]. unfold row_step.
  destruct (Nat.ltb (mapping_max hm) (List.length r));
    [| now intros [= <- <-]].
  destruct (build_item hm [] cur i r) as [[it cur'] | e] eqn:E;
    [| discriminate].
  cbn [bind]. destruct (item_valid it) eqn:V; intros [= <- <-]; cbn [snd] in *.
  - split; [apply group_append_all; eauto | now apply group_append_keyed].
  - now split.
Qed.

Lemma no_digit_strip (c : cell) : no_digit c -> no_digit (strip c).
Proof.
  unfold no_digit. intros H. destruct (strip_infix c) as (w1 & w2 & E).
  rewrite E, !existsb_app in H.
  apply orb_false_iff in H. destruct H as [_ H].
  now apply orb_false_iff in H.
Qed.

Lemma bucket_step_no_digit (location : pystr) (rv : buckets)
      (item : item_data) :
  record_ok item -> value_without_digit item ->
  bucket_step location rv item = Ok rv.
Proof.
  intros (ti & mv & jd & _ & Emv & Ejd & _) Hv. unfold bucket_step.
  rewrite Emv, Ejd. cbn [getitem bind].
  unfold re_search. rewrite (search_needs_digit false number_group eq_refl);
    [reflexivity |].
  now apply Hv.
Qed.

(** A location whose values hold no decimal digit gives no record. *)
Lemma emit_group_no_digit (td : list item_data) (location : pystr)
      (items : list item_data) :
  Forall record_ok items -> Forall value_without_digit items ->
  emit_group td (location, items) = Ok td.
Proof.
  intros Hok Hv. unfold emit_group. destruct items as [| it items];
    [reflexivity |].
  assert (H : foldM (bucket_step location) (it :: items) [] = Ok []).
  { generalize (it :: items) Hok Hv. intros l.
    induction l as [| x l IH]; [reflexivity |].
    intros Ho Hd. inversion Ho; inversion Hd; subst. cbn [foldM].
    rewrite bucket_step_no_digit by assumption. cbn [bind]. now apply IH. }
  rewrite H. reflexivity.
Qed.

(** X7. A table whose data rows hold no decimal digit yields no record:
    a value without a number is put in no bucket, so the table is passed
    over whatever its rows say. *)
Theorem table_without_numbers (t : table) :
  (forall r c, In r (data_rows t) -> In c r -> no_digit c) ->
  process_table [] t = Ok []
  /\ forall ts, scan_tables [] (t :: ts) = scan_tables [] ts.
Proof.
  intros Hd.
  assert (H : process_table [] t = Ok []).
  { unfold process_table.
    destruct (Nat.ltb 1 (List.length t)); [| reflexivity].
    destruct (detect_header t) as [hm has].
    destruct (has && Nat.leb 2 (mapping_len hm)); [| reflexivity].
    unfold walk_rows. fold (data_rows t).
    destruct (walk_spec hm (data_rows t) 0 [] []
                (fun _ => eq_refl) (or_introl eq_refl) (Forall_nil _))
      as (cur & g & E & Hg & _).
    assert (Hv : groups_all (fun _ => value_without_digit) g).
    { refine (proj1 (walk_groups (fun _ => value_without_digit) hm
                       (data_rows t) _ 0 ([], []) (cur, g) _ E)).
      - intros cur0 idx r it cur' Hr Hb _ v Hvv.
        destruct (build_item_fields hm cur0 idx r it cur' Hb) as (Hf & _).
        destruct (Hf v Hvv) as (c & Hc & ->).
        apply no_digit_strip. now apply (Hd r).
      - split; [constructor |]. split; constructor. }
    match goal with
    | |- context [foldM_enum ?f ?i ?rows ?st] =>
        replace (foldM_enum f i rows st) with (Ok (cur, g))
          by (symmetry; exact E)
    end.
    cbn [bind]. clear E.
    unfold groups_ok in Hg. unfold groups_all in Hv.
    induction g as [| [location items] g IH]; [reflexivity |].
    inversion Hg; inversion Hv; subst. cbn [foldM fst snd] in *.
    rewrite emit_group_no_digit by assumption. cbn [bind]. now apply IH. }
  split; [exact H |]. intros ts. rewrite scan_tables_step. now rewrite H.
Qed.

Lemma table_without_numbers_witness :
  process_table []
    (Samples.header3 ++ [Samples.row3 "外观" "无裂缝" "合格"]) = Ok [].
Proof.
  apply (table_without_numbers
           (Samples.header3 ++ [Samples.row3 "外观" "无裂缝" "合格"])).
  intros r c [<- | []] Hc.
  repeat (destruct Hc as [<- | Hc]; [reflexivity |]). destruct Hc.
Defined.

(** X8. The groups that the row walk builds have distinct keys, none is
    empty, and every record of a group has the key of the group as its
    item, a value and a judgment that are trimmed cells of a data row. *)
Theorem row_groups_keyed (hm : header_mapping) (t : table) (cur : pystr)
        (g : groups) :
  walk_rows hm [] t = Ok (cur, g) ->
  groups_keyed g
  /\ groups_all (fun k it =>
       test_item it = Some k
       /\ exists r mv jd c1 c2,
            In r (data_rows t) /\ In c1 r /\ In c2 r
            /\ measured_value it = Some mv /\ mv = strip c1
            /\ judgment it = Some jd /\ jd = strip c2) g.
Proof.
  unfold walk_rows. fold (data_rows t). intros E.
  apply and_comm.
  refine (walk_groups _ hm (data_rows t) _ 0 ([], []) (cur, g) _ E).
  - intros cur0 idx r it cur' Hr Hb Hv.
    destruct (build_item_fields hm cur0 idx r it cur' Hb) as (Hm & Hj & _).
    unfold item_valid, valid_fields in Hv.
    rewrite !andb_true_iff in Hv.
    destruct Hv as ((((((H1 & _) & _) & H4) & _) & H6) & _).
    destruct (test_item it) as [ti |]; [| discriminate].
    destruct (measured_value it) as [mv |]; [| discriminate].
    destruct (judgment it) as [jd |]; [| discriminate].
    split; [reflexivity |].
    destruct (Hm mv eq_refl) as (c1 & Hc1 & E1).
    destruct (Hj jd eq_refl) as (c2 & Hc2 & E2).
    now exists r, mv, jd, c1, c2.
  - split; [constructor |]. split; constructor.
Qed.

Lemma row_groups_keyed_witness :
  groups_keyed
    [(u "柱1", [Samples.item3 "柱1" "23.4 MPa" "合格";
                Samples.item3 "柱1" "23.6 MPa" "合格";
                Samples.item3 "柱1" "24.9 MPa" "合格"])].
Proof.
  apply (row_groups_keyed mapping012 Samples.readings (u "柱1")).
  vm_compute. reflexivity.
Defined.

(** ** The buckets of a location *)

Lemma uint_str_inj (a b : Decimal.uint) : uint_str a = uint_str b -> a = b.
Proof.
  revert b. induction a; destruct b; cbn [uint_str]; intros H;
    try discriminate H; try reflexivity; injection H as H; f_equal; auto.
Qed.

Lemma uint_str_no_sign (a : Decimal.uint) (s : pystr) :
  uint_str a <> uc "-" :: s.
Proof.
  intros H. pose proof (uint_str_digits a) as Hd. rewrite H in Hd.
  discriminate.
Qed.

Lemma str_of_Z_inj (n n' : Z) : str_of_Z n = str_of_Z n' -> n = n'.
Proof.
  unfold str_of_Z.
  destruct n as [| p | p], n' as [| p' | p']; intros H;
    try (now apply uint_str_no_sign in H);
    try (symmetry in H; now apply uint_str_no_sign in H);
    try (apply uint_str_inj, DecimalN.Unsigned.to_uint_inj in H;
         simpl in H; congruence).
  injection H as H. apply uint_str_inj, DecimalPos.Unsigned.to_uint_inj in H.
  congruence.
Qed.

Lemma bucket_key_inj (location : pystr) (k k' : Z) :
  bucket_key location k = bucket_key location k' -> k = k'.
Proof.
  unfold bucket_key. intros H. apply app_inv_head in H.
  apply app_inv_head in H. now apply str_of_Z_inj.
Qed.

Lemma bucket_add_keys (key : pystr) (fresh : bucket) (x : float)
      (d : buckets) (k : pystr) :
  In k (map fst (bucket_add key fresh x d)) -> k = key \/ In k (map fst d).
Proof.
  induction d as [| [k' b] d IH]; cbn [bucket_add map fst].
  - intros [<- | []]. now left.
  - destruct (str_eqb key k'); cbn [map fst In].
    + intros H. now right.
    + intros [<- | H]; [right; now left |].
      destruct (IH H); [now left | right; now right].
Qed.

Lemma bucket_add_rounded (location : pystr) (k : Z) (fresh : bucket)
      (x : float) (d : buckets) :
  b_values fresh = [] -> py_round x = Ok k ->
  buckets_rounded location d ->
  buckets_rounded location (bucket_add (bucket_key location k) fresh x d).
Proof.
  intros Hf Hx. unfold buckets_rounded.
  induction d as [| [k' b] d IH]; cbn [bucket_add]; intros [Hn Ha].
  - split; [repeat constructor; intros [] |].
    constructor; [| constructor]. exists k. cbn. rewrite Hf. cbn.
    repeat split; [discriminate | now constructor].
  - cbn [map fst] in Hn. inversion Hn as [| ? ? Hk Hn']; subst.
    inversion Ha as [| ? ? H1 H2]; subst.
    destruct (str_eqb (bucket_key location k) k') eqn:E.
    + split; [exact Hn |]. constructor; [| exact H2].
      apply str_eqb_eq in E. destruct H1 as (k0 & Hk0 & _ & Hv).
      cbn [fst snd] in *. rewrite Hk0 in E. apply bucket_key_inj in E.
      subst k0. exists k. cbn. repeat split; [exact Hk0 | | ].
      * now destruct (b_values b).
      * apply Forall_app. split; [exact Hv | now constructor].
    + destruct (IH (conj Hn' H2)) as [IHn IHa].
      split; [| now constructor].
      cbn [map fst]. constructor; [| exact IHn].
      intros Hin. apply bucket_add_keys in Hin. destruct Hin as [-> | Hin].
      * rewrite str_eqb_refl in E. discriminate.
      * contradiction.
Qed.

(** X9. In the buckets of a location the keys are distinct, and the
    values of one bucket all round to the integer of its key: a record
    never averages values that round differently. *)
Theorem bucket_values_round_alike (location : pystr)
        (items : list item_data) (rv : buckets) :
  foldM (bucket_step location) items [] = Ok rv ->
  buckets_rounded location rv.
Proof.
  apply foldM_inv; [| split; constructor].
  intros s item s' _ Hs. unfold bucket_step.
  destruct (getitem "measured_value" (measured_value item)) as [v | e];
    [| discriminate].
  destruct (getitem "judgment" (judgment item)) as [j | e]; [| discriminate].
  cbn [bind].
  destruct (re_search number_group v) as [m |]; [| now intros [= <-]].
  destruct (float_of_str (mgroup 1 m)) as [x | e]; [| discriminate].
  cbn [bind].
  destruct (py_round x) as [k | e] eqn:Ek; [| discriminate]. cbn [bind].
  intros [= <-]. now apply bucket_add_rounded.
Qed.

Lemma bucket_values_round_alike_witness :
  buckets_rounded (u "柱1")
    [(u "柱1_24",
      {| b_location := u "柱1"; b_judgment := u "合格";
         b_values := [float_of_ratio 236 10; float_of_ratio 244 10];
         b_sample_item := Samples.item3 "柱1" "23.6 MPa" "合格" |});
     (u "柱1_25", sample_bucket "柱1" "24.9 MPa" "合格" 249 10)].
Proof.
  apply (bucket_values_round_alike (u "柱1")
           [Samples.item3 "柱1" "23.6 MPa" "合格";
            Samples.item3 "柱1" "24.9 MPa" "合格";
            Samples.item3 "柱1" "24.4 MPa" "不合格"]).
  vm_compute. reflexivity.
Defined.

(** ** A number too large for a float *)

Lemma foldM_raises {A St} (body : St -> A -> result St) (x : A)
      (xs : list A) :
  In x xs -> (forall acc, exists e, body acc x = Raise e) ->
  forall acc, exists e, foldM body xs acc = Raise e.
Proof.
  intros Hin Hx. induction xs as [| y xs IH]; [destruct Hin |].
  intros acc. cbn [foldM].
  destruct Hin as [-> | Hin].
  - destruct (Hx acc) as [e ->]. now exists e.
  - destruct (body acc y) as [acc' | e]; [| now exists e].
    cbn [bind]. now apply IH.
Qed.

Lemma bucket_step_overflow (location : pystr) (rv : buckets)
      (item : item_data) (v j : pystr) (m : rmatch_obj) (sgn : bool) :
  measured_value item = Some v -> judgment item = Some j ->
  re_search number_group v = Some m ->
  float_of_str (mgroup 1 m) = Ok (S754_infinity sgn) ->
  bucket_step location rv item = Raise OverflowError.
Proof.
  intros Hv Hj Hm Hx. unfold bucket_step. rewrite Hv, Hj.
  cbn [getitem bind]. now rewrite Hm, Hx.
Qed.

Lemma scan_tables_skip (pre : list table) (rest : list table) :
  Forall (fun t' => process_table [] t' = Ok []) pre ->
  scan_tables [] (pre ++ rest) = scan_tables [] rest.
Proof.
  induction 1 as [| t' pre Ht' _ IH]; [reflexivity |].
  cbn [app scan_tables]. now rewrite Ht'.
Qed.

(** X10. A value whose number is too large for a float is fatal to its
    document: when the first table that yields anything has such a
    value among its grouped records, [process_document] prints one
    line for the exception, returns the failure value and adds nothing
    to the results, whatever the other rows, tables and paragraphs
    hold. *)
Theorem infinite_value_fails
        (file_name : pystr) (doc : document) (pre : list table) (t : table)
        (ts : list table) (hm : header_mapping) (cur : pystr) (g : groups)
        (location : pystr) (items : list item_data) (item : item_data)
        (v j : pystr) (m : rmatch_obj) (sgn : bool) :
  tables doc = pre ++ t :: ts ->
  Forall (fun t' => process_table [] t' = Ok []) pre ->
  1 < List.length t ->
  detect_header t = (hm, true) -> 2 <= mapping_len hm ->
  walk_rows hm [] t = Ok (cur, g) ->
  In (location, items) g -> In item items ->
  measured_value item = Some v -> judgment item = Some j ->
  re_search number_group v = Some m ->
  float_of_str (mgroup 1 m) = Ok (S754_infinity sgn) ->
  exists e,
    process_document file_name (Ok doc)
    = ([Printed (u "处理文件 " ++ file_name ++ u " 时出错: " ++ exn_str e)],
       None)
    /\ document_records (file_name, Ok doc) = [].
Proof.
  intros Ht Hpre Hlen Hh Hm2 Hw Hg Hin Hv Hj Hm Hx.
  assert (He : exists e, foldM emit_group g [] = Raise e).
  { apply (foldM_raises emit_group (location, items) g Hg).
    intros td. unfold emit_group.
    destruct items as [| it items]; [destruct Hin |].
    destruct (foldM_raises (bucket_step location) item (it :: items) Hin)
      with (acc := @nil (pystr * bucket)) as [e' He'].
    - intros acc. exists OverflowError.
      now apply (bucket_step_overflow location acc item v j m sgn).
    - exists e'. now rewrite He'. }
  destruct He as [e He]. exists e.
  assert (Hs : scan_tables [] (tables doc) = Raise e).
  { rewrite Ht, (scan_tables_skip pre (t :: ts) Hpre).
    cbn [scan_tables]. unfold process_table.
    apply Nat.ltb_lt in Hlen. rewrite Hlen, Hh.
    apply Nat.leb_le in Hm2. rewrite Hm2. cbn [andb].
    rewrite Hw. cbn [bind]. now rewrite He. }
  split.
  - unfold process_document, extract_table_data. now rewrite Hs.
  - unfold document_records, process_document, extract_table_data.
    cbn [fst snd]. now rewrite Hs.
Qed.

Lemma infinite_value_fails_witness :
  exists e,
    process_document (u "a.docx")
      (Ok {| paragraphs := [u "强度：25 MPa（合格）"];
             tables := [Samples.three_rows; huge_table; Samples.readings] |})
    = ([Printed (u "处理文件 " ++ u "a.docx" ++ u " 时出错: " ++ exn_str e)],
       None)
    /\ document_records
         (u "a.docx",
          Ok {| paragraphs := [u "强度：25 MPa（合格）"];
                tables := [Samples.three_rows; huge_table;
                           Samples.readings] |}) = [].
Proof.
  apply (infinite_value_fails (u "a.docx") _ [Samples.three_rows] huge_table
           [Samples.readings] mapping012 (u "柱1")
           [(u "柱1", [huge_item])] (u "柱1") [huge_item] huge_item
           huge_value (u "合格")
           {| m_start := 0; m_text := repeat_chr (uc "9") 400;
              m_caps := [(1, repeat_chr (uc "9") 400)] |} false).
  - reflexivity.
  - constructor; [vm_compute; reflexivity | constructor].
  - vm_compute. lia.
  - vm_compute. reflexivity.
  - vm_compute. lia.
  - vm_compute. reflexivity.
  - now left.
  - now left.
  - reflexivity.
  - reflexivity.
  - vm_compute. reflexivity.
  - vm_compute. reflexivity.
Defined.

(** ** No more records than data rows *)

Lemma total_group_append (k : pystr) (x : item_data) (g : groups) :
  total (group_append k x g) = S (total g).
Proof.
  unfold total. induction g as [| [k' xs] g IH]; cbn [group_append].
  - reflexivity.
  - destruct (str_eqb k k'); cbn [map list_sum snd fold_right].
    + rewrite length_app. simpl. lia.
    + unfold list_sum in IH. rewrite IH. lia.
Qed.

Lemma walk_total (hm : header_mapping) (td : list item_data)
      (rows : list row) :
  forall idx cur g cur' g',
    foldM_enum (row_step hm td) idx rows (cur, g) = Ok (cur', g') ->
    total g' <= total g + List.length rows.
Proof.
  induction rows as [| r rows IH]; intros idx cur g cur' g'; cbn [foldM_enum].
  - intros [= _ <-]. simpl. lia.
  - intros H. apply bind_ok in H. destruct H as ([cur1 g1] & H1 & H).
    apply IH in H. cbn [List.length].
    assert (total g1 <= S (total g)); [| lia].
    unfold row_step in H1.
    destruct (Nat.ltb (mapping_max hm) (List.length r));
      [| injection H1 as _ <-; lia].
    apply bind_ok in H1. destruct H1 as ([it c1] & _ & H1).
    destruct (item_valid it); injection H1 as _ <-;
      rewrite ?total_group_append; lia.
Qed.

Lemma bucket_add_length (key : pystr) (fresh : bucket) (x : float)
      (d : buckets) :
  List.length (bucket_add key fresh x d) <= S (List.length d).
Proof.
  induction d as [| [k' b] d IH]; cbn [bucket_add]; [simpl; lia |].
  destruct (str_eqb key k'); simpl in *; lia.
Qed.

Lemma buckets_length (location : pystr) (items : list item_data) :
  forall rv rv',
    foldM (bucket_step location) items rv = Ok rv' ->
    List.length rv' <= List.length rv + List.length items.
Proof.
  induction items as [| it items IH]; intros rv rv'; cbn [foldM].
  - intros [= <-]. simpl. lia.
  - intros H. apply bind_ok in H. destruct H as (rv1 & H1 & H).
    apply IH in H. cbn [List.length].
    assert (List.length rv1 <= S (List.length rv)); [| lia].
    unfold bucket_step in H1.
    apply bind_ok in H1. destruct H1 as (v & _ & H1).
    apply bind_ok in H1. destruct H1 as (j & _ & H1).
    destruct (re_search number_group v); [| injection H1 as <-; lia].
    apply bind_ok in H1. destruct H1 as (x & _ & H1).
    apply bind_ok in H1. destruct H1 as (k & _ & H1).
    injection H1 as <-. apply bucket_add_length.
Qed.

Lemma emit_buckets_length (rv : buckets) :
  forall td td',
    foldM emit_bucket rv td = Ok td' ->
    List.length td' <= List.length td + List.length rv.
Proof.
  induction rv as [| kd rv IH]; intros td td'; cbn [foldM].
  - intros [= <-]. simpl. lia.
  - intros H. apply bind_ok in H. destruct H as (td1 & H1 & H).
    apply IH in H. cbn [List.length].
    assert (List.length td1 <= S (List.length td)); [| lia].
    unfold emit_bucket in H1. destruct (b_values (snd kd));
      [injection H1 as <-; lia |].
    apply bind_ok in H1. destruct H1 as (v & _ & H1).
    injection H1 as <-. rewrite length_app. simpl. lia.
Qed.

Lemma emit_groups_length (g : groups) :
  forall td td',
    foldM emit_group g td = Ok td' ->
    List.length td' <= List.length td + total g.
Proof.
  unfold total.
  induction g as [| [location items] g IH]; intros td td'; cbn [foldM].
  - intros [= <-]. simpl. lia.
  - intros H. apply bind_ok in H. destruct H as (td1 & H1 & H).
    apply IH in H. cbn [map list_sum snd fold_right].
    unfold list_sum in H.
    assert (List.length td1 <= List.length td + List.length items); [| lia].
    unfold emit_group in H1. destruct items as [| it items];
      [injection H1 as <-; simpl; lia |].
    apply bind_ok in H1. destruct H1 as (rv & Hrv & H1).
    apply buckets_length in Hrv. apply emit_buckets_length in H1.
    simpl in *. lia.
Qed.

(** X11. A table adds at most one record for each of its rows after
    the third: the first three rows are read as header rows only, and
    a data row gives at most one record. *)
Theorem records_bounded_by_rows (td : list item_data) (t : table)
        (recs : list item_data) :
  process_table td t = Ok recs ->
  List.length recs <= List.length td + (List.length t - 3).
Proof.
  intros H. unfold process_table in H.
  destruct (Nat.ltb_spec 1 (List.length t)) as [Hl | Hl];
    [| injection H as <-; lia].
  destruct (detect_header t) as [hm has].
  destruct (has && Nat.leb 2 (mapping_len hm)); [| injection H as <-; lia].
  apply bind_ok in H. destruct H as ([cur g] & Hw & H).
  unfold walk_rows in Hw.
  apply walk_total in Hw. apply emit_groups_length in H.
  change (total []) with 0 in Hw.
  rewrite length_skipn in Hw. unfold header_rows in Hw.
  destruct (Nat.ltb_spec 1 (List.length t)) as [_ | Hl']; [| lia].
  rewrite length_firstn in Hw. lia.
Qed.

Lemma records_bounded_by_rows_witness :
  List.length [Samples.item3 "柱1" "23.4" "合格";
               Samples.item3 "柱1" "23.6" "合格";
               Samples.item3 "柱1" "24.9" "合格"]
  <= List.length (@nil item_data) + (List.length Samples.readings - 3).
Proof.
  apply (records_bounded_by_rows [] Samples.readings).
  vm_compute. reflexivity.
Defined.

(* ================================================================= *)
(** * The test date, in general *)

(** ** The matcher finds the dates *)

Lemma rmatch_chr {R} (d : bool) (a : pychar) (s : pystr) (c : caps)
      (k : cont R) :
  rmatch d (Chr a) (a :: s) c k = k s c.
Proof. cbn [rmatch]. now rewrite N.eqb_refl. Qed.

Lemma rmatch_lit {R} (d : bool) (l : pystr) (r : regex) (s : pystr)
      (c : caps) (k : cont R) :
  rmatch d (lit l r) (l ++ s) c k = rmatch d r s c k.
Proof.
  induction l as [| a l IH]; [reflexivity |].
  cbn [lit app]. rewrite rmatch_cat, rmatch_chr. exact IH.
Qed.

Lemma rep_loop_hi_cons {R} (d neg : bool) (items : list cls) (lo : nat)
      (hi : option nat) (k : cont R) (fuel cnt : nat) (a : pychar)
      (s : pystr) (c : caps) :
  rep_loop (rmatch d (CSet neg items)) lo hi true k (S fuel) cnt (a :: s) c
  = or_else
      (if match hi with Some h => Nat.ltb cnt h | None => true end
       then if cset_has neg items a
            then rep_loop (rmatch d (CSet neg items)) lo hi true k fuel
                          (S cnt) s c
            else None
       else None)
      (if Nat.leb lo cnt then k (a :: s) c else None).
Proof.
  cbn [rep_loop rmatch List.length].
  rewrite (proj2 (Nat.ltb_lt (List.length s) (S (List.length s))))
    by lia.
  reflexivity.
Qed.

Lemma rep_loop_hi_nil {R} (d neg : bool) (items : list cls) (lo : nat)
      (hi : option nat) (k : cont R) (fuel cnt : nat) (c : caps) :
  rep_loop (rmatch d (CSet neg items)) lo hi true k (S fuel) cnt [] c
  = if Nat.leb lo cnt then k [] c else None.
Proof.
  cbn [rep_loop rmatch].
  now destruct (match hi with Some h => Nat.ltb cnt h | None => true end).
Qed.

(** A greedy repeat of a character set takes a run of the set that
    cannot go on, when what follows the repeat matches after the run. *)
Lemma rep_loop_run {R} (d neg : bool) (items : list cls) (lo : nat)
      (hi : option nat) (k : cont R) (x : R) (rest : pystr) (c : caps) :
  k rest c = Some x ->
  forall (ds : pystr) (fuel cnt : nat),
    forallb (cset_has neg items) ds = true ->
    List.length (ds ++ rest) < fuel ->
    lo <= cnt + List.length ds ->
    match hi with
    | Some h => cnt + List.length ds <= h
                /\ (cnt + List.length ds = h
                    \/ stops (cset_has neg items) rest)
    | None => stops (cset_has neg items) rest
    end ->
    rep_loop (rmatch d (CSet neg items)) lo hi true k fuel cnt (ds ++ rest) c
    = Some x.
Proof.
  intros Hk. induction ds as [| a ds IH]; intros fuel cnt Hf Hfuel Hlo Hhi;
    (destruct fuel as [| fuel]; [simpl in Hfuel; lia |]); cbn [app].
  - simpl in Hlo. rewrite Nat.add_0_r in Hhi, Hlo.
    destruct rest as [| b rest].
    + rewrite rep_loop_hi_nil, (proj2 (Nat.leb_le lo cnt)) by lia.
      exact Hk.
    + rewrite rep_loop_hi_cons, (proj2 (Nat.leb_le lo cnt)), Hk by lia.
      destruct hi as [h |].
      * destruct Hhi as [_ [-> | Hst]]; [now rewrite Nat.ltb_irrefl |].
        unfold stops in Hst. rewrite Hst. now destruct (Nat.ltb cnt h).
      * unfold stops in Hhi. now rewrite Hhi.
  - cbn [forallb] in Hf. apply andb_prop in Hf. destruct Hf as [Ha Hf].
    cbn [List.length app] in Hfuel, Hlo, Hhi.
    rewrite rep_loop_hi_cons, Ha.
    assert (Hg : match hi with Some h => Nat.ltb cnt h | None => true end
                 = true).
    { destruct hi as [h |]; [| reflexivity]. apply Nat.ltb_lt. lia. }
    rewrite Hg, (IH fuel (S cnt) Hf).
    + reflexivity.
    + lia.
    + lia.
    + destruct hi as [h |]; [| exact Hhi].
      replace (S cnt + List.length ds) with (cnt + S (List.length ds))
        by lia. exact Hhi.
Qed.

Lemma forallb_cset_digit (ds : pystr) :
  forallb isdecimal ds = true ->
  forallb (cset_has false [CDigit]) ds = true.
Proof.
  induction ds as [| a ds IH]; [reflexivity |]. cbn [forallb].
  rewrite cset_digit. intros [Ha Hd]%andb_prop. now rewrite Ha, IH.
Qed.

(** [\d{lo,hi}] on a run of digits. *)
Lemma digits_match {R} (d : bool) (lo hi : nat) (ds rest : pystr)
      (c : caps) (k : cont R) (x : R) :
  forallb isdecimal ds = true ->
  lo <= List.length ds <= hi ->
  List.length ds = hi \/ begins_with_digit rest = false ->
  k rest c = Some x ->
  rmatch d (times lo hi digit) (ds ++ rest) c k = Some x.
Proof.
  intros Hd Hl Hst Hk. unfold times, digit. rewrite rmatch_rep.
  apply rep_loop_run; try lia.
  - exact Hk.
  - now apply forallb_cset_digit.
  - cbn [Nat.add]. split; [lia |].
    destruct Hst as [-> | Hst]; [now left | right].
    destruct rest as [| b rest]; [exact I |].
    unfold stops. rewrite cset_digit. exact Hst.
Qed.

Lemma isdecimal_not_space_checked :
  forallb (fun z => forallb (fun i => negb (isspace (z + N.of_nat i)%N))
                            (seq 0 10))
          decimal_zeros = true.
Proof. vm_compute. reflexivity. Qed.

Lemma isdecimal_not_space (a : pychar) :
  isdecimal a = true -> isspace a = false.
Proof.
  unfold isdecimal, todecimal.
  destruct (find (fun z => (z <=? a) && (a <? z + 10))%N decimal_zeros)
    as [z |] eqn:E; [intros _ | discriminate].
  apply find_some in E. destruct E as [Hz Hr].
  apply andb_prop in Hr. destruct Hr as [H1 H2].
  apply N.leb_le in H1. apply N.ltb_lt in H2.
  pose proof isdecimal_not_space_checked as H.
  rewrite forallb_forall in H. specialize (H z Hz).
  rewrite forallb_forall in H.
  specialize (H (N.to_nat (a - z))).
  rewrite N2Nat.id in H.
  replace (z + (a - z))%N with a in H by lia.
  apply negb_true_iff, H, in_seq. lia.
Qed.

Lemma forallb_cset_space (sp : pystr) :
  forallb isspace sp = true ->
  forallb (cset_has false [CSpace]) sp = true.
Proof.
  induction sp as [| a sp IH]; [reflexivity |]. cbn [forallb].
  intros [Ha Hs]%andb_prop. rewrite (IH Hs), andb_true_r.
  unfold cset_has. cbn [existsb cls_has]. now rewrite Ha.
Qed.

(** [\s*] before a digit. *)
Lemma spaces_match {R} (d : bool) (sp rest : pystr) (c : caps)
      (k : cont R) (x : R) :
  forallb isspace sp = true ->
  begins_with_digit rest = true ->
  k rest c = Some x ->
  rmatch d (star space) (sp ++ rest) c k = Some x.
Proof.
  intros Hs Hr Hk. unfold star, space. rewrite rmatch_rep.
  apply rep_loop_run; try lia.
  - exact Hk.
  - now apply forallb_cset_space.
  - destruct rest as [| b rest]; [discriminate |].
    unfold stops, cset_has. cbn [existsb cls_has].
    cbn [begins_with_digit] in Hr.
    now rewrite (isdecimal_not_space b Hr).
Qed.

Lemma written_app (y mo dd post : pystr) :
  written y mo dd ++ post
  = y ++ uc "年" :: (mo ++ uc "月" :: (dd ++ uc "日" :: post)).
Proof.
  unfold written.
  repeat (progress (rewrite <- ?app_assoc; cbn [app])). reflexivity.
Qed.

Lemma dashed_app (y mo dd post : pystr) :
  dashed y mo dd ++ post = y ++ uc "-" :: (mo ++ uc "-" :: (dd ++ post)).
Proof.
  unfold dashed.
  repeat (progress (rewrite <- ?app_assoc; cbn [app])). reflexivity.
Qed.

(** The pattern of the written form matches a written date, whatever
    follows it. *)
Lemma ymd_text_match {R} (d : bool) (y mo dd post : pystr) (c : caps)
      (k : cont R) (x : R) :
  date_parts y mo dd -> k post c = Some x ->
  rmatch d ymd_text (written y mo dd ++ post) c k = Some x.
Proof.
  intros (Ly & Lm & Ld & Fy & Fm & Fd) Hk.
  rewrite written_app. unfold ymd_text.
  rewrite rmatch_cat.
  apply digits_match; [exact Fy | lia | right; reflexivity |]. cbv beta.
  rewrite rmatch_cat, rmatch_chr, rmatch_cat.
  apply digits_match; [exact Fm | lia | right; reflexivity |]. cbv beta.
  rewrite rmatch_cat, rmatch_chr, rmatch_cat.
  apply digits_match; [exact Fd | lia | right; reflexivity |]. cbv beta.
  rewrite rmatch_chr. exact Hk.
Qed.

(** The pattern of the dashed form matches a dashed date after which no
    further digit can be taken for the day. *)
Lemma ymd_dash_match {R} (d : bool) (y mo dd post : pystr) (c : caps)
      (k : cont R) (x : R) :
  date_parts y mo dd ->
  List.length dd = 2 \/ begins_with_digit post = false ->
  k post c = Some x ->
  rmatch d ymd_dash (dashed y mo dd ++ post) c k = Some x.
Proof.
  intros (Ly & Lm & Ld & Fy & Fm & Fd) Hp Hk.
  rewrite dashed_app. unfold ymd_dash.
  rewrite rmatch_cat.
  apply digits_match; [exact Fy | lia | right; reflexivity |]. cbv beta.
  rewrite rmatch_cat, rmatch_chr, rmatch_cat.
  apply digits_match; [exact Fm | lia | right; reflexivity |]. cbv beta.
  rewrite rmatch_cat, rmatch_chr.
  apply digits_match; [exact Fd | lia | exact Hp | exact Hk].
Qed.

(** The pattern that reads the parts of a written date finds them. *)
Lemma ymd_groups_match {R} (d : bool) (y mo dd post : pystr) (c : caps)
      (k : cont R) (x : R) :
  date_parts y mo dd ->
  k post ((3, dd) :: (2, mo) :: (1, y) :: c) = Some x ->
  rmatch d ymd_groups (written y mo dd ++ post) c k = Some x.
Proof.
  intros (Ly & Lm & Ld & Fy & Fm & Fd) Hk.
  rewrite written_app. unfold ymd_groups.
  rewrite rmatch_cat, rmatch_group.
  apply digits_match; [exact Fy | lia | right; reflexivity |]. cbv beta.
  rewrite firstn_prefix.
  rewrite rmatch_cat, rmatch_chr, rmatch_cat, rmatch_group.
  apply digits_match; [exact Fm | lia | right; reflexivity |]. cbv beta.
  rewrite firstn_prefix.
  rewrite rmatch_cat, rmatch_chr, rmatch_cat, rmatch_group.
  apply digits_match; [exact Fd | lia | right; reflexivity |]. cbv beta.
  rewrite firstn_prefix.
  rewrite rmatch_chr. exact Hk.
Qed.

Lemma normalise_written (y mo dd : pystr) :
  date_parts y mo dd ->
  exists dm,
    re_match ymd_groups (written y mo dd) = Some dm
    /\ mgroup 1 dm = y /\ mgroup 2 dm = mo /\ mgroup 3 dm = dd.
Proof.
  intros H. eexists. split.
  - unfold re_match, re_match_at.
    rewrite <- (app_nil_r (written y mo dd)).
    apply ymd_groups_match; [exact H | reflexivity].
  - repeat split.
Qed.

Lemma contains_in (ch : pychar) (p s : pystr) :
  contains (ch :: p) s = true -> In ch s.
Proof.
  intros H. apply contains_spec in H. destruct H as (a & b & ->).
  apply in_or_app. right. now left.
Qed.

Lemma isdecimal_in (ch : pychar) (s : pystr) :
  forallb isdecimal s = true -> In ch s -> isdecimal ch = true.
Proof. intros H Hi. rewrite forallb_forall in H. now apply H. Qed.

(** The characters of the two forms. *)
Lemma written_chars (ch : pychar) (y mo dd : pystr) :
  date_parts y mo dd -> In ch (written y mo dd) ->
  isdecimal ch = true \/ ch = uc "年" \/ ch = uc "月" \/ ch = uc "日".
Proof.
  intros (_ & _ & _ & Fy & Fm & Fd). unfold written.
  rewrite in_app_iff. cbn [In]. rewrite in_app_iff. cbn [In].
  rewrite in_app_iff. cbn [In].
  intros [H | [<- | [H | [<- | [H | [<- | []]]]]]];
    eauto using isdecimal_in.
Qed.

Lemma dashed_chars (ch : pychar) (y mo dd : pystr) :
  date_parts y mo dd -> In ch (dashed y mo dd) ->
  isdecimal ch = true \/ ch = uc "-".
Proof.
  intros (_ & _ & _ & Fy & Fm & Fd). unfold dashed.
  rewrite in_app_iff. cbn [In]. rewrite in_app_iff. cbn [In].
  intros [H | [<- | [H | [<- | H]]]]; eauto using isdecimal_in.
Qed.

Lemma normalise_dashed (y mo dd : pystr) :
  date_parts y mo dd ->
  contains (u "年") (dashed y mo dd) = false
  /\ split_on (uc "-") (dashed y mo dd) = [y; mo; dd].
Proof.
  intros H. split.
  - destruct (contains (u "年") (dashed y mo dd)) eqn:E; [| reflexivity].
    apply (contains_in (uc "年") []) in E.
    destruct (dashed_chars _ _ _ _ H E) as [Hd | Hd]; discriminate.
  - destruct H as (_ & _ & _ & Fy & Fm & Fd). unfold dashed.
    rewrite (split_on_digits_hyphen y _ Fy),
      (split_on_digits_hyphen mo _ Fm), (split_on_digits dd Fd).
    reflexivity.
Qed.

(** The body of the loop on a pattern that has found a date. *)
Lemma try_pattern_found (doc_text : pystr) (p : regex) (m : rmatch_obj)
      (y mo dd : pystr) :
  re_search p doc_text = Some m ->
  date_parts y mo dd ->
  mgroup 1 m = written y mo dd \/ mgroup 1 m = dashed y mo dd ->
  try_pattern doc_text p = Some (normal y mo dd).
Proof.
  intros Hm Hp Hg. unfold try_pattern. rewrite Hm.
  destruct Hg as [-> | ->].
  - assert (Hc : contains (u "年") (written y mo dd) = true).
    { apply contains_spec.
      exists y, (mo ++ uc "月" :: dd ++ [uc "日"]). reflexivity. }
    rewrite Hc.
    destruct (normalise_written y mo dd Hp) as (dm & -> & -> & -> & ->).
    reflexivity.
  - destruct (normalise_dashed y mo dd Hp) as [-> ->]. reflexivity.
Qed.

(** ** What a date pattern has found is a date *)

Lemma ymd_text_parts (s : pystr) (c : caps) (s' : pystr) (c' : caps) :
  denotes false ymd_text s c s' c' ->
  exists y mo dd, s = written y mo dd ++ s' /\ date_parts y mo dd.
Proof.
  unfold ymd_text. intros (s1 & c1 & H1 & s2 & c2 & H2 & s3 & c3 & H3
                           & s4 & c4 & H4 & s5 & c5 & H5 & H6).
  apply denotes_digits in H1, H3, H5.
  destruct H1 as (y & -> & Hy & Fy & _). destruct H3 as (mo & -> & Hm & Fm & _).
  destruct H5 as (dd & -> & Hd & Fd & _).
  cbn [denotes] in H2, H4, H6.
  destruct H2 as [-> _]. destruct H4 as [-> _]. destruct H6 as [-> _].
  exists y, mo, dd. split.
  - now rewrite written_app.
  - repeat split; try assumption; lia.
Qed.

Lemma date_group_shape (doc_text : pystr) (p : regex) (m : rmatch_obj) :
  In p patterns -> re_search p doc_text = Some m ->
  exists y mo dd,
    date_parts y mo dd
    /\ (mgroup 1 m = written y mo dd \/ mgroup 1 m = dashed y mo dd).
Proof.
  intros Hp Hm.
  destruct (date_pattern_last p Hp) as [Hl | Hl];
    destruct (search_last_group false p 1 _ 0 doc_text m Hl Hm)
      as (c1 & s' & c' & Hd).
  - destruct (ymd_text_parts _ _ _ _ Hd) as (y & mo & dd & E & H).
    apply app_inv_tail in E. exists y, mo, dd. auto.
  - destruct (ymd_dash_denotes _ _ _ _ Hd) as (y & mo & dd & E & H).
    apply app_inv_tail in E. exists y, mo, dd. split; [exact H | now right].
Qed.

(** ** Where the search finds a date *)

Lemma rmatch_cset {R} (d neg : bool) (items : list cls) (a : pychar)
      (s : pystr) (c : caps) (k : cont R) :
  rmatch d (CSet neg items) (a :: s) c k
  = if cset_has neg items a then k s c else None.
Proof. reflexivity. Qed.

Lemma re_search_hit (d : bool) (r : regex) (pos : nat) (s : pystr)
      (m : rmatch_obj) :
  re_match_at d r pos s = Some m -> re_search_from d r pos s = Some m.
Proof. intros H. destruct s; cbn [re_search_from]; now rewrite H. Qed.

(** The search passes over the characters at which the pattern cannot
    begin. *)
Lemma search_skip (d : bool) (r : regex) (pre : pystr) :
  (forall a, In a pre ->
     forall pos s, re_match_at d r pos (a :: s) = None) ->
  forall (pos : nat) (s : pystr),
    re_search_from d r pos (pre ++ s)
    = re_search_from d r (pos + List.length pre) s.
Proof.
  induction pre as [| a pre IH]; intros H pos s; cbn [app List.length].
  - now rewrite Nat.add_0_r.
  - cbn [re_search_from]. rewrite (H a) by now left.
    rewrite IH by (intros b Hb; apply H; now right).
    f_equal. lia.
Qed.

Lemma labelled_refuses (L : string) (date : regex) (a : pychar) (pos : nat)
      (s : pystr) :
  u L <> [] -> a <> hd 0%N (u L) ->
  re_match_at false (labelled L date) pos (a :: s) = None.
Proof.
  unfold labelled, re_match_at. destruct (u L) as [| ch l]; [congruence |].
  intros _ Ha. cbn [hd] in Ha. cbn [lit]. rewrite rmatch_cat.
  cbn [rmatch]. now rewrite (proj2 (N.eqb_neq a ch)).
Qed.

Lemma bare_refuses (date : regex) (a : pychar) (pos : nat) (s : pystr) :
  date = ymd_text \/ date = ymd_dash -> isdecimal a = false ->
  re_match_at false (Group 1 date) pos (a :: s) = None.
Proof.
  intros Hd Ha. unfold re_match_at. rewrite rmatch_group.
  destruct Hd as [-> | ->]; unfold ymd_text, ymd_dash, times, digit;
    rewrite rmatch_cat, rmatch_rep; cbn [List.length];
    rewrite rep_loop_hi_cons, cset_digit, Ha; reflexivity.
Qed.

(** A bare date pattern at the start of a date. *)
Lemma bare_at (date : regex) (pos : nat) (D post : pystr) :
  (forall R (k : cont R) (x : R) (c : caps),
     k post c = Some x -> rmatch false date (D ++ post) c k = Some x) ->
  exists m,
    re_match_at false (Group 1 date) pos (D ++ post) = Some m
    /\ mgroup 1 m = D.
Proof.
  intros Hdate. unfold re_match_at. rewrite rmatch_group.
  eexists. split.
  - apply Hdate. rewrite firstn_prefix. reflexivity.
  - reflexivity.
Qed.

(** A labelled date pattern at the start of a label, a colon, blanks and
    a date. *)
Lemma labelled_at (L : string) (date : regex) (pos : nat) (c : pychar)
      (sp D post : pystr) :
  c = uc "：" \/ c = uc ":" ->
  forallb isspace sp = true ->
  begins_with_digit (D ++ post) = true ->
  (forall R (k : cont R) (x : R) (cp : caps),
     k post cp = Some x -> rmatch false date (D ++ post) cp k = Some x) ->
  exists m,
    re_match_at false (labelled L date) pos (u L ++ c :: sp ++ D ++ post)
    = Some m
    /\ mgroup 1 m = D.
Proof.
  intros Hc Hs Hb Hdate. unfold re_match_at, labelled.
  rewrite rmatch_lit, rmatch_cat. unfold colon. rewrite rmatch_cset.
  assert (Hcol : cset_has false [CChr (uc "："); CChr (uc ":")] c = true).
  { destruct Hc as [-> | ->]; reflexivity. }
  rewrite Hcol, rmatch_cat.
  eexists. split.
  - apply spaces_match; [exact Hs | exact Hb |]. cbv beta.
    rewrite rmatch_group. apply Hdate. rewrite firstn_prefix. reflexivity.
  - reflexivity.
Qed.

Lemma written_begins (y mo dd post : pystr) :
  date_parts y mo dd -> begins_with_digit (written y mo dd ++ post) = true.
Proof.
  intros (Ly & _ & _ & Fy & _). unfold written.
  destruct y as [| a y]; [discriminate |]. cbn in *.
  now apply andb_prop in Fy.
Qed.

Lemma dashed_begins (y mo dd post : pystr) :
  date_parts y mo dd -> begins_with_digit (dashed y mo dd ++ post) = true.
Proof.
  intros (Ly & _ & _ & Fy & _). unfold dashed.
  destruct y as [| a y]; [discriminate |]. cbn in *.
  now apply andb_prop in Fy.
Qed.

(** ** The loop over the patterns *)

Lemma first_some_split {A B} (f : A -> option B) (before : list A) (p : A)
      (after : list A) (v : B) :
  (forall q, In q before -> f q = None) -> f p = Some v ->
  first_some f (before ++ p :: after) = Some v.
Proof.
  intros Hb Hp. induction before as [| q before IH]; cbn [app first_some].
  - now rewrite Hp.
  - rewrite (Hb q) by now left. apply IH. intros q' Hq. apply Hb. now right.
Qed.

Lemma try_pattern_none (doc_text : pystr) (p : regex) :
  re_search p doc_text = None -> try_pattern doc_text p = None.
Proof. intros H. unfold try_pattern. now rewrite H. Qed.

(** The first pattern of the list that is found decides. *)
Lemma first_found_decides (doc_text : pystr) (before : list regex)
      (p : regex) (after : list regex) (m : rmatch_obj) (y mo dd : pystr) :
  patterns = before ++ p :: after ->
  (forall q, In q before -> re_search q doc_text = None) ->
  re_search p doc_text = Some m ->
  date_parts y mo dd ->
  mgroup 1 m = written y mo dd \/ mgroup 1 m = dashed y mo dd ->
  extract_test_date doc_text = normal y mo dd.
Proof.
  intros Hs Hb Hm Hp Hg. unfold extract_test_date. rewrite Hs.
  rewrite (first_some_split (try_pattern doc_text) before p after
             (normal y mo dd)).
  - reflexivity.
  - intros q Hq. apply try_pattern_none. now apply Hb.
  - now apply (try_pattern_found doc_text p m).
Qed.

Lemma normal_not_sentinel (y mo dd : pystr) :
  date_parts y mo dd -> normal y mo dd <> u "未知".
Proof.
  intros (Ly & _ & _ & Fy & _) H. unfold normal in H.
  destruct y as [| a y]; [discriminate |].
  cbn [forallb] in Fy. apply andb_prop in Fy. destruct Fy as [Fa _].
  injection H as -> _. discriminate.
Qed.

Lemma first_some_found {A B} (f : A -> option B) (xs : list A) (x : A) :
  In x xs -> f x <> None -> first_some f xs <> None.
Proof.
  induction xs as [| a xs IH]; [intros [] |]. cbn [first_some].
  intros [-> | Hx] Hf.
  - destruct (f x); [discriminate | congruence].
  - destruct (f a); [discriminate | now apply IH].
Qed.

(** The sentinel is returned exactly when no pattern is found. *)
Lemma sentinel_iff (doc_text : pystr) :
  extract_test_date doc_text = u "未知"
  <-> forall p, In p patterns -> re_search p doc_text = None.
Proof.
  split; [| apply no_date_pattern].
  intros H p Hp. destruct (re_search p doc_text) as [m |] eqn:Em;
    [exfalso | reflexivity].
  destruct (date_group_shape doc_text p m Hp Em) as (y & mo & dd & Hd & Hg).
  pose proof (try_pattern_found doc_text p m y mo dd Em Hd Hg) as Ht.
  unfold extract_test_date in H.
  destruct (first_some (try_pattern doc_text) patterns) as [v |] eqn:E.
  - destruct (first_some_some _ _ _ E) as (q & Hq & Hv).
    unfold try_pattern in Hv.
    destruct (re_search q doc_text) as [m' |] eqn:Em'; [| discriminate].
    destruct (date_group_shape doc_text q m' Hq Em')
      as (y' & mo' & dd' & Hd' & Hg').
    pose proof (try_pattern_found doc_text q m' y' mo' dd' Em' Hd' Hg')
      as Ht'.
    unfold try_pattern in Ht'. rewrite Em' in Ht'.
    rewrite Ht' in Hv. injection Hv as <-.
    now apply (normal_not_sentinel y' mo' dd' Hd').
  - apply (first_some_found (try_pattern doc_text) patterns p Hp);
      [congruence | exact E].
Qed.

Lemma no_digit_in (pre : pystr) (a : pychar) :
  no_digit pre -> In a pre -> isdecimal a = false.
Proof.
  unfold no_digit. intros H Ha.
  destruct (isdecimal a) eqn:E; [| reflexivity].
  assert (existsb isdecimal pre = true); [| congruence].
  apply existsb_exists. now exists a.
Qed.

(** A bare date pattern finds the first date of a text that holds no
    digit before it. *)
Lemma bare_search (date : regex) (pre D post : pystr) :
  date = ymd_text \/ date = ymd_dash ->
  no_digit pre ->
  (forall R (k : cont R) (x : R) (c : caps),
     k post c = Some x -> rmatch false date (D ++ post) c k = Some x) ->
  exists m,
    re_search (Group 1 date) (pre ++ D ++ post) = Some m /\ mgroup 1 m = D.
Proof.
  intros Hd Hpre Hdate. unfold re_search. rewrite search_skip.
  - destruct (bare_at date (0 + List.length pre) D post Hdate)
      as (m & Hm & Hg).
    exists m. split; [now apply re_search_hit | exact Hg].
  - intros a Ha pos s. apply bare_refuses; [exact Hd |].
    now apply (no_digit_in pre).
Qed.

(** A labelled date pattern finds the date after the first label. *)
Lemma labelled_search (L : string) (date : regex) (pre : pystr)
      (c : pychar) (sp D post : pystr) :
  u L <> [] -> ~ In (hd 0%N (u L)) pre ->
  c = uc "：" \/ c = uc ":" ->
  forallb isspace sp = true ->
  begins_with_digit (D ++ post) = true ->
  (forall R (k : cont R) (x : R) (cp : caps),
     k post cp = Some x -> rmatch false date (D ++ post) cp k = Some x) ->
  exists m,
    re_search (labelled L date) (pre ++ u L ++ c :: sp ++ D ++ post)
    = Some m
    /\ mgroup 1 m = D.
Proof.
  intros HL Hpre Hc Hs Hb Hdate. unfold re_search. rewrite search_skip.
  - destruct (labelled_at L date (0 + List.length pre) c sp D post
                Hc Hs Hb Hdate) as (m & Hm & Hg).
    exists m. split; [now apply re_search_hit | exact Hg].
  - intros a Ha pos s. apply labelled_refuses; [exact HL |].
    intros ->. contradiction.
Qed.

(** A labelled pattern is found only in a text that holds its label. *)
Lemma labelled_search_in (L : string) (date : regex) (doc_text : pystr)
      (m : rmatch_obj) :
  re_search (labelled L date) doc_text = Some m ->
  forall ch, In ch (u L) -> In ch doc_text.
Proof.
  intros H ch Hch.
  destruct (re_search_from_sound _ _ _ _ _ H) as (sk & s0 & s' & -> & Hd).
  unfold labelled in Hd.
  destruct (denotes_lit _ _ _ _ _ _ _ Hd) as (s1 & -> & _).
  rewrite !in_app_iff. auto.
Qed.

(** The pattern of the written form is found only in a text that holds
    the character of the year. *)
Lemma written_search_in (doc_text : pystr) (m : rmatch_obj) :
  re_search (Group 1 ymd_text) doc_text = Some m ->
  In (uc "年") doc_text.
Proof.
  intros H.
  destruct (re_search_from_sound _ _ _ _ _ H) as (sk & s0 & s' & -> & Hd).
  apply denotes_group in Hd. destruct Hd as (pre & c1 & -> & _ & Hd).
  destruct (ymd_text_parts _ _ _ _ Hd) as (y & mo & dd & E & _).
  apply app_inv_tail in E. subst pre. unfold written.
  rewrite !in_app_iff. cbn [In]. auto.
Qed.

Lemma labelled_not_empty (L : string) (date : regex) :
  In (labelled L date) patterns -> u L <> [].
Proof.
  unfold patterns, labelled. intros H E. rewrite E in H. cbn [lit] in H.
  repeat (destruct H as [H | H]; [discriminate |]). destruct H.
Qed.

(** A text that is one date. *)
Lemma one_date (y mo dd : pystr) :
  date_parts y mo dd ->
  extract_test_date (written y mo dd) = normal y mo dd
  /\ extract_test_date (dashed y mo dd) = normal y mo dd.
Proof.
  intros Hp. split.
  - destruct (bare_search ymd_text [] (written y mo dd) [])
      as (m & Hm & Hg).
    + now left.
    + reflexivity.
    + intros R k x c Hk. now apply ymd_text_match.
    + cbn [app] in Hm. rewrite app_nil_r in Hm.
      apply (first_found_decides (written y mo dd)
               (firstn 4 patterns) (Group 1 ymd_text) [Group 1 ymd_dash]
               m y mo dd); auto.
      intros q Hq.
      destruct (re_search q (written y mo dd)) as [m' |] eqn:E;
        [exfalso | reflexivity].
      unfold patterns in Hq. cbn [firstn In] in Hq.
      destruct Hq as [<- | [<- | [<- | [<- | []]]]].
      * pose proof (labelled_search_in _ _ _ _ E (uc "检")
                      ltac:(now left)) as Hi.
        destruct (written_chars _ _ _ _ Hp Hi) as [Hd | [Hd | [Hd | Hd]]];
          discriminate.
      * pose proof (labelled_search_in _ _ _ _ E (uc "检")
                      ltac:(now left)) as Hi.
        destruct (written_chars _ _ _ _ Hp Hi) as [Hd | [Hd | [Hd | Hd]]];
          discriminate.
      * pose proof (labelled_search_in _ _ _ _ E (uc "期")
                      ltac:(right; now left)) as Hi.
        destruct (written_chars _ _ _ _ Hp Hi) as [Hd | [Hd | [Hd | Hd]]];
          discriminate.
      * pose proof (labelled_search_in _ _ _ _ E (uc "D")
                      ltac:(now left)) as Hi.
        destruct (written_chars _ _ _ _ Hp Hi) as [Hd | [Hd | [Hd | Hd]]];
          discriminate.
  - destruct (bare_search ymd_dash [] (dashed y mo dd) [])
      as (m & Hm & Hg).
    + now right.
    + reflexivity.
    + intros R k x c Hk. apply ymd_dash_match; auto.
    + cbn [app] in Hm. rewrite app_nil_r in Hm.
      apply (first_found_decides (dashed y mo dd)
               (firstn 5 patterns) (Group 1 ymd_dash) []
               m y mo dd); auto.
      intros q Hq.
      destruct (re_search q (dashed y mo dd)) as [m' |] eqn:E;
        [exfalso | reflexivity].
      unfold patterns in Hq. cbn [firstn In] in Hq.
      destruct Hq as [<- | [<- | [<- | [<- | [<- | []]]]]].
      * pose proof (labelled_search_in _ _ _ _ E (uc "检")
                      ltac:(now left)) as Hi.
        destruct (dashed_chars _ _ _ _ Hp Hi) as [Hd | Hd]; discriminate.
      * pose proof (labelled_search_in _ _ _ _ E (uc "检")
                      ltac:(now left)) as Hi.
        destruct (dashed_chars _ _ _ _ Hp Hi) as [Hd | Hd]; discriminate.
      * pose proof (labelled_search_in _ _ _ _ E (uc "期")
                      ltac:(right; now left)) as Hi.
        destruct (dashed_chars _ _ _ _ Hp Hi) as [Hd | Hd]; discriminate.
      * pose proof (labelled_search_in _ _ _ _ E (uc "D")
                      ltac:(now left)) as Hi.
        destruct (dashed_chars _ _ _ _ Hp Hi) as [Hd | Hd]; discriminate.
      * pose proof (written_search_in _ _ E) as Hi.
        destruct (dashed_chars _ _ _ _ Hp Hi) as [Hd | Hd]; discriminate.
Qed.

(** The claim C9 as it is written fails: a text that contains one of
    the two dates of the claim need not yield that date.  A labelled
    date anywhere in the text is preferred to a bare date before it, and
    a day goes on over a second digit. *)
Lemma date_containing_counterexample :
  contains (u "2024年11月18日") (u "2024年11月18日 检测日期:2025-1-2") = true
  /\ extract_test_date (u "2024年11月18日 检测日期:2025-1-2") = u "2025-01-02"
  /\ contains (u "2024-1-5") (u "2024-1-55") = true
  /\ extract_test_date (u "2024-1-55") = u "2024-01-55".
Proof. repeat split; vm_compute; reflexivity. Qed.

(** C9 (amended).  The six patterns are tried in their order, and the
    first that is found anywhere in the text decides, whatever the later
    ones would find and wherever: what it has found is a date in the
    written or in the dashed form, and the result is its year, month and
    day joined by hyphens, month and day padded to two digits.  The
    sentinel is returned exactly when no pattern is found, as in every
    text without a decimal digit.  So a text that is one date yields
    that date normalised (the two examples of the claim); a date after a
    label, a colon and blanks is found when the first character of the
    label does not occur before it and no earlier pattern is found; a
    bare date is found when no digit stands before it and no earlier
    pattern is found; and a dashed date is read with its day when the
    day has two digits or no digit follows it. *)
Theorem test_date_normalisation :
  (forall (doc_text : pystr) (before : list regex) (p : regex)
          (after : list regex) (m : rmatch_obj),
     patterns = before ++ p :: after ->
     (forall q, In q before -> re_search q doc_text = None) ->
     re_search p doc_text = Some m ->
     exists y mo d,
       date_parts y mo d
       /\ (mgroup 1 m = written y mo d \/ mgroup 1 m = dashed y mo d)
       /\ extract_test_date doc_text = normal y mo d)
  /\ (forall doc_text,
        extract_test_date doc_text = u "未知"
        <-> forall p, In p patterns -> re_search p doc_text = None)
  /\ (forall y mo d,
        date_parts y mo d ->
        extract_test_date (written y mo d) = normal y mo d
        /\ extract_test_date (dashed y mo d) = normal y mo d)
  /\ extract_test_date (u "2024年11月18日") = u "2024-11-18"
  /\ extract_test_date (u "2024-1-5") = u "2024-01-05"
  /\ (forall (L : string) (before after : list regex)
             (pre : pystr) (c : pychar) (sp y mo d post : pystr),
        patterns = before ++ labelled L ymd_text :: after ->
        (forall q, In q before ->
           re_search q (pre ++ u L ++ c :: sp ++ written y mo d ++ post)
           = None) ->
        ~ In (hd 0%N (u L)) pre ->
        c = uc "：" \/ c = uc ":" ->
        forallb isspace sp = true ->
        date_parts y mo d ->
        extract_test_date (pre ++ u L ++ c :: sp ++ written y mo d ++ post)
        = normal y mo d)
  /\ (forall (L : string) (before after : list regex)
             (pre : pystr) (c : pychar) (sp y mo d post : pystr),
        patterns = before ++ labelled L ymd_dash :: after ->
        (forall q, In q before ->
           re_search q (pre ++ u L ++ c :: sp ++ dashed y mo d ++ post)
           = None) ->
        ~ In (hd 0%N (u L)) pre ->
        c = uc "：" \/ c = uc ":" ->
        forallb isspace sp = true ->
        date_parts y mo d ->
        List.length d = 2 \/ begins_with_digit post = false ->
        extract_test_date (pre ++ u L ++ c :: sp ++ dashed y mo d ++ post)
        = normal y mo d)
  /\ (forall pre y mo d post,
        (forall q, In q (firstn 4 patterns) ->
           re_search q (pre ++ written y mo d ++ post) = None) ->
        no_digit pre ->
        date_parts y mo d ->
        extract_test_date (pre ++ written y mo d ++ post) = normal y mo d)
  /\ (forall pre y mo d post,
        (forall q, In q (firstn 5 patterns) ->
           re_search q (pre ++ dashed y mo d ++ post) = None) ->
        no_digit pre ->
        date_parts y mo d ->
        List.length d = 2 \/ begins_with_digit post = false ->
        extract_test_date (pre ++ dashed y mo d ++ post) = normal y mo d)
  /\ (forall doc_text,
        no_digit doc_text -> extract_test_date doc_text = u "未知").
Proof.
  split.
  { intros doc_text before p after m Hs Hb Hm.
    assert (Hp : In p patterns).
    { rewrite Hs. apply in_or_app. right. now left. }
    destruct (date_group_shape doc_text p m Hp Hm)
      as (y & mo & d & Hd & Hg).
    exists y, mo, d. split; [exact Hd |]. split; [exact Hg |].
    now apply (first_found_decides doc_text before p after m). }
  split; [exact sentinel_iff |].
  split; [exact one_date |].
  split; [vm_compute; reflexivity |].
  split; [vm_compute; reflexivity |].
  split.
  { intros L before after pre c sp y mo d post Hs Hb Hpre Hc Hsp Hd.
    assert (HL : u L <> []).
    { apply (labelled_not_empty L ymd_text). rewrite Hs.
      apply in_or_app. right. now left. }
    destruct (labelled_search L ymd_text pre c sp (written y mo d) post
                HL Hpre Hc Hsp (written_begins y mo d post Hd))
      as (m & Hm & Hg).
    - intros R k x cp Hk. now apply ymd_text_match.
    - apply (first_found_decides _ before (labelled L ymd_text) after
               m y mo d); auto. }
  split.
  { intros L before after pre c sp y mo d post Hs Hb Hpre Hc Hsp Hd Hpost.
    assert (HL : u L <> []).
    { apply (labelled_not_empty L ymd_dash). rewrite Hs.
      apply in_or_app. right. now left. }
    destruct (labelled_search L ymd_dash pre c sp (dashed y mo d) post
                HL Hpre Hc Hsp (dashed_begins y mo d post Hd))
      as (m & Hm & Hg).
    - intros R k x cp Hk. now apply ymd_dash_match.
    - apply (first_found_decides _ before (labelled L ymd_dash) after
               m y mo d); auto. }
  split.
  { intros pre y mo d post Hb Hpre Hd.
    destruct (bare_search ymd_text pre (written y mo d) post)
      as (m & Hm & Hg); [now left | exact Hpre | |].
    - intros R k x c Hk. now apply ymd_text_match.
    - apply (first_found_decides _ (firstn 4 patterns) (Group 1 ymd_text)
               [Group 1 ymd_dash] m y mo d); auto. }
  split.
  { intros pre y mo d post Hb Hpre Hd Hpost.
    destruct (bare_search ymd_dash pre (dashed y mo d) post)
      as (m & Hm & Hg); [now right | exact Hpre | |].
    - intros R k x c Hk. now apply ymd_dash_match.
    - apply (first_found_decides _ (firstn 5 patterns) (Group 1 ymd_dash)
               [] m y mo d); auto. }
  intros doc_text Hd. apply no_date_pattern. intros p Hp.
  apply search_needs_digit; [| exact Hd].
  repeat (destruct Hp as [<- | Hp]; [vm_compute; reflexivity |]).
  destruct Hp.
Qed.

Lemma test_date_normalisation_witness :
  extract_test_date (u "2024年11月18日 检测日期:2025-1-2") = u "2025-01-02"
  /\ extract_test_date (u "报告 2024年3月7日 签发") = u "2024-03-07".
Proof.
  split.
  - apply (proj1 (proj2 (proj2 (proj2 (proj2 (proj2 (proj2
             test_date_normalisation))))))
             "检测日期"%string [labelled "检测日期" ymd_text]
             [labelled "日期" ymd_text; labelled "Date" ymd_dash;
              Group 1 ymd_text; Group 1 ymd_dash]
             (u "2024年11月18日 ") (uc ":") [] (u "2025") (u "1") (u "2") []).
    + reflexivity.
    + intros q [<- | []]. vm_compute. reflexivity.
    + vm_compute. intuition discriminate.
    + now right.
    + reflexivity.
    + vm_compute. intuition lia.
    + right. reflexivity.
  - apply (proj1 (proj2 (proj2 (proj2 (proj2 (proj2 (proj2 (proj2
             test_date_normalisation)))))))
             (u "报告 ") (u "2024") (u "3") (u "7") (u " 签发")).
    + intros q Hq. unfold patterns in Hq. cbn [firstn In] in Hq.
      destruct Hq as [<- | [<- | [<- | [<- | []]]]]; vm_compute; reflexivity.
    + vm_compute. reflexivity.
    + vm_compute. intuition lia.
Defined.
